(** * Comprehensive OCR service: a shallow embedding and its properties

    The development follows [services/comprehensive_ocr_service.py].

    Modelling conventions.
    - A Python [str] is a list of Unicode code points ([str := list N]).
      The character database of the interpreter ([str.isalnum],
      [str.isprintable], [str.isspace], decimal digits, [str.lower]) is not
      part of the repository: it is the record [unicode_db], a parameter of
      every function that consults it.
    - A Python [float] is an exact rational ([Q]); [int] is [Z].
    - The PDF parser (PyMuPDF), the image library (PIL / OpenCV) and the
      recognition engine (pytesseract) are external: what they answer is
      data of the model ([Document], [engine]); each call is recorded in a
      chronological trace of [event]s.
    - Exceptions are values of [exn]; a computation is a function from the
      trace so far to an [outcome] and the extended trace (monad [M]).
    - [time.time()] reads a clock [now : nat -> Q], indexed by the number of
      earlier readings.
    - Logging is not modelled. *)

From Stdlib Require Import String Ascii DecimalString.
From Stdlib Require Import List ZArith NArith QArith Qminmax Bool Lia.
Import ListNotations.

Set Implicit Arguments.

(* ================================================================== *)
(** ** Strings *)

Module PyStr.

Definition str := list N.

(** An ASCII literal as a [str]. *)
Definition lit (s : string) : str :=
  map N_of_ascii (list_ascii_of_string s).

Definition str_eqb (a b : str) : bool :=
  if list_eq_dec N.eq_dec a b then true else false.

(** The interpreter's character tables. *)
Record unicode_db := {
  isalnum : N -> bool;
  isprintable : N -> bool;
  isspace : N -> bool;
  isdecimal : N -> bool;          (* category Nd: what [\d] matches *)
  lower : str -> str
}.

(** [sum(1 for c in text if p(c))] *)
Definition count_if (p : N -> bool) (text : str) : nat :=
  length (filter p text).

Fixpoint lstrip (sp : N -> bool) (s : str) : str :=
  match s with
  | c :: s' => if sp c then lstrip sp s' else s
  | [] => []
  end.

Definition rstrip (sp : N -> bool) (s : str) : str :=
  rev (lstrip sp (rev s)).

(** [s.strip()] *)
Definition strip (U : unicode_db) (s : str) : str :=
  rstrip (isspace U) (lstrip (isspace U) s).

(** [sep.join(parts)] *)
Fixpoint join (sep : str) (parts : list str) : str :=
  match parts with
  | [] => []
  | [p] => p
  | p :: rest => p ++ sep ++ join sep rest
  end.

Fixpoint starts_with (w s : str) : bool :=
  match w, s with
  | [], _ => true
  | a :: w', b :: s' => N.eqb a b && starts_with w' s'
  | _ :: _, [] => false
  end.

(** [s.count(w)]: occurrences of [w] found left to right without overlap;
    [skip] is the number of characters still covered by the last match. *)
Fixpoint count_from (w : str) (skip : nat) (s : str) : nat :=
  match s with
  | [] => 0
  | _ :: s' =>
      match skip with
      | S k => count_from w k s'
      | O => if starts_with w s
             then S (count_from w (length w - 1) s')
             else count_from w 0 s'
      end
  end.

Definition count (s w : str) : nat :=
  match w with
  | [] => S (length s)
  | _ => count_from w 0 s
  end.

(** [w in s] *)
Fixpoint contains (s w : str) : bool :=
  starts_with w s ||
  match s with
  | [] => false
  | _ :: s' => contains s' w
  end.

(** [len(s.split())]: the number of maximal runs of non-space characters;
    [inword] tells whether the previous character belonged to a run. *)
Fixpoint count_words (sp : N -> bool) (inword : bool) (s : str) : nat :=
  match s with
  | [] => 0
  | c :: s' =>
      if sp c then count_words sp false s'
      else if inword then count_words sp true s'
      else S (count_words sp true s')
  end.

(** [s.split(sep)] for a one-character separator; [cur] is the piece being
    read, reversed. *)
Fixpoint split_on (sep : N) (cur : str) (s : str) : list str :=
  match s with
  | [] => [rev cur]
  | c :: s' =>
      if N.eqb c sep then rev cur :: split_on sep [] s'
      else split_on sep (c :: cur) s'
  end.

(** [str(n)] for an [int]. *)
Definition str_of_Z (n : Z) : str :=
  lit (NilZero.string_of_int (Z.to_int n)).

(** The character tables restricted to ASCII, where they are those of
    CPython; used to evaluate the model on concrete ASCII inputs. *)
Definition ascii_between (lo hi c : N) : bool := (N.leb lo c && N.leb c hi)%bool.

Definition ascii_db : unicode_db := {|
  isalnum c := ascii_between 48 57 c || ascii_between 65 90 c || ascii_between 97 122 c;
  isprintable c := ascii_between 32 126 c;
  isspace c := ascii_between 9 13 c || ascii_between 28 32 c;
  isdecimal c := ascii_between 48 57 c;
  lower s := map (fun c => if ascii_between 65 90 c then (c + 32)%N else c) s
|}.

End PyStr.
Import PyStr.

(* ================================================================== *)
(** ** The fragment of [re] used by the quality scorer *)

Module Re.

(** A pattern is a sequence of atoms. *)
Inductive atom :=
| Cls (p : N -> bool)      (* one character of a class *)
| Plus (p : N -> bool)     (* [p+]: one or more, longest first *)
| Bnd                      (* [\b] *)
| Words (ws : list str).   (* [(w1|w2|...)] over literal words *)

Definition pattern := list atom.

Section Matcher.
Variable U : unicode_db.

(** [\w] *)
Definition is_word (c : N) : bool := isalnum U c || N.eqb c 95.

Definition word_opt (c : option N) : bool :=
  match c with Some x => is_word x | None => false end.

(** [\b] between the previous character and the rest of the text. *)
Definition at_boundary (prev : option N) (s : str) : bool :=
  xorb (word_opt prev) (word_opt (hd_error s)).

(** After [p+] has consumed [c]: consume more, or hand over to [k]. *)
Fixpoint plus_rest (p : N -> bool) (k : option N -> str -> bool)
         (c : N) (s : str) : bool :=
  match s with
  | c' :: s' => (p c' && plus_rest p k c' s') || k (Some c) s
  | [] => k (Some c) s
  end.

Fixpoint drop_word (w s : str) (prev : option N) : option (option N * str) :=
  match w, s with
  | [], _ => Some (prev, s)
  | a :: w', b :: s' => if N.eqb a b then drop_word w' s' (Some b) else None
  | _ :: _, [] => None
  end.

(** Does the pattern match at the start of [s], [prev] being the
    character before it? *)
Fixpoint match_here (re : pattern) (prev : option N) (s : str) : bool :=
  match re with
  | [] => true
  | Bnd :: re' => at_boundary prev s && match_here re' prev s
  | Cls p :: re' =>
      match s with
      | c :: s' => p c && match_here re' (Some c) s'
      | [] => false
      end
  | Plus p :: re' =>
      match s with
      | c :: s' => p c && plus_rest p (match_here re') c s'
      | [] => false
      end
  | Words ws :: re' =>
      existsb (fun w =>
                 match drop_word w s prev with
                 | Some (prev', s') => match_here re' prev' s'
                 | None => false
                 end) ws
  end.

Fixpoint search_from (re : pattern) (prev : option N) (s : str) : bool :=
  match_here re prev s ||
  match s with
  | c :: s' => search_from re (Some c) s'
  | [] => false
  end.

(** The truth value of [re.search(pattern, text)]. *)
Definition search (re : pattern) (text : str) : bool :=
  search_from re None text.

Definition upper_AZ (c : N) : bool := ascii_between 65 90 c.
Definition lower_az (c : N) : bool := ascii_between 97 122 c.
Definition terminal_punct (c : N) : bool :=
  N.eqb c 46 || N.eqb c 33 || N.eqb c 63.

(** The four patterns of [calculate_quality_score_comprehensive]. *)
Definition patterns : list pattern :=
  [ [Bnd; Cls upper_AZ; Plus lower_az; Bnd];
    [Bnd; Plus (isdecimal U); Bnd];
    [Cls terminal_punct; Plus (isspace U); Cls upper_AZ];
    [Bnd;
     Words (map lit ["the"; "and"; "or"; "of"; "to"; "in"; "for"; "with";
                     "on"; "at"; "by"; "from"]%string);
     Bnd] ].

End Matcher.

End Re.

(* ================================================================== *)
(** ** Quality scorer and language detector *)

Open Scope Q_scope.

Definition Qlt_bool (a b : Q) : bool := negb (Qle_bool b a).

Definition Qnat (n : nat) : Q := inject_Z (Z.of_nat n).

Section Heuristics.
Variable U : unicode_db.

Definition calculate_quality_score_comprehensive (text : str) : Q :=
  if (match text with [] => true | _ => false end
      || Nat.ltb (length (strip U text)) 5)%bool
  then 0
  else
    let alphanumeric := count_if (isalnum U) text in
    let printable := count_if (isprintable U) text in
    let total := length text in
    if Nat.eqb total 0 then 0
    else
      let score := (Qnat printable / Qnat total) * 0.3 in
      let alphanumeric_ratio := Qnat alphanumeric / Qnat total in
      let score :=
        if Qle_bool 0.4 alphanumeric_ratio then score + 0.4
        else score + alphanumeric_ratio in
      let score :=
        if Nat.ltb 500 (length text) then score + 0.1
        else if Nat.ltb 100 (length text) then score + 0.05
        else score in
      let pattern_matches :=
        length (filter (fun pattern => Re.search U pattern text) (Re.patterns U)) in
      let score :=
        if Nat.leb 3 pattern_matches then score + 0.2 else score in
      let whitespace_ratio := Qnat (count_if (isspace U) text) / Qnat total in
      let score :=
        if Qlt_bool 0.3 whitespace_ratio then score - 0.1 else score in
      Qmin 1 (Qmax 0 score).

Definition english_words : list str :=
  map lit ["the"; "and"; "or"; "of"; "to"; "in"; "for"; "with"; "on"; "at";
           "by"; "from"; "this"; "that"; "these"; "those"]%string.

Definition hindi_words : list str :=
  [ [2361; 2376]; [2361; 2376; 2306]; [2341; 2366]; [2341; 2375];
    [2325; 2368]; [2325; 2375]; [2325; 2379]; [2346; 2352];
    [2360; 2375]; [2350; 2375; 2306]; [2325; 2366]; [2325; 2367] ]%N.

Definition spanish_words : list str :=
  map lit ["el"; "la"; "de"; "que"; "y"; "a"; "en"; "un"; "es"; "se"; "no";
           "te"; "lo"; "le"; "da"; "su"; "por"; "son"; "con"; "para"]%string.

(** [sum(text_lower.count(word) for word in words)] *)
Definition count_all (text_lower : str) (words : list str) : nat :=
  list_sum (map (count text_lower) words).

Definition detect_languages_comprehensive (text : str) : list str :=
  let text_lower := lower U text in
  let english_count := count_all text_lower english_words in
  let hindi_count := count_all text_lower hindi_words in
  let spanish_count := count_all text_lower spanish_words in
  let languages := [] in
  let languages :=
    if Nat.ltb 15 english_count then languages ++ [lit "en"] else languages in
  let languages :=
    if Nat.ltb 5 hindi_count then languages ++ [lit "hi"] else languages in
  let languages :=
    if Nat.ltb 10 spanish_count then languages ++ [lit "es"] else languages in
  match languages with
  | [] => [lit "unknown"]
  | _ => languages
  end.

End Heuristics.

(* ================================================================== *)
(** ** Exceptions, traces and the computation monad *)

Definition bytes := list Byte.byte.

Inductive exn :=
| HTTPException (status_code : Z) (detail : str)
| Exception (msg : str).

(** [str(e)] *)
Definition exn_str (e : exn) : str :=
  match e with
  | HTTPException code detail => str_of_Z code ++ lit ": " ++ detail
  | Exception msg => msg
  end.

Inductive outcome (A : Type) :=
| Ok (a : A)
| Raise (e : exn).
Arguments Ok {A} a.
Arguments Raise {A} e.

(** Calls that leave the process. *)
Inductive event :=
| EvFitzOpen                              (* fitz.open(stream=...) *)
| EvLoadPage (page_num : nat)             (* doc[page_num] *)
| EvGetText (page_num : nat)              (* page.get_text("dict") *)
| EvGetImages (page_num : nat)            (* page.get_images() *)
| EvPixmap (page_num : nat) (xref : Z)    (* fitz.Pixmap(doc, xref) *)
| EvToBytes (page_num : nat) (xref : Z)   (* pix.tobytes("png") *)
| EvDocClose                              (* doc.close() *)
| EvImageOpen                             (* Image.open(...) *)
| EvPreprocess                            (* preprocess_image_for_ocr *)
| EvImageToData (config : str)            (* pytesseract.image_to_data *)
| EvImageToString (config : str)          (* pytesseract.image_to_string *)
| EvVersion                               (* pytesseract.get_tesseract_version *)
| EvClock.                                (* time.time() *)

Definition trace := list event.

Definition is_clock (ev : event) : bool :=
  match ev with EvClock => true | _ => false end.

Definition is_decomposition (ev : event) : bool :=
  match ev with
  | EvLoadPage _ | EvGetText _ | EvGetImages _ | EvPixmap _ _ | EvToBytes _ _ => true
  | _ => false
  end.

Definition is_recognition (ev : event) : bool :=
  match ev with
  | EvImageOpen | EvPreprocess | EvImageToData _ | EvImageToString _ => true
  | _ => false
  end.

Module Comp.

Definition M (A : Type) : Type := trace -> outcome A * trace.

Definition ret {A} (a : A) : M A := fun tr => (Ok a, tr).

Definition bind {A B} (m : M A) (f : A -> M B) : M B :=
  fun tr =>
    match m tr with
    | (Ok a, tr') => f a tr'
    | (Raise e, tr') => (Raise e, tr')
    end.

Definition raise {A} (e : exn) : M A := fun tr => (Raise e, tr).

(** [try: m  except Exception as e: h e] *)
Definition try_except {A} (m : M A) (h : exn -> M A) : M A :=
  fun tr =>
    match m tr with
    | (Ok a, tr') => (Ok a, tr')
    | (Raise e, tr') => h e tr'
    end.

(** An external call: its answer [r] is returned or raised, and the call
    is recorded. *)
Definition call {A} (ev : event) (r : outcome A) : M A :=
  fun tr => (r, tr ++ [ev]).

(** [time.time()] *)
Definition time (now : nat -> Q) : M Q :=
  fun tr => (Ok (now (length (filter is_clock tr))), tr ++ [EvClock]).

(** [for x in l: s = body s x] *)
Fixpoint for_each {A S} (l : list A) (body : S -> A -> M S) (s : S) : M S :=
  match l with
  | [] => ret s
  | x :: l' => bind (body s x) (for_each l' body)
  end.

End Comp.
Import Comp.

Declare Scope comp_scope.
Delimit Scope comp_scope with comp.
Notation "x <- m ;; k" := (bind m (fun x => k))
  (at level 61, m at next level, right associativity) : comp_scope.
Notation "' p <- m ;; k" := (bind m (fun x => match x with p => k end))
  (at level 61, p pattern, m at next level, right associativity) : comp_scope.
Open Scope comp_scope.

(** [enumerate(l)], counting from [i]. *)
Fixpoint enumerate_from {A} (i : nat) (l : list A) : list (nat * A) :=
  match l with
  | [] => []
  | x :: l' => (i, x) :: enumerate_from (S i) l'
  end.

Definition enumerate {A} (l : list A) : list (nat * A) := enumerate_from 0 l.

(* ================================================================== *)
(** ** What the external libraries answer *)

(** [fitz.Pixmap] *)
Record Pixmap := {
  pix_n : Z;
  pix_alpha : Z;
  pix_width : Z;
  pix_height : Z;
  pix_tobytes : outcome bytes
}.

Record span := { span_text : str }.
Record line := { line_spans : list span; line_bbox : list Q }.
(** A block of [page.get_text("dict")]; image blocks have no ["lines"]. *)
Record block := { block_lines : option (list line) }.
Record text_dict := { blocks : list block }.

(** An entry of [page.get_images()]: [img[0]] and [img[1:5]]. *)
Record image_entry := { img_xref : Z; img_fields : list Z }.

Record fitz_page := {
  get_text : outcome text_dict;
  get_images : outcome (list image_entry);
  rect_width : Q;
  rect_height : Q
}.

(** An opened document: [doc[i]] for [i < len(doc)], and the pixmap of an
    image reference. *)
Record Document := {
  doc_pages : list (outcome fitz_page);
  doc_pixmap : Z -> outcome Pixmap
}.

(** A PIL image, as far as the service looks at it. *)
Record image := { im_width : Z; im_height : Z; im_content : bytes }.

(** One row of [image_to_data(..., output_type=Output.DICT)]:
    [data['text'][i]] and [int(data['conf'][i])]. *)
Definition token := (str * Z)%type.

(** The process-wide state and the external capabilities.
    [preprocess] stands for [preprocess_image_for_ocr], whose body is a
    chain of PIL / OpenCV calls under one [try ... except] that returns an
    image in every case. [image_to_data] raises also when a confidence is
    not an integer literal. [set_order] is the iteration order of a [set]
    of strings, given the insertion order. *)
Record engine := {
  TESSERACT_AVAILABLE : bool;
  TESSERACT_CONFIGURED : bool;
  get_tesseract_version : outcome (option str);
  fitz_open : bytes -> outcome Document;
  image_open : bytes -> outcome image;
  preprocess : image -> image;
  image_to_data : image -> str -> str -> outcome (list token);
  image_to_string : image -> str -> str -> outcome str;
  sha256_hexdigest : bytes -> str;
  set_order : list str -> list str
}.

(* ================================================================== *)
(** ** The service's data *)

Record TextChunk := {
  chunk_text : str;
  chunk_confidence : Q;
  chunk_page : Z;
  chunk_bbox : list Q;
  chunk_type : str;
  chunk_language : option str
}.

(** The dictionary returned by [extract_text_with_tesseract]. *)
Record ocr_result := {
  ocr_text : str;
  ocr_confidence : Q;
  ocr_page : Z;
  ocr_bbox : list Z;
  ocr_chunk_type : str;
  ocr_language : str;
  ocr_processing_time : Q
}.

(** An entry of a page's ["images"]. The source keeps the PNG bytes in
    base64 and decodes them again before recognition; the model keeps the
    bytes. *)
Record image_data := {
  img_data : bytes;
  img_bbox : list Z;
  img_index : nat;
  img_width : Z;
  img_height : Z
}.

(** An entry of [pages_data]. *)
Record page_data := {
  pd_page_num : Z;
  pd_text_blocks : text_dict;
  pd_images : list image_data;
  pd_width : Q;
  pd_height : Q;
  pd_error : option str
}.

(** The dictionary returned by [process_pdf_comprehensive] and
    [process_image_comprehensive]. *)
Record doc_result := {
  res_text : str;
  res_chunks : list TextChunk;
  res_pages : nat;
  res_quality_score : Q;
  res_word_count : nat;
  res_character_count : nat;
  res_has_tables : bool;
  res_has_images : bool;
  res_language : str;
  res_extracted_languages : list str
}.

Record OCRResponse := {
  success : bool;
  text : str;
  chunks : list TextChunk;
  pages : nat;
  processing_time : Q;
  method : str;
  quality_score : Q;
  word_count : nat;
  character_count : nat;
  has_tables : bool;
  has_images : bool;
  language : str;
  extracted_languages : list str;
  file_hash : str;
  error : option str;
  warnings : list str
}.

Definition MAX_FILE_SIZE : Z := 50 * 1024 * 1024.
Definition MAX_PAGES_PER_REQUEST : nat := 100.

(* ================================================================== *)
(** ** The service *)

Section Service.
Variable U : unicode_db.
Variable E : engine.
Variable now : nat -> Q.

Definition check_tesseract_installation : M (bool * str) :=
  try_except
    (if negb (TESSERACT_AVAILABLE E) then
       ret (false, lit "pytesseract not installed")
     else if negb (TESSERACT_CONFIGURED E) then
       ret (false, lit "Tesseract not configured - run install_tesseract_project.py")
     else
       version <- call EvVersion (get_tesseract_version E) ;;
       let version_str :=
         match version with Some v => v | None => lit "unknown" end in
       ret (true, version_str))
    (fun e => ret (false, exn_str e)).

(** *** Page decomposition *)

(** The body of the loop over [enumerate(image_list)]. *)
Definition extract_image (doc : Document) (page_num : nat)
           (images : list image_data) (entry : nat * image_entry)
  : M (list image_data) :=
  let '(img_index, img) := entry in
  try_except
    (let xref := img_xref img in
     pix <- call (EvPixmap page_num xref) (doc_pixmap doc xref) ;;
     if (pix_n pix - pix_alpha pix <? 4)%Z then
       png <- call (EvToBytes page_num xref) (pix_tobytes pix) ;;
       ret (images ++ [ {| img_data := png;
                           img_bbox := img_fields img;
                           img_index := img_index;
                           img_width := pix_width pix;
                           img_height := pix_height pix |} ])
     else ret images)
    (fun _ => ret images).

Definition error_page (page_num : nat) (e : exn) : page_data :=
  {| pd_page_num := Z.of_nat page_num + 1;
     pd_text_blocks := {| blocks := [] |};
     pd_images := [];
     pd_width := 0;
     pd_height := 0;
     pd_error := Some (exn_str e) |}.

(** The body of the loop over [range(len(doc))]. *)
Definition extract_page (doc : Document) (pages_data : list page_data)
           (entry : nat * outcome fitz_page) : M (list page_data) :=
  let '(page_num, loaded) := entry in
  try_except
    (page <- call (EvLoadPage page_num) loaded ;;
     text_dict <- call (EvGetText page_num) (get_text page) ;;
     image_list <- call (EvGetImages page_num) (get_images page) ;;
     images <- for_each (enumerate image_list) (extract_image doc page_num) [] ;;
     ret (pages_data ++ [ {| pd_page_num := Z.of_nat page_num + 1;
                             pd_text_blocks := text_dict;
                             pd_images := images;
                             pd_width := rect_width page;
                             pd_height := rect_height page;
                             pd_error := None |} ]))
    (fun e => ret (pages_data ++ [error_page page_num e])).

Definition extract_text_from_pdf_comprehensive (pdf_data : bytes)
  : M (list page_data) :=
  try_except
    (doc <- call EvFitzOpen (fitz_open E pdf_data) ;;
     pages_data <- for_each (enumerate (doc_pages doc)) (extract_page doc) [] ;;
     _ <- call EvDocClose (Ok tt) ;;
     ret pages_data)
    (fun e => raise e).

(** *** Recognition *)

Definition configs : list str :=
  [ lit "--psm 6 -c tessedit_char_whitelist=0123456789ABCDEFGHIJKLMNOPQRSTUVWXYZabcdefghijklmnopqrstuvwxyz.,!?;:()[]{}"
      ++ [34; 39]%N;
    lit "--psm 3";
    lit "--psm 1";
    lit "--psm 4";
    lit "--psm 8" ].

(** The tokens with [conf > 30]. *)
Definition surviving (data : list token) : list token :=
  filter (fun t => (30 <? snd t)%Z) data.

(** [(best_text, best_confidence, best_config)] *)
Definition best_so_far := (str * Q * str)%type.

(** The body of the loop over [configs]. *)
Definition try_config (processed_image : image) (lang_config : str)
           (best : best_so_far) (config : str) : M best_so_far :=
  try_except
    (data <- call (EvImageToData config)
                  (image_to_data E processed_image config lang_config) ;;
     let text_parts := map fst (surviving data) in
     let confidences := map snd (surviving data) in
     match text_parts with
     | [] => ret best
     | _ =>
         let current_text := strip U (join (lit " ") text_parts) in
         let current_confidence :=
           inject_Z (fold_right Z.add 0%Z confidences)
           / Qnat (length confidences) / 100 in
         let '(_, best_confidence, _) := best in
         if Qlt_bool best_confidence current_confidence
         then ret (current_text, current_confidence, config)
         else ret best
     end)
    (fun _ => ret best).

Definition unavailable_result (page_num : Z) : ocr_result :=
  {| ocr_text := lit "[Tesseract OCR not available - install Tesseract OCR engine]";
     ocr_confidence := 0;
     ocr_page := page_num;
     ocr_bbox := [0; 0; 100; 100]%Z;
     ocr_chunk_type := lit "ocr_unavailable";
     ocr_language := lit "unknown";
     ocr_processing_time := 0 |}.

Definition error_result (page_num : Z) (e : exn) : ocr_result :=
  {| ocr_text := lit "[OCR error: " ++ exn_str e ++ lit "]";
     ocr_confidence := 0.1;
     ocr_page := page_num;
     ocr_bbox := [0; 0; 100; 100]%Z;
     ocr_chunk_type := lit "ocr_error";
     ocr_language := lit "unknown";
     ocr_processing_time := 0 |}.

Definition lang_config_of (languages : list str) : str :=
  match languages with
  | [] => lit "eng"
  | _ => join (lit "+") languages
  end.

(** [if not best_text: ...] *)
Definition basic_extraction (processed_image : image) (lang_config : str)
           (page_num : Z) (best : best_so_far) : M (str * Q) :=
  let '(best_text, best_confidence, _) := best in
  match best_text with
  | [] =>
      try_except
        (s <- call (EvImageToString (lit "--psm 6"))
                   (image_to_string E processed_image (lit "--psm 6") lang_config) ;;
         ret (strip U s, 0.5))
        (fun _ =>
           ret (lit "[OCR processing failed for image on page "
                  ++ str_of_Z page_num ++ lit "]", 0.1))
  | _ => ret (best_text, best_confidence)
  end.

Definition extract_text_with_tesseract (image_bytes : bytes) (page_num : Z)
           (languages : list str) : M ocr_result :=
  if negb (TESSERACT_AVAILABLE E) then ret (unavailable_result page_num)
  else
    try_except
      (image <- call EvImageOpen (image_open E image_bytes) ;;
       processed_image <- call EvPreprocess (Ok (preprocess E image)) ;;
       let lang_config := lang_config_of languages in
       start_time <- time now ;;
       best <- for_each configs (try_config processed_image lang_config)
                        ([], 0, []) ;;
       ' (best_text, best_confidence) <-
           basic_extraction processed_image lang_config page_num best ;;
       end_time <- time now ;;
       let processing_time := end_time - start_time in
       ret {| ocr_text := best_text;
              ocr_confidence := best_confidence;
              ocr_page := page_num;
              ocr_bbox := [0; 0; im_width image; im_height image]%Z;
              ocr_chunk_type := lit "ocr_text";
              ocr_language := lang_config;
              ocr_processing_time := processing_time |})
      (fun e => ret (error_result page_num e)).

(** *** Chunk assembly *)

Definition line_text_of (ln : line) : str :=
  fold_left (fun line_text sp => line_text ++ span_text sp) (line_spans ln) [].

(** The body of the loop over [block["lines"]], on
    [(page_text, all_chunks)]. *)
Definition add_line (page_num : Z) (preserve_layout : bool)
           (st : str * list TextChunk) (ln : line) : str * list TextChunk :=
  let '(page_text, all_chunks) := st in
  let line_text := line_text_of ln in
  match strip U line_text with
  | [] => st
  | stripped =>
      (page_text ++ line_text ++ (if preserve_layout then [10%N] else lit " "),
       all_chunks ++ [ {| chunk_text := stripped;
                          chunk_confidence := 0.95;
                          chunk_page := page_num;
                          chunk_bbox := line_bbox ln;
                          chunk_type := lit "text";
                          chunk_language := None |} ])
  end.

Definition add_block (page_num : Z) (preserve_layout : bool)
           (st : str * list TextChunk) (b : block) : str * list TextChunk :=
  match block_lines b with
  | Some lines => fold_left (add_line page_num preserve_layout) lines st
  | None => st
  end.

(** [extracted_languages.add(x)] on a set kept in insertion order. *)
Definition set_add (x : str) (s : list str) : list str :=
  if existsb (str_eqb x) s then s else s ++ [x].

Definition ocr_chunk (page_num : Z) (r : ocr_result) : TextChunk :=
  {| chunk_text := ocr_text r;
     chunk_confidence := ocr_confidence r;
     chunk_page := page_num;
     chunk_bbox := map inject_Z (ocr_bbox r);
     chunk_type := ocr_chunk_type r;
     chunk_language := Some (ocr_language r) |}.

(** What the body of the loop over [page_data["images"]] does with the
    recognition result, on [(page_text, all_chunks, extracted_languages)]. *)
Definition record_ocr (page_num : Z) (preserve_layout : bool)
           (st : str * list TextChunk * list str) (ocr_result : ocr_result)
  : str * list TextChunk * list str :=
  let '(page_text, all_chunks, extracted) := st in
  match strip U (ocr_text ocr_result) with
  | [] => st
  | _ =>
      let page_text :=
        if preserve_layout
        then page_text ++ [10%N] ++ ocr_text ocr_result ++ [10%N]
        else page_text ++ ocr_text ocr_result ++ lit " " in
      let extracted :=
        match ocr_language ocr_result with
        | [] => extracted
        | l => set_add l extracted
        end in
      (page_text, all_chunks ++ [ocr_chunk page_num ocr_result], extracted)
  end.

(** The body of the loop over [page_data["images"]]. *)
Definition add_image (page_num : Z) (languages : list str)
           (preserve_layout : bool)
           (st : str * list TextChunk * list str) (img : image_data)
  : M (str * list TextChunk * list str) :=
  try_except
    (let img_bytes := img_data img in
     ocr_result <- extract_text_with_tesseract img_bytes page_num languages ;;
     ret (record_ocr page_num preserve_layout st ocr_result))
    (fun _ => ret st).

(** The variables the page loop of [process_pdf_comprehensive] updates. *)
Record assembly := {
  all_text : str;
  all_chunks : list TextChunk;
  seen_images : bool;
  extracted : list str
}.

(** The body of the loop over [pages_data]. *)
Definition process_page (extract_images : bool) (languages : list str)
           (preserve_layout : bool) (st : assembly) (pd : page_data)
  : M assembly :=
  let page_num := pd_page_num pd in
  match pd_error pd with
  | Some _ => ret st
  | None =>
      let '(page_text, chunks) :=
        fold_left (add_block page_num preserve_layout)
                  (blocks (pd_text_blocks pd)) ([], all_chunks st) in
      ' (page_text, chunks, langs, seen) <-
        (match extract_images, pd_images pd with
         | true, _ :: _ =>
             ' (page_text, chunks, langs) <-
               for_each (pd_images pd)
                        (add_image page_num languages preserve_layout)
                        (page_text, chunks, extracted st) ;;
             ret (page_text, chunks, langs, true)
         | _, _ => ret (page_text, chunks, extracted st, seen_images st)
         end) ;;
      ret {| all_text := all_text st ++ [10%N] ++ lit "--- PAGE "
                           ++ str_of_Z page_num ++ lit " ---" ++ [10%N]
                           ++ page_text ++ [10%N];
             all_chunks := chunks;
             seen_images := seen;
             extracted := langs |}
  end.

Definition first_language (detected_languages : list str) : str :=
  match detected_languages with
  | l :: _ => l
  | [] => lit "unknown"
  end.

Definition process_pdf_comprehensive (pdf_data : bytes)
           (extract_tables extract_images : bool) (confidence_threshold : Q)
           (languages : list str) (preserve_layout : bool) : M doc_result :=
  try_except
    (pages_data <- extract_text_from_pdf_comprehensive pdf_data ;;
     if Nat.ltb MAX_PAGES_PER_REQUEST (length pages_data) then
       raise (HTTPException 413
                (lit "Too many pages (max "
                   ++ str_of_Z (Z.of_nat MAX_PAGES_PER_REQUEST) ++ lit ")"))
     else
       st <- for_each pages_data
                      (process_page extract_images languages preserve_layout)
                      {| all_text := []; all_chunks := [];
                         seen_images := false; extracted := [] |} ;;
       let word_count := count_words (isspace U) false (all_text st) in
       let character_count := length (all_text st) in
       let quality_score := calculate_quality_score_comprehensive U (all_text st) in
       let detected_languages := detect_languages_comprehensive U (all_text st) in
       ret {| res_text := all_text st;
              res_chunks := all_chunks st;
              res_pages := length pages_data;
              res_quality_score := quality_score;
              res_word_count := word_count;
              res_character_count := character_count;
              res_has_tables := false;
              res_has_images := seen_images st;
              res_language := first_language detected_languages;
              res_extracted_languages := set_order E (extracted st) |})
    (fun e => raise e).

Definition process_image_comprehensive (image_bytes : bytes)
           (extract_tables extract_images : bool) (confidence_threshold : Q)
           (languages : list str) : M doc_result :=
  try_except
    (result <- extract_text_with_tesseract image_bytes 1 languages ;;
     let text := ocr_text result in
     let word_count := count_words (isspace U) false text in
     let character_count := length text in
     let quality_score := calculate_quality_score_comprehensive U text in
     let detected_languages := detect_languages_comprehensive U text in
     ret {| res_text := text;
            res_chunks := [ocr_chunk 1 result];
            res_pages := 1;
            res_quality_score := quality_score;
            res_word_count := word_count;
            res_character_count := character_count;
            res_has_tables := false;
            res_has_images := true;
            res_language := first_language detected_languages;
            res_extracted_languages :=
              match ocr_language result with [] => [] | l => [l] end |})
    (fun e => raise e).

(** *** The endpoint *)

Definition failure_response (e : exn) (elapsed : Q) (warnings : list str)
  : OCRResponse :=
  {| success := false; text := []; chunks := []; pages := 0;
     processing_time := elapsed;
     method := lit "comprehensive-tesseract-ocr";
     quality_score := 0; word_count := 0; character_count := 0;
     has_tables := false; has_images := false;
     language := lit "unknown"; extracted_languages := [];
     file_hash := []; error := Some (exn_str e); warnings := warnings |}.

(** [[lang.strip() for lang in languages.split(',') if lang.strip()]],
    ['eng'] when that is empty. *)
Definition parse_languages (languages : str) : list str :=
  match filter (fun l => match l with [] => false | _ => true end)
               (map (strip U) (split_on 44 [] languages)) with
  | [] => [lit "eng"]
  | lang_list => lang_list
  end.

(** [POST /ocr/extract]. [content_type] is [None] when the upload states
    no media type. The [warnings] list is filled before the first
    statement that can raise anything but an [HTTPException], so the
    handler of the source sees the list as it is bound here. *)
Definition extract_text (file_data : bytes) (content_type : option str)
           (extract_tables extract_images : bool) (confidence_threshold : Q)
           (languages : str) (preserve_layout : bool) : M OCRResponse :=
  start_time <- time now ;;
  match file_data with
  | [] => raise (HTTPException 400 (lit "Empty file"))
  | _ =>
      if (MAX_FILE_SIZE <? Z.of_nat (length file_data))%Z then
        raise (HTTPException 413
                 (lit "File too large (max "
                    ++ str_of_Z (MAX_FILE_SIZE / (1024 * 1024)) ++ lit "MB)"))
      else
        let file_hash := sha256_hexdigest E file_data in
        let lang_list := parse_languages languages in
        ' (tesseract_available, tesseract_error) <- check_tesseract_installation ;;
        let warnings :=
          if negb tesseract_available
          then [lit "Tesseract OCR not available: " ++ tesseract_error]
          else [] in
        try_except
          (result <-
             match content_type with
             | None =>
                 raise (Exception (lit "'NoneType' object has no attribute 'lower'"))
             | Some file_type =>
                 if contains (lower U file_type) (lit "pdf") then
                   process_pdf_comprehensive file_data extract_tables
                     extract_images confidence_threshold lang_list preserve_layout
                 else if contains (lower U file_type) (lit "image") then
                   process_image_comprehensive file_data extract_tables
                     extract_images confidence_threshold lang_list
                 else raise (HTTPException 400 (lit "Unsupported file type"))
             end ;;
           end_time <- time now ;;
           let processing_time := end_time - start_time in
           ret {| success := true;
                  text := res_text result;
                  chunks := res_chunks result;
                  pages := res_pages result;
                  processing_time := processing_time;
                  method := lit "comprehensive-tesseract-ocr";
                  quality_score := res_quality_score result;
                  word_count := res_word_count result;
                  character_count := res_character_count result;
                  has_tables := res_has_tables result;
                  has_images := res_has_images result;
                  language := res_language result;
                  extracted_languages := res_extracted_languages result;
                  file_hash := file_hash;
                  error := None;
                  warnings := warnings |})
          (fun e =>
             match e with
             | HTTPException _ _ => raise e
             | Exception _ =>
                 end_time <- time now ;;
                 ret (failure_response e (end_time - start_time) warnings)
             end)
  end.

End Service.


From Stdlib Require Import Sorted.

(* ================================================================== *)
(** ** The health endpoint *)



(* ================================================================== *)
(** ** Engine configuration at startup

    [services/tesseract_config.py] and the import-time statements of
    [services/comprehensive_ocr_service.py]. The host answers for what
    lies outside the repository: which modules import, what running a
    binary with [--version] gives, what the configuration file holds,
    what the version probe of pytesseract gives under a command. The
    configuration file is taken to hold a JSON object with string values,
    as [save_config] writes it; printing is not modelled. *)

Module Startup.

(** The modules the service imports inside [try ... except ImportError]. *)
Inductive module_name :=
| fitz | PIL | numpy | cv2 | pytesseract | tesseract_config.

(** What [subprocess.run([path, '--version'], ..., timeout=5)] does:
    it completes with a return code, or raises. *)
Inductive run_error :=
| TimeoutExpired
| FileNotFoundError
| OSError
| OtherError (e : exn).

Inductive probe :=
| Completed (returncode : Z)
| Aborted (err : run_error).

(** A JSON object with string values, as an association list in
    insertion order. *)
Definition dict := list (str * str).

Fixpoint dict_get (d : dict) (key : str) : option str :=
  match d with
  | [] => None
  | (k, v) :: d' => if str_eqb k key then Some v else dict_get d' key
  end.

(** [d[key] = v] *)
Fixpoint dict_set (d : dict) (key v : str) : dict :=
  match d with
  | [] => [(key, v)]
  | (k, v0) :: d' =>
      if str_eqb k key then (k, v) :: d' else (k, v0) :: dict_set d' key v
  end.

Record host := {
  importable : module_name -> bool;
  (** [None]: no configuration file; [Some (Raise _)]: a file that cannot
      be read or parsed. *)
  config_file : option (outcome dict);
  run_version : str -> probe;
  (** [pytesseract.get_tesseract_version()] under a [tesseract_cmd]. *)
  version_under : str -> outcome str;
  (** [str(self.tesseract_dir / "tesseract-ocr" / "tesseract.exe")] and
      [str(self.tessdata_dir)]. *)
  bundled_binary : str;
  tessdata_dir : str
}.

(** What the configuration does to the world: the command pytesseract
    will run, the binaries probed, the configurations handed to
    [save_config]. *)
Record world := {
  tesseract_cmd : str;
  probed : list str;
  saved : list dict
}.

Definition windows_binary : str :=
  lit "C:\Program Files\Tesseract-OCR\tesseract.exe".

Section Config.
Variable H : host.

Definition load_config : dict :=
  match config_file H with
  | Some (Ok d) => d
  | Some (Raise _) => []
  | None => []
  end.

Definition possible_paths : list str :=
  [ lit "tesseract";
    windows_binary;
    lit "C:\Program Files (x86)\Tesseract-OCR\tesseract.exe";
    bundled_binary H;
    lit "/usr/bin/tesseract";
    lit "/usr/local/bin/tesseract";
    lit "/opt/homebrew/bin/tesseract";
    lit "/usr/local/Cellar/tesseract/*/bin/tesseract" ].

(** The loop of [find_tesseract_binary] over the paths left. *)
Fixpoint find_among (paths : list str) (w : world) : outcome (option str) * world :=
  match paths with
  | [] => (Ok None, w)
  | path :: rest =>
      let w' := {| tesseract_cmd := tesseract_cmd w;
                   probed := probed w ++ [path];
                   saved := saved w |} in
      match run_version H path with
      | Completed returncode =>
          if (returncode =? 0)%Z then (Ok (Some path), w')
          else find_among rest w'
      | Aborted TimeoutExpired
      | Aborted FileNotFoundError
      | Aborted OSError => find_among rest w'
      | Aborted (OtherError e) => (Raise e, w')
      end
  end.

Definition find_tesseract_binary (w : world) : outcome (option str) * world :=
  find_among possible_paths w.

(** [if not tesseract_path] *)
Definition falsy (v : option str) : bool :=
  match v with
  | None => true
  | Some [] => true
  | Some (_ :: _) => false
  end.

Definition configure_pytesseract (w : world) : outcome bool * world :=
  if negb (importable H pytesseract) then (Ok false, w)
  else
    let config := load_config in
    let tesseract_path := dict_get config (lit "tesseract_path") in
    let '(found, w) :=
      if falsy tesseract_path then find_tesseract_binary w
      else (Ok tesseract_path, w) in
    match found with
    | Raise e => (Raise e, w)
    | Ok tesseract_path =>
        if falsy tesseract_path then (Ok false, w)
        else
          let path := match tesseract_path with Some p => p | None => [] end in
          let config := dict_set config (lit "tesseract_path") path in
          let config := dict_set config (lit "tessdata_dir") (tessdata_dir H) in
          let w := {| tesseract_cmd := path;
                      probed := probed w;
                      saved := saved w ++ [config] |} in
          match version_under H path with
          | Ok _ => (Ok true, w)
          | Raise _ => (Ok false, w)
          end
    end.

(** The flags the service module ends up with. *)
Record flags := {
  AVAILABLE : bool;      (* TESSERACT_AVAILABLE *)
  CONFIGURED : bool      (* TESSERACT_CONFIGURED *)
}.

(** The import-time statements of the service module, from the world
    [w] pytesseract starts in. *)
Definition service_startup (w : world) : outcome flags * world :=
  let available :=
    forallb (importable H) [fitz; PIL; numpy; cv2; pytesseract] in
  if negb (importable H tesseract_config) then
    (Ok {| AVAILABLE := available; CONFIGURED := false |}, w)
  else
    match configure_pytesseract w with
    | (Raise e, w) => (Raise e, w)
    | (Ok configured, w) =>
        if available then
          (Ok {| AVAILABLE := true; CONFIGURED := true |},
           {| tesseract_cmd := windows_binary;
              probed := probed w;
              saved := saved w |})
        else
          (Ok {| AVAILABLE := false; CONFIGURED := configured |}, w)
    end.

End Config.

Definition initial_world : world :=
  {| tesseract_cmd := lit "tesseract"; probed := []; saved := [] |}.

End Startup.

(* ================================================================== *)
(** ** Definitions used to state the properties *)


Section ScoreFormula.
Variable U : unicode_db.
Variable text : str.







End ScoreFormula.



Section Attempts.
Variable U : unicode_db.
Variable E : engine.
Variable processed_image : image.
Variable lang_config : str.

(** The mean of the token confidences. *)
Definition mean_confidence (toks : list token) : Q :=
  inject_Z (fold_right Z.add 0%Z (map snd toks)) / Qnat (length toks).

(** The attempt of one configuration: text and score, when the engine
    answers and at least one token has a confidence above 30. *)
Definition attempt (config : str) : option (str * Q) :=
  match image_to_data E processed_image config lang_config with
  | Ok data =>
      match surviving data with
      | [] => None
      | toks => Some (strip U (join (lit " ") (map fst toks)),
                      mean_confidence toks / 100)
      end
  | Raise _ => None
  end.

(** [best] is the winner among the configurations [cs]: the attempt at
    some position [i] that no attempt beats and every earlier attempt
    is strictly below; the initial value when there is no attempt. *)
Definition winner (cs : list str) (best : best_so_far) : Prop :=
  (best = ([], 0, []) /\ forall c, In c cs -> attempt c = None)
  \/ (exists i t q c,
         best = (t, q, c)
         /\ nth_error cs i = Some c
         /\ attempt c = Some (t, q)
         /\ forall j c' t' q',
             nth_error cs j = Some c' -> attempt c' = Some (t', q') ->
             q' <= q /\ ((j < i)%nat -> q' < q)).
End Attempts.

Section Recognition.
Variable U : unicode_db.
Variable E : engine.

(** One turn of the search, as a function. *)
Definition choose (processed_image : image) (lang_config : str)
           (best : best_so_far) (config : str) : best_so_far :=
  match attempt U E processed_image lang_config config with
  | Some (t, q) => if Qlt_bool (snd (fst best)) q then (t, q, config) else best
  | None => best
  end.

Definition search_result (processed_image : image) (lang_config : str)
  : best_so_far :=
  fold_left (choose processed_image lang_config) configs ([], 0, []).

(** Text and confidence after the plain-text fallback. *)
Definition after_fallback (processed_image : image) (lang_config : str)
           (page_num : Z) (best : best_so_far) : str * Q :=
  match fst (fst best) with
  | [] =>
      match image_to_string E processed_image (lit "--psm 6") lang_config with
      | Ok s => (strip U s, 0.5)
      | Raise _ =>
          (lit "[OCR processing failed for image on page "
             ++ str_of_Z page_num ++ lit "]", 0.1)
      end
  | _ => (fst (fst best), snd (fst best))
  end.

(** The recognition result of an image, measured time aside. *)
Definition recognize (image_bytes : bytes) (page_num : Z)
           (languages : list str) : ocr_result :=
  if negb (TESSERACT_AVAILABLE E) then unavailable_result page_num
  else
    match image_open E image_bytes with
    | Raise e => error_result page_num e
    | Ok image =>
        let processed_image := preprocess E image in
        let lang_config := lang_config_of languages in
        let final :=
          after_fallback processed_image lang_config page_num
                         (search_result processed_image lang_config) in
        {| ocr_text := fst final;
           ocr_confidence := snd final;
           ocr_page := page_num;
           ocr_bbox := [0; 0; im_width image; im_height image]%Z;
           ocr_chunk_type := lit "ocr_text";
           ocr_language := lang_config;
           ocr_processing_time := 0 |}
    end.
End Recognition.

Definition with_time (r : ocr_result) (t : Q) : ocr_result :=
  {| ocr_text := ocr_text r;
     ocr_confidence := ocr_confidence r;
     ocr_page := ocr_page r;
     ocr_bbox := ocr_bbox r;
     ocr_chunk_type := ocr_chunk_type r;
     ocr_language := ocr_language r;
     ocr_processing_time := t |}.

(** The engine keeps to its interface: a token confidence is at most 100. *)
Definition confidences_bounded (E : engine) : Prop :=
  forall img config lang data,
    image_to_data E img config lang = Ok data ->
    forall t, In t data -> (snd t <= 100)%Z.


Section PageChunks.
Variable U : unicode_db.
Variable E : engine.

Definition nonblank (s : str) : bool :=
  match strip U s with [] => false | _ => true end.

(** The lines of a page, block after block. *)
Definition page_lines (pd : page_data) : list line :=
  flat_map (fun b => match block_lines b with Some ls => ls | None => [] end)
           (blocks (pd_text_blocks pd)).

Definition text_chunk (page_num : Z) (ln : line) : TextChunk :=
  {| chunk_text := strip U (line_text_of ln);
     chunk_confidence := 0.95;
     chunk_page := page_num;
     chunk_bbox := line_bbox ln;
     chunk_type := lit "text";
     chunk_language := None |}.

(** One chunk per line whose text is not blank. *)
Definition text_chunks (pd : page_data) : list TextChunk :=
  map (text_chunk (pd_page_num pd))
      (filter (fun ln => nonblank (line_text_of ln)) (page_lines pd)).

(** One chunk per image whose recognised text is not blank. *)
Definition image_chunks (languages : list str) (pd : page_data)
  : list TextChunk :=
  map (ocr_chunk (pd_page_num pd))
      (filter (fun r => nonblank (ocr_text r))
              (map (fun img => recognize U E (img_data img) (pd_page_num pd) languages)
                   (pd_images pd))).

Definition page_chunks (extract_images : bool) (languages : list str)
           (pd : page_data) : list TextChunk :=
  match pd_error pd with
  | Some _ => []
  | None =>
      text_chunks pd
      ++ (if extract_images then image_chunks languages pd else [])
  end.

(** The reading of the chunk order that gives every line and every image
    a chunk. *)
Definition chunk_per_line_and_image (languages : list str) (pd : page_data)
  : list TextChunk :=
  map (text_chunk (pd_page_num pd)) (page_lines pd)
  ++ map (fun img =>
            ocr_chunk (pd_page_num pd)
                      (recognize U E (img_data img) (pd_page_num pd) languages))
         (pd_images pd).
End PageChunks.

(** The box of an embedded image in its own pixel coordinates. *)
Definition bbox_of_image (img : image_data) : list Q :=
  [0; 0; inject_Z (img_width img); inject_Z (img_height img)].

(** Does the page switch [has_images] on? *)
Definition shows_images (extract_images : bool) (pd : page_data) : bool :=
  match pd_error pd, pd_images pd with
  | None, _ :: _ => extract_images
  | _, _ => false
  end.

(** The first call that fails while a page is decomposed. *)
Definition page_failure (loaded : outcome fitz_page) : option exn :=
  match loaded with
  | Raise e => Some e
  | Ok page =>
      match get_text page, get_images page with
      | Raise e, _ => Some e
      | Ok _, Raise e => Some e
      | Ok _, Ok _ => None
      end
  end.

(** [pd] is the entry of page [n] (counted from 0), [loaded] being what
    the parser answers for it: it carries the ordinal [n + 1]; it is the
    empty, error-marked entry when a call fails, and has no error marker
    otherwise. *)
Definition decomposed (n : nat) (loaded : outcome fitz_page) (pd : page_data)
  : Prop :=
  pd_page_num pd = (Z.of_nat n + 1)%Z
  /\ (forall e, page_failure loaded = Some e -> pd = error_page n e)
  /\ (page_failure loaded = None -> pd_error pd = None).


Definition decomposition_event (ev : event) : Prop := is_decomposition ev = true.
Definition no_recognition (ev : event) : Prop := is_recognition ev = false.




(** A response with its processing time blanked. *)
Definition forget_time (resp : OCRResponse) : OCRResponse :=
  {| success := success resp;
     text := text resp;
     chunks := chunks resp;
     pages := pages resp;
     processing_time := 0;
     method := method resp;
     quality_score := quality_score resp;
     word_count := word_count resp;
     character_count := character_count resp;
     has_tables := has_tables resp;
     has_images := has_images resp;
     language := language resp;
     extracted_languages := extracted_languages resp;
     file_hash := file_hash resp;
     error := error resp;
     warnings := warnings resp |}.


(* ================================================================== *)
(** ** Concrete inputs *)

Module Sample.

Definition png : bytes := [Byte.x89; Byte.x50; Byte.x4e; Byte.x47].

Definition picture : image :=
  {| im_width := 640; im_height := 480; im_content := png |}.

(** An engine answer per configuration: automatic segmentation reads two
    words, segmentation with orientation detection reads one word with the
    same mean, the single-column run fails, the others read nothing. *)
Definition rows (config : str) : outcome (list token) :=
  if str_eqb config (lit "--psm 3") then
    Ok [(lit "Hello", 90%Z); ([], (-1)%Z); (lit "world", 80%Z); (lit "x", 30%Z)]
  else if str_eqb config (lit "--psm 1") then Ok [(lit "Hullo", 85%Z)]
  else if str_eqb config (lit "--psm 4") then Raise (Exception (lit "timeout"))
  else Ok [].

Definition first_line : line :=
  {| line_spans := [ {| span_text := lit "Invoice #100" |} ];
     line_bbox := [72; 72; 200; 84] |}.

Definition blank_line : line :=
  {| line_spans := [ {| span_text := lit "  " |} ];
     line_bbox := [72; 90; 80; 102] |}.

Definition rgb_pixmap : Pixmap :=
  {| pix_n := 3; pix_alpha := 0; pix_width := 640; pix_height := 480;
     pix_tobytes := Ok png |}.

Definition text_page (lines : list line) : fitz_page :=
  {| get_text := Ok {| blocks := [ {| block_lines := Some lines |} ] |};
     get_images := Ok [];
     rect_width := 595; rect_height := 842 |}.

(** A page with a line of text, a blank line and one embedded image. *)
Definition mixed_page : fitz_page :=
  {| get_text := Ok {| blocks := [ {| block_lines := Some [first_line; blank_line] |};
                                   {| block_lines := None |} ] |};
     get_images := Ok [ {| img_xref := 7; img_fields := [0; 640; 480; 8]%Z |} ];
     rect_width := 595; rect_height := 842 |}.

(** A page that is one embedded image. *)
Definition scanned_page : fitz_page :=
  {| get_text := Ok {| blocks := [ {| block_lines := None |} ] |};
     get_images := Ok [ {| img_xref := 7; img_fields := [0; 640; 480; 8]%Z |} ];
     rect_width := 595; rect_height := 842 |}.

Definition document_of (pages : list (outcome fitz_page)) : Document :=
  {| doc_pages := pages; doc_pixmap := fun _ => Ok rgb_pixmap |}.

(** An engine that reads nothing from any image. *)
Definition silent (config : str) : outcome (list token) := Ok [].

(** An engine over a given document; [available] is
    [TESSERACT_AVAILABLE], [reads] what the recognition answers. *)
Definition engine_of (available : bool) (reads : str -> outcome (list token))
           (doc : Document) : engine :=
  {| TESSERACT_AVAILABLE := available;
     TESSERACT_CONFIGURED := true;
     get_tesseract_version := Ok (Some (lit "5.3.0"));
     fitz_open := fun _ => Ok doc;
     image_open := fun _ => Ok picture;
     preprocess := fun im => im;
     image_to_data := fun _ config _ => reads config;
     image_to_string := fun _ _ _ => Ok [];
     sha256_hexdigest := fun _ => lit "00";
     set_order := fun l => l |}.

Definition clock (n : nat) : Q := Qnat n.

(** A one-page document with text, a blank line and an image, and two
    engines over it: one that reads the image, one that reads nothing. *)
Definition mixed_document : Document := document_of [Ok mixed_page].
Definition reading_engine : engine := engine_of true rows mixed_document.
Definition silent_engine : engine := engine_of true silent mixed_document.

(** The same document without the recognition capability. *)
Definition bare_engine : engine := engine_of false rows mixed_document.

(** A scanned page, without the recognition capability. *)
Definition scan_engine : engine :=
  engine_of false rows (document_of [Ok scanned_page]).

(** A document of 101 pages of text. *)
Definition long_document : Document :=
  document_of (repeat (Ok (text_page [first_line])) 101).
Definition long_engine : engine := engine_of true rows long_document.

(** The entry the decomposition makes of [mixed_page]. *)
Definition mixed_entry : page_data :=
  {| pd_page_num := 1;
     pd_text_blocks := {| blocks := [ {| block_lines := Some [first_line; blank_line] |};
                                      {| block_lines := None |} ] |};
     pd_images := [ {| img_data := png; img_bbox := [0; 640; 480; 8]%Z;
                       img_index := 0; img_width := 640; img_height := 480 |} ];
     pd_width := 595; pd_height := 842; pd_error := None |}.

Definition embedded : image_data :=
  {| img_data := png; img_bbox := [0; 640; 480; 8]%Z;
     img_index := 0; img_width := 640; img_height := 480 |}.


End Sample.


(* ================================================================== *)
(** ** Further definitions used to state properties *)

(** What the plain-text fallback makes of the image. *)
Definition plain_text_fallback (U : unicode_db) (E : engine)
           (processed_image : image) (lang_config : str) (page_num : Z)
  : str * Q :=
  after_fallback U E processed_image lang_config page_num ([], 0, []).

(** The four refusals of the endpoint. *)
Definition empty_file : exn := HTTPException 400 (lit "Empty file").
Definition file_too_large : exn :=
  HTTPException 413 (lit "File too large (max 50MB)").
Definition unsupported_type : exn :=
  HTTPException 400 (lit "Unsupported file type").
Definition too_many_pages : exn :=
  HTTPException 413 (lit "Too many pages (max 100)").

(** The parser raises no HTTP error of its own. *)
Definition parser_raises_plainly (E : engine) (pdf_data : bytes) : Prop :=
  forall e, fitz_open E pdf_data = Raise e -> exists msg, e = Exception msg.

(** The media type names neither a PDF nor an image. *)
Definition neither_pdf_nor_image (U : unicode_db) (content_type : option str)
  : Prop :=
  exists file_type,
    content_type = Some file_type
    /\ contains (lower U file_type) (lit "pdf") = false
    /\ contains (lower U file_type) (lit "image") = false.

(** The media type sends the upload to the PDF pipeline. *)
Definition names_pdf (U : unicode_db) (content_type : option str) : Prop :=
  exists file_type,
    content_type = Some file_type
    /\ contains (lower U file_type) (lit "pdf") = true.

(** The warnings of a request. *)
Definition warnings_of (E : engine) : list str :=
  if negb (TESSERACT_AVAILABLE E) then
    [lit "Tesseract OCR not available: pytesseract not installed"]
  else if negb (TESSERACT_CONFIGURED E) then
    [lit "Tesseract OCR not available: Tesseract not configured - run install_tesseract_project.py"]
  else
    match get_tesseract_version E with
    | Ok _ => []
    | Raise e => [lit "Tesseract OCR not available: " ++ exn_str e]
    end.

(** The image entry kept for an entry of [page.get_images()], if any:
    the pixmap must be made, have fewer than 4 colour channels and encode
    to PNG. *)
Definition kept_image (doc : Document) (entry : nat * image_entry)
  : list image_data :=
  match doc_pixmap doc (img_xref (snd entry)) with
  | Ok pix =>
      if (pix_n pix - pix_alpha pix <? 4)%Z then
        match pix_tobytes pix with
        | Ok png => [ {| img_data := png;
                         img_bbox := img_fields (snd entry);
                         img_index := fst entry;
                         img_width := pix_width pix;
                         img_height := pix_height pix |} ]
        | Raise _ => []
        end
      else []
  | Raise _ => []
  end.

(** The entry of a page, from what the parser answers for it. *)
Definition page_entry (doc : Document) (entry : nat * outcome fitz_page)
  : page_data :=
  match snd entry with
  | Raise e => error_page (fst entry) e
  | Ok page =>
      match get_text page with
      | Raise e => error_page (fst entry) e
      | Ok td =>
          match get_images page with
          | Raise e => error_page (fst entry) e
          | Ok image_list =>
              {| pd_page_num := Z.of_nat (fst entry) + 1;
                 pd_text_blocks := td;
                 pd_images := flat_map (kept_image doc) (enumerate image_list);
                 pd_width := rect_width page;
                 pd_height := rect_height page;
                 pd_error := None |}
          end
      end
  end.

(** A computation only appends to the trace, and what it appends
    satisfies [P]. *)
Definition emits {A} (P : event -> Prop) (m : M A) : Prop :=
  forall tr, exists evs, snd (m tr) = tr ++ evs /\ Forall P evs.

(** The event leaves the engine alone: it is no call of the image
    library or the recognition engine, and no version probe. *)
Definition engine_untouched (ev : event) : Prop :=
  is_recognition ev = false /\ ev <> EvVersion.

Section FullText.
Variable U : unicode_db.
Variable E : engine.
Variable extract_images : bool.
Variable languages : list str.
Variable preserve_layout : bool.

(** A native line in the page text: the untrimmed line and a newline,
    or a space when the layout is not preserved. *)
Definition line_piece (ln : line) : str :=
  line_text_of ln ++ (if preserve_layout then [10%N] else lit " ").

(** A recognised text in the page text. *)
Definition ocr_piece (r : ocr_result) : str :=
  if preserve_layout then [10%N] ++ ocr_text r ++ [10%N]
  else ocr_text r ++ lit " ".

(** The recognition results of a page that are not blank. *)
Definition recognized (pd : page_data) : list ocr_result :=
  filter (fun r => nonblank U (ocr_text r))
         (map (fun img => recognize U E (img_data img) (pd_page_num pd) languages)
              (pd_images pd)).

Definition page_text_of (pd : page_data) : str :=
  concat (map line_piece
              (filter (fun ln => nonblank U (line_text_of ln)) (page_lines pd)))
  ++ (if extract_images then concat (map ocr_piece (recognized pd)) else []).

(** What a page adds to the full text: nothing when it is error-marked,
    else its header, its text and a newline. *)
Definition page_section (pd : page_data) : str :=
  match pd_error pd with
  | Some _ => []
  | None =>
      [10%N] ++ lit "--- PAGE " ++ str_of_Z (pd_page_num pd) ++ lit " ---"
      ++ [10%N] ++ page_text_of pd ++ [10%N]
  end.

Definition full_text (pds : list page_data) : str :=
  concat (map page_section pds).

(** The languages of the recognition results recorded on a page, added
    to the set [seen]. *)
Definition page_languages (seen : list str) (pd : page_data) : list str :=
  match pd_error pd with
  | Some _ => seen
  | None =>
      if extract_images then
        fold_left (fun s r => match ocr_language r with
                              | [] => s
                              | l => set_add l s
                              end) (recognized pd) seen
      else seen
  end.
End FullText.

(** An event of the assembly phase: a call of the image library or
    the recognition engine, or a clock reading. *)
Definition assembly_event (ev : event) : Prop :=
  is_recognition ev = true \/ ev = EvClock.

(** Every page of the document fails to decompose. *)
Definition all_pages_fail (doc : Document) : Prop :=
  Forall (fun loaded => page_failure loaded <> None) (doc_pages doc).

Definition monotone (now : nat -> Q) : Prop :=
  forall i j, (i <= j)%nat -> now i <= now j.

(** The binary answers [--version] with return code 0. *)
Definition works (H : Startup.host) (path : str) : Prop :=
  Startup.run_version H path = Startup.Completed 0.

(** Probing the binary makes the search go on: it completes with another
    return code, times out, is not found or fails with an [OSError]. *)
Definition passed_over (H : Startup.host) (path : str) : Prop :=
  match Startup.run_version H path with
  | Startup.Completed returncode => returncode <> 0%Z
  | Startup.Aborted (Startup.OtherError _) => False
  | Startup.Aborted _ => True
  end.

Module SampleMore.

(** A Linux host with the whole stack, a binary in /usr/bin and no
    configuration file. *)
Definition linux_host : Startup.host :=
  {| Startup.importable := fun _ => true;
     Startup.config_file := None;
     Startup.run_version :=
       fun path => if str_eqb path (lit "/usr/bin/tesseract")
                   then Startup.Completed 0
                   else Startup.Aborted Startup.FileNotFoundError;
     Startup.version_under :=
       fun cmd => if str_eqb cmd (lit "/usr/bin/tesseract")
                  then Ok (lit "5.3.0")
                  else Raise (Exception (lit "tesseract is not installed"));
     Startup.bundled_binary := lit "/srv/ocr/tesseract/tesseract-ocr/tesseract.exe";
     Startup.tessdata_dir := lit "/srv/ocr/tesseract/tessdata" |}.

(** A document whose two pages cannot be loaded. *)
Definition broken_document : Document :=
  Sample.document_of [Raise (Exception (lit "bad xref"));
                      Raise (Exception (lit "bad xref"))].
Definition broken_engine : engine :=
  Sample.engine_of true Sample.rows broken_document.

(** The same host with a configuration file that names a binary that is
    gone. *)
Definition stale_host : Startup.host :=
  {| Startup.importable := fun _ => true;
     Startup.config_file := Some (Ok [(lit "tesseract_path", lit "/opt/old/tesseract")]);
     Startup.run_version := Startup.run_version linux_host;
     Startup.version_under := Startup.version_under linux_host;
     Startup.bundled_binary := Startup.bundled_binary linux_host;
     Startup.tessdata_dir := Startup.tessdata_dir linux_host |}.

(** An engine whose parser refuses every upload. *)
Definition corrupt_engine : engine :=
  {| TESSERACT_AVAILABLE := true;
     TESSERACT_CONFIGURED := true;
     get_tesseract_version := Raise (Exception (lit "tesseract is not installed"));
     fitz_open := fun _ => Raise (Exception (lit "cannot open broken document"));
     image_open := fun _ => Ok Sample.picture;
     preprocess := fun im => im;
     image_to_data := fun _ config _ => Sample.rows config;
     image_to_string := fun _ _ _ => Ok [];
     sha256_hexdigest := fun _ => lit "00";
     set_order := fun l => l |}.

End SampleMore.

Unset Implicit Arguments.

(* ================================================================== *)
(** ** Properties of the heuristics *)
















(** Twenty times "the " is English and nothing else. *)
Example repeated_the_is_english :
  detect_languages_comprehensive ascii_db (concat (repeat (lit "the ") 20))
  = [lit "en"].
Proof. vm_compute. reflexivity. Qed.

(** A sentence with a capitalised word, a number, a sentence boundary and
    a common word scores 0.3 + 0.4 + 0.2. *)
Example sentence_scores_nine_tenths :
  calculate_quality_score_comprehensive ascii_db
    (lit "Hello World. The end of 42 things") == 0.9.
Proof. vm_compute. reflexivity. Qed.

(* ================================================================== *)
(** ** Loops in the computation monad *)

Lemma for_each_app {A S} (body : S -> A -> M S) (l1 l2 : list A) (s : S) (tr : trace) :
  for_each (l1 ++ l2) body s tr
  = bind (for_each l1 body s) (for_each l2 body) tr.
Proof.
  revert s tr. induction l1 as [|x l1 IH]; intros s tr; simpl.
  - reflexivity.
  - unfold bind. destruct (body s x tr) as [[s'|e] tr'].
    + rewrite IH. reflexivity.
    + reflexivity.
Qed.

(* ================================================================== *)
(** ** The configuration search *)

Lemma Qlt_bool_iff (a b : Q) : Qlt_bool a b = true <-> a < b.
Proof.
  unfold Qlt_bool. rewrite negb_true_iff. split.
  - intros H. apply Qnot_le_lt. intros Hle.
    apply Qle_bool_iff in Hle. congruence.
  - intros H. destruct (Qle_bool b a) eqn:Hb; [|reflexivity].
    apply Qle_bool_iff in Hb. exfalso. exact (Qlt_not_le _ _ H Hb).
Qed.

Lemma Qlt_bool_false (a b : Q) : Qlt_bool a b = false <-> b <= a.
Proof.
  unfold Qlt_bool. rewrite negb_false_iff. apply Qle_bool_iff.
Qed.

Lemma Qnat_pos (n : nat) : (0 < n)%nat -> 0 < Qnat n.
Proof.
  intros H. unfold Qnat, Qlt. simpl. lia.
Qed.

Lemma surviving_above (data : list token) (t : token) :
  In t (surviving data) -> (30 < snd t)%Z.
Proof.
  unfold surviving. rewrite filter_In. intros [_ H]. lia.
Qed.

Lemma surviving_sub (data : list token) (t : token) :
  In t (surviving data) -> In t data.
Proof.
  unfold surviving. rewrite filter_In. tauto.
Qed.

Lemma sum_bounds (lo hi : Z) (toks : list token) :
  (forall t, In t toks -> (lo <= snd t <= hi)%Z) ->
  (lo * Z.of_nat (length toks) <= fold_right Z.add 0 (map snd toks)
   <= hi * Z.of_nat (length toks))%Z.
Proof.
  induction toks as [|t toks IH]; intros H.
  - simpl. lia.
  - assert (Ht := H t (or_introl eq_refl)).
    assert (IH' := IH (fun x Hx => H x (or_intror Hx))).
    cbn [map fold_right length]. rewrite Nat2Z.inj_succ. lia.
Qed.

(** The score of an attempt, from bounds on its tokens. *)
Lemma mean_confidence_bounds (lo hi : Z) (toks : list token) :
  toks <> [] ->
  (forall t, In t toks -> (lo <= snd t <= hi)%Z) ->
  inject_Z lo / 100 <= mean_confidence toks / 100 <= inject_Z hi / 100.
Proof.
  intros Hne H. pose proof (sum_bounds lo hi toks H) as [Hlo Hhi].
  assert (Hlen : (0 < Z.of_nat (length toks))%Z).
  { destruct toks; [congruence | simpl; lia]. }
  unfold mean_confidence, Qnat, Qdiv.
  set (s := fold_right Z.add 0%Z (map snd toks)) in *.
  set (n := Z.of_nat (length toks)) in *.
  assert (Hinv : 0 < / inject_Z n) by (apply Qinv_lt_0_compat; unfold Qlt; simpl; lia).
  assert (Hmid : inject_Z lo <= inject_Z s * / inject_Z n <= inject_Z hi).
  { split.
    - apply Qle_shift_div_l; [unfold Qlt; simpl; lia|].
      rewrite <- inject_Z_mult, <- Zle_Qle. lia.
    - apply Qle_shift_div_r; [unfold Qlt; simpl; lia|].
      rewrite <- inject_Z_mult, <- Zle_Qle. lia. }
  split; apply Qmult_le_compat_r; try tauto; discriminate.
Qed.

Section ConfigSearch.
Variable U : unicode_db.
Variable E : engine.
Variable processed_image : image.
Variable lang_config : str.

Local Abbreviation att := (attempt U E processed_image lang_config).
Local Abbreviation step := (try_config U E processed_image lang_config).
Local Abbreviation win := (winner U E processed_image lang_config).

(** One turn of the loop: the engine is called once, the turn never
    raises, and the attempt replaces the best one exactly when its score
    is strictly greater. *)
Lemma try_config_run (best : best_so_far) (config : str) (tr : trace) :
  step best config tr
  = (Ok (choose U E processed_image lang_config best config),
     tr ++ [EvImageToData config]).
Proof.
  unfold try_config, choose, attempt, try_except, bind, call.
  destruct best as [[bt bq] bc]. cbn [fst snd].
  destruct (image_to_data E processed_image config lang_config) as [data|e];
    [|reflexivity].
  destruct (surviving data) as [|t toks]; [reflexivity|].
  unfold mean_confidence. rewrite length_map.
  cbn [map]. destruct (Qlt_bool bq _); reflexivity.
Qed.

Lemma search_loop_run (cs : list str) (best : best_so_far) (tr : trace) :
  for_each cs step best tr
  = (Ok (fold_left (choose U E processed_image lang_config) cs best),
     tr ++ map EvImageToData cs).
Proof.
  revert best tr. induction cs as [|config cs IH]; intros best tr.
  - simpl. rewrite app_nil_r. reflexivity.
  - cbn [for_each fold_left map]. unfold bind. rewrite try_config_run.
    rewrite IH, <- app_assoc. reflexivity.
Qed.

Lemma attempt_positive (config : str) (t : str) (q : Q) :
  att config = Some (t, q) -> 0 < q.
Proof.
  unfold attempt.
  destruct (image_to_data E processed_image config lang_config) as [data|e];
    [|discriminate].
  destruct (surviving data) as [|t0 toks] eqn:Hs; [discriminate|].
  intros H. injection H as _ <-.
  assert (Hb : forall x, In x (t0 :: toks) -> (31 <= snd x <= Z.max 31 (fold_right Z.max 0 (map snd (t0 :: toks))))%Z).
  { intros x Hx. split.
    - rewrite <- Hs in Hx. apply surviving_above in Hx. lia.
    - clear Hs. induction (t0 :: toks) as [|y l IH]; [destruct Hx|].
      cbn [map fold_right]. destruct Hx as [->|Hx]; [lia|].
      specialize (IH Hx). lia. }
  pose proof (mean_confidence_bounds 31 _ (t0 :: toks)
                ltac:(discriminate) Hb) as [Hlo _].
  eapply Qlt_le_trans; [|exact Hlo]. reflexivity.
Qed.

Lemma winner_nil : win [] ([], 0, []).
Proof.
  left. split; [reflexivity | intros c []].
Qed.

(** The step of the loop keeps the winner property. *)
Lemma winner_snoc (cs : list str) (best : best_so_far) (config : str) :
  win cs best ->
  win (cs ++ [config]) (choose U E processed_image lang_config best config).
Proof.
  unfold winner, choose.
  intros [[-> Hnone] | (i & t & q & c & -> & Hi & Hc & Hmax)].
  - destruct (attempt _ _ _ _ config) as [[t q]|] eqn:Ha.
    + cbn [fst snd]. pose proof (attempt_positive _ _ _ Ha) as Hq.
      apply Qlt_bool_iff in Hq. rewrite Hq.
      right. exists (length cs), t, q, config. repeat split.
      * rewrite nth_error_app2, Nat.sub_diag by lia. reflexivity.
      * exact Ha.
      * destruct (Nat.lt_ge_cases j (length cs)) as [Hj|Hj].
        -- rewrite nth_error_app1 in H by exact Hj.
           apply nth_error_In in H. rewrite (Hnone _ H) in H0. discriminate.
        -- rewrite nth_error_app2 in H by exact Hj.
           destruct (j - length cs)%nat as [|k] eqn:Hk;
             [|destruct k; discriminate].
           injection H as <-. rewrite Ha in H0. injection H0 as _ <-.
           apply Qle_refl.
      * intros Hj. rewrite nth_error_app1 in H by exact Hj.
        apply nth_error_In in H. rewrite (Hnone _ H) in H0. discriminate.
    + left. split; [reflexivity|].
      intros c Hc. apply in_app_or in Hc. destruct Hc as [Hc|[<-|[]]];
        [apply Hnone; exact Hc | exact Ha].
  - assert (Hlt : (i < length cs)%nat) by (apply nth_error_Some; congruence).
    destruct (attempt _ _ _ _ config) as [[t1 q1]|] eqn:Ha; cbn [fst snd].
    + destruct (Qlt_bool q q1) eqn:Hcmp.
      * apply Qlt_bool_iff in Hcmp.
        right. exists (length cs), t1, q1, config. repeat split.
        -- rewrite nth_error_app2, Nat.sub_diag by lia. reflexivity.
        -- exact Ha.
        -- destruct (Nat.lt_ge_cases j (length cs)) as [Hj|Hj].
           ++ rewrite nth_error_app1 in H by exact Hj.
              destruct (Hmax _ _ _ _ H H0) as [Hle _].
              apply Qlt_le_weak. eapply Qle_lt_trans; eassumption.
           ++ rewrite nth_error_app2 in H by exact Hj.
              destruct (j - length cs)%nat as [|k] eqn:Hk;
                [|destruct k; discriminate].
              injection H as <-. rewrite Ha in H0. injection H0 as _ <-.
              apply Qle_refl.
        -- intros Hj. rewrite nth_error_app1 in H by exact Hj.
           destruct (Hmax _ _ _ _ H H0) as [Hle _].
           eapply Qle_lt_trans; eassumption.
      * apply Qlt_bool_false in Hcmp.
        right. exists i, t, q, c. repeat split.
        -- rewrite nth_error_app1 by exact Hlt. exact Hi.
        -- exact Hc.
        -- destruct (Nat.lt_ge_cases j (length cs)) as [Hj|Hj].
           ++ rewrite nth_error_app1 in H by exact Hj.
              exact (proj1 (Hmax _ _ _ _ H H0)).
           ++ rewrite nth_error_app2 in H by exact Hj.
              destruct (j - length cs)%nat as [|k] eqn:Hk;
                [|destruct k; discriminate].
              injection H as <-. rewrite Ha in H0. injection H0 as _ <-.
              exact Hcmp.
        -- intros Hj. assert (Hj' : (j < length cs)%nat) by lia.
           rewrite nth_error_app1 in H by exact Hj'.
           exact (proj2 (Hmax _ _ _ _ H H0) Hj).
    + right. exists i, t, q, c. repeat split.
      * rewrite nth_error_app1 by exact Hlt. exact Hi.
      * exact Hc.
      * destruct (Nat.lt_ge_cases j (length cs)) as [Hj|Hj].
        -- rewrite nth_error_app1 in H by exact Hj.
           exact (proj1 (Hmax _ _ _ _ H H0)).
        -- rewrite nth_error_app2 in H by exact Hj.
           destruct (j - length cs)%nat as [|k] eqn:Hk;
             [|destruct k; discriminate].
           injection H as <-. rewrite Ha in H0. discriminate.
      * intros Hj. assert (Hj' : (j < length cs)%nat) by lia.
        rewrite nth_error_app1 in H by exact Hj'.
        exact (proj2 (Hmax _ _ _ _ H H0) Hj).
Qed.

Lemma winner_fold (cs : list str) :
  win cs (fold_left (choose U E processed_image lang_config) cs ([], 0, [])).
Proof.
  induction cs as [|config cs IH] using rev_ind.
  - apply winner_nil.
  - rewrite fold_left_app. apply winner_snoc. exact IH.
Qed.

(** The loop over any list of configurations: every configuration is
    tried, in order, and the loop ends with the winner. *)
Lemma search_run (cs : list str) (tr : trace) :
  exists best,
    for_each cs step ([], 0, []) tr
    = (Ok best, tr ++ map EvImageToData cs)
    /\ win cs best.
Proof.
  eexists. split; [apply search_loop_run | apply winner_fold].
Qed.
End ConfigSearch.


(** Automatic segmentation and segmentation with orientation detection tie
    at 0.85: the earlier one is kept. *)
Example tie_keeps_earlier_configuration :
  fst (for_each configs
         (try_config ascii_db Sample.reading_engine
                     Sample.picture (lit "eng"))
         ([], 0, []) [])
  = Ok (lit "Hello world", 170 # 200, lit "--psm 3").
Proof. vm_compute. reflexivity. Qed.

(* ================================================================== *)
(** ** Recognition of one image *)

Lemma attempt_in_unit_interval (U : unicode_db) (E : engine) (img : image)
      (lang config t : str) (q : Q) :
  confidences_bounded E ->
  attempt U E img lang config = Some (t, q) -> 0 <= q <= 1.
Proof.
  intros Hb. unfold attempt.
  destruct (image_to_data E img config lang) as [data|e] eqn:Hd; [|discriminate].
  destruct (surviving data) as [|t0 toks] eqn:Hs; [discriminate|].
  intros H. injection H as _ <-.
  assert (Hbd : forall x, In x (t0 :: toks) -> (0 <= snd x <= 100)%Z).
  { intros x Hx. rewrite <- Hs in Hx. split.
    - apply surviving_above in Hx. lia.
    - apply (Hb _ _ _ _ Hd). apply surviving_sub. exact Hx. }
  pose proof (mean_confidence_bounds 0 100 (t0 :: toks) ltac:(discriminate) Hbd)
    as [Hlo Hhi].
  split.
  - eapply Qle_trans; [|exact Hlo]. discriminate.
  - eapply Qle_trans; [exact Hhi|]. discriminate.
Qed.

(** C7. For every image and language set, with an engine whose token
    confidences are at most 100, recognition returns a result whose
    confidence lies in [0,1]: it is the score of the attempt of one of the
    fixed configurations, or 0.5 (plain-text fallback), or 0.1 (degraded
    or error result), or 0 (capability unavailable). *)
Theorem ocr_confidence_in_unit_interval
        (U : unicode_db) (E : engine) (now : nat -> Q)
        (Hbounded : confidences_bounded E)
        (image_bytes : bytes) (page_num : Z) (languages : list str) (tr : trace) :
  exists r tr',
    extract_text_with_tesseract U E now image_bytes page_num languages tr
    = (Ok r, tr')
    /\ 0 <= ocr_confidence r <= 1
    /\ (ocr_confidence r = 0
        \/ ocr_confidence r = 0.1
        \/ ocr_confidence r = 0.5
        \/ exists img config t,
             In config configs
             /\ attempt U E img (lang_config_of languages) config
                = Some (t, ocr_confidence r)).
Proof.
  unfold extract_text_with_tesseract.
  destruct (TESSERACT_AVAILABLE E); cbn [negb].
  2:{ eexists _, _. split; [reflexivity|]. cbn. split; [split; discriminate | auto]. }
  unfold try_except, bind at 1, call at 1.
  destruct (image_open E image_bytes) as [img|e].
  2:{ eexists _, _. split; [reflexivity|]. cbn. split; [split; discriminate | auto]. }
  unfold bind at 1, call at 1. unfold bind at 1, time at 1. unfold bind at 1.
  match goal with
  | |- context [for_each configs ?f ?s ?t] =>
      destruct (search_run U E (preprocess E img) (lang_config_of languages) configs t)
        as (best & Hrun & Hwin); rewrite Hrun
  end.
  destruct best as [[bt bq] bc].
  unfold bind at 1, basic_extraction.
  destruct bt as [|c0 bt].
  - unfold try_except, bind at 1, call at 1.
    destruct (image_to_string E _ _ _) as [s|e].
    + eexists _, _. split; [reflexivity|]. cbn.
      split; [split; discriminate | auto].
    + eexists _, _. split; [reflexivity|]. cbn.
      split; [split; discriminate | auto].
  - eexists _, _. split; [reflexivity|]. cbn.
    destruct Hwin as [[Heq _] | (i & t & q & c & Heq & Hi & Hc & _)];
      [discriminate|].
    injection Heq as <- <- <-.
    split.
    + exact (attempt_in_unit_interval _ _ _ _ _ _ _ Hbounded Hc).
    + right; right; right. exists (preprocess E img), bc, (c0 :: bt).
      split; [exact (nth_error_In _ _ Hi) | exact Hc].
Qed.

(** The monadic recognition returns, for every clock and trace, the
    result [recognize] describes, with some measured time. *)
Lemma recognition_run (U : unicode_db) (E : engine) (now : nat -> Q)
      (image_bytes : bytes) (page_num : Z) (languages : list str) (tr : trace) :
  exists t tr',
    extract_text_with_tesseract U E now image_bytes page_num languages tr
    = (Ok (with_time (recognize U E image_bytes page_num languages) t), tr').
Proof.
  unfold extract_text_with_tesseract, recognize.
  destruct (TESSERACT_AVAILABLE E); cbn [negb].
  2:{ exists 0, tr. reflexivity. }
  unfold try_except, bind at 1, call at 1.
  destruct (image_open E image_bytes) as [img|e].
  2:{ eexists 0, _. reflexivity. }
  unfold bind at 1, call at 1. unfold bind at 1, time at 1. unfold bind at 1.
  rewrite search_loop_run.
  unfold bind at 1, basic_extraction, after_fallback, search_result.
  destruct (fold_left _ configs _) as [[bt bq] bc]. cbn [fst snd].
  destruct bt as [|c0 bt].
  - unfold try_except, bind at 1, call at 1.
    destruct (image_to_string E _ _ _) as [s|e]; eexists _, _; reflexivity.
  - eexists _, _; reflexivity.
Qed.

(* ================================================================== *)
(** ** Chunk assembly *)

Section Assembly.
Variable U : unicode_db.
Variable E : engine.
Variable now : nat -> Q.
Variable extract_images : bool.
Variable languages : list str.
Variable preserve_layout : bool.

Lemma add_line_chunks (page_num : Z) (st : str * list TextChunk) (ln : line) :
  snd (add_line U page_num preserve_layout st ln)
  = snd st ++ (if nonblank U (line_text_of ln)
               then [text_chunk U page_num ln] else []).
Proof.
  unfold add_line, nonblank, text_chunk. destruct st as [page_text chunks].
  destruct (strip U (line_text_of ln)); cbn [snd];
    [rewrite app_nil_r|]; reflexivity.
Qed.

Lemma add_lines_chunks (page_num : Z) (lines : list line)
      (st : str * list TextChunk) :
  snd (fold_left (add_line U page_num preserve_layout) lines st)
  = snd st ++ map (text_chunk U page_num)
                  (filter (fun ln => nonblank U (line_text_of ln)) lines).
Proof.
  revert st. induction lines as [|ln lines IH]; intros st; cbn [fold_left filter].
  - cbn [map]. rewrite app_nil_r. reflexivity.
  - rewrite IH, add_line_chunks.
    destruct (nonblank U (line_text_of ln)); cbn [map].
    + rewrite <- app_assoc. reflexivity.
    + rewrite app_nil_r. reflexivity.
Qed.

Lemma add_blocks_chunks (page_num : Z) (bs : list block)
      (st : str * list TextChunk) :
  snd (fold_left (add_block U page_num preserve_layout) bs st)
  = snd st
    ++ map (text_chunk U page_num)
           (filter (fun ln => nonblank U (line_text_of ln))
                   (flat_map (fun b => match block_lines b with
                                       | Some ls => ls
                                       | None => []
                                       end) bs)).
Proof.
  revert st. induction bs as [|b bs IH]; intros st; cbn [fold_left flat_map].
  - cbn [filter map]. rewrite app_nil_r. reflexivity.
  - rewrite IH. unfold add_block.
    destruct (block_lines b) as [ls|]; cbn [app].
    + rewrite add_lines_chunks, filter_app, map_app, app_assoc. reflexivity.
    + reflexivity.
Qed.

Lemma record_ocr_time (page_num : Z) (st : str * list TextChunk * list str)
      (r : ocr_result) (t : Q) :
  record_ocr U page_num preserve_layout st (with_time r t)
  = record_ocr U page_num preserve_layout st r.
Proof.
  destruct st as [[page_text chunks] langs]. reflexivity.
Qed.

Lemma record_ocr_chunks (page_num : Z) (st : str * list TextChunk * list str)
      (r : ocr_result) :
  snd (fst (record_ocr U page_num preserve_layout st r))
  = snd (fst st) ++ (if nonblank U (ocr_text r)
                     then [ocr_chunk page_num r] else []).
Proof.
  unfold record_ocr, nonblank. destruct st as [[page_text chunks] langs].
  destruct (strip U (ocr_text r)); cbn [fst snd];
    [rewrite app_nil_r|]; reflexivity.
Qed.

(** One turn of the image loop never raises and records what
    [recognize] describes. *)
Lemma add_image_run (page_num : Z) (st : str * list TextChunk * list str)
      (img : image_data) (tr : trace) :
  exists tr',
    add_image U E now page_num languages preserve_layout st img tr
    = (Ok (record_ocr U page_num preserve_layout st
                      (recognize U E (img_data img) page_num languages)),
       tr').
Proof.
  unfold add_image, try_except, bind.
  destruct (recognition_run U E now (img_data img) page_num languages tr)
    as (t & tr' & ->).
  exists tr'. unfold ret. rewrite record_ocr_time. reflexivity.
Qed.

Lemma add_images_run (page_num : Z) (imgs : list image_data)
      (st : str * list TextChunk * list str) (tr : trace) :
  exists st' tr',
    for_each imgs (add_image U E now page_num languages preserve_layout) st tr
    = (Ok st', tr')
    /\ snd (fst st')
       = snd (fst st)
         ++ map (ocr_chunk page_num)
                (filter (fun r => nonblank U (ocr_text r))
                        (map (fun img => recognize U E (img_data img) page_num languages)
                             imgs)).
Proof.
  revert st tr. induction imgs as [|img imgs IH]; intros st tr.
  - exists st, tr. cbn. rewrite app_nil_r. split; reflexivity.
  - cbn [for_each]. unfold bind.
    destruct (add_image_run page_num st img tr) as (tr1 & ->).
    destruct (IH (record_ocr U page_num preserve_layout st
                    (recognize U E (img_data img) page_num languages)) tr1)
      as (st' & tr' & Hrun & Hch).
    exists st', tr'. split; [exact Hrun|].
    rewrite Hch, record_ocr_chunks. cbn [map filter].
    destruct (nonblank U _); cbn [map].
    + rewrite <- app_assoc. reflexivity.
    + rewrite app_nil_r. reflexivity.
Qed.

Local Abbreviation shows_images := (shows_images extract_images).

(** One turn of the page loop never raises and appends the chunks of
    the page. *)
Lemma process_page_run (st : assembly) (pd : page_data) (tr : trace) :
  exists st' tr',
    process_page U E now extract_images languages preserve_layout st pd tr
    = (Ok st', tr')
    /\ all_chunks st'
       = all_chunks st ++ page_chunks U E extract_images languages pd
    /\ seen_images st' = (seen_images st || shows_images pd)%bool.
Proof.
  unfold process_page, page_chunks, shows_images.
  destruct (pd_error pd) as [msg|].
  { exists st, tr. rewrite app_nil_r, orb_false_r. repeat split. }
  pose proof (add_blocks_chunks (pd_page_num pd) (blocks (pd_text_blocks pd))
                ([], all_chunks st)) as Htext.
  destruct (fold_left _ (blocks (pd_text_blocks pd)) _) as [page_text chunks].
  cbn [snd] in Htext. fold (page_lines pd) in Htext.
  destruct extract_images.
  - destruct (pd_images pd) as [|img imgs] eqn:Himgs.
    + unfold bind, ret. eexists _, _. cbn [all_chunks seen_images].
      split; [reflexivity|]. unfold image_chunks. rewrite Himgs. cbn [map filter].
      rewrite app_nil_r, orb_false_r. split; [exact Htext | reflexivity].
    + unfold bind at 1. unfold bind at 1.
      destruct (add_images_run (pd_page_num pd) (img :: imgs)
                  (page_text, chunks, extracted st) tr)
        as ([[pt ch] langs] & tr' & -> & Hch).
      unfold ret. eexists _, _. cbn [all_chunks seen_images].
      split; [reflexivity|]. cbn [fst snd] in Hch.
      unfold image_chunks, text_chunks. rewrite Himgs, Hch, Htext, orb_true_r.
      rewrite <- app_assoc. split; reflexivity.
  - unfold bind, ret.
    destruct (pd_images pd); eexists _, _; cbn [all_chunks seen_images];
      (split; [reflexivity|]); rewrite app_nil_r, orb_false_r;
      (split; [exact Htext | reflexivity]).
Qed.

Lemma process_pages_run (pds : list page_data) (st : assembly) (tr : trace) :
  exists st' tr',
    for_each pds (process_page U E now extract_images languages preserve_layout)
             st tr
    = (Ok st', tr')
    /\ all_chunks st'
       = all_chunks st
         ++ flat_map (page_chunks U E extract_images languages) pds
    /\ seen_images st' = (seen_images st || existsb shows_images pds)%bool.
Proof.
  revert st tr. induction pds as [|pd pds IH]; intros st tr.
  - exists st, tr. cbn. rewrite app_nil_r, orb_false_r. repeat split.
  - cbn [for_each]. unfold bind.
    destruct (process_page_run st pd tr) as (st1 & tr1 & -> & Hch1 & Hs1).
    destruct (IH st1 tr1) as (st' & tr' & Hrun & Hch & Hs).
    exists st', tr'. split; [exact Hrun|]. cbn [flat_map existsb].
    rewrite Hch, Hch1, Hs, Hs1, <- app_assoc, orb_assoc. split; reflexivity.
Qed.
End Assembly.

(* ================================================================== *)
(** ** Page decomposition *)

Section Decomposition.
Variable doc : Document.

Lemma extract_image_run (page_num : nat) (images : list image_data)
      (entry : nat * image_entry) (tr : trace) :
  exists images' evs,
    extract_image doc page_num images entry tr = (Ok images', tr ++ evs)
    /\ Forall decomposition_event evs.
Proof.
  destruct entry as [img_index img].
  unfold extract_image, try_except, bind, call, ret.
  destruct (doc_pixmap doc (img_xref img)) as [pix|e].
  - destruct (pix_n pix - pix_alpha pix <? 4)%Z.
    + destruct (pix_tobytes pix) as [png|e];
        eexists _, _; (split; [rewrite <- ?app_assoc; reflexivity|]);
        repeat constructor.
    + eexists _, _. split; [reflexivity|]. repeat constructor.
  - eexists _, _. split; [reflexivity|]. repeat constructor.
Qed.

Lemma extract_images_run (page_num : nat) (entries : list (nat * image_entry))
      (images : list image_data) (tr : trace) :
  exists images' evs,
    for_each entries (extract_image doc page_num) images tr
    = (Ok images', tr ++ evs)
    /\ Forall decomposition_event evs.
Proof.
  revert images tr. induction entries as [|entry entries IH]; intros images tr.
  - exists images, []. cbn. rewrite app_nil_r. split; constructor.
  - cbn [for_each]. unfold bind.
    destruct (extract_image_run page_num images entry tr)
      as (images1 & evs1 & -> & H1).
    destruct (IH images1 (tr ++ evs1)) as (images' & evs' & -> & H').
    exists images', (evs1 ++ evs'). rewrite app_assoc.
    split; [reflexivity | apply Forall_app; split; assumption].
Qed.

(** One turn of the page loop never raises: it records the load of the
    page and appends exactly one entry. *)
Lemma extract_page_run (pages_data : list page_data) (page_num : nat)
      (loaded : outcome fitz_page) (tr : trace) :
  exists pd evs,
    extract_page doc pages_data (page_num, loaded) tr
    = (Ok (pages_data ++ [pd]), tr ++ EvLoadPage page_num :: evs)
    /\ decomposed page_num loaded pd
    /\ Forall decomposition_event evs.
Proof.
  unfold extract_page, try_except, bind at 1, call at 1, decomposed.
  destruct loaded as [page|e].
  2:{ exists (error_page page_num e), []. cbn.
      repeat split; try constructor; congruence. }
  unfold bind at 1, call at 1. cbn [page_failure].
  destruct (get_text page) as [td|e].
  2:{ exists (error_page page_num e), [EvGetText page_num].
      unfold ret. rewrite <- app_assoc.
      repeat split; try (repeat constructor); congruence. }
  unfold bind at 1, call at 1.
  destruct (get_images page) as [image_list|e].
  2:{ exists (error_page page_num e), [EvGetText page_num; EvGetImages page_num].
      unfold ret. rewrite <- !app_assoc.
      repeat split; try (repeat constructor); congruence. }
  unfold bind at 1.
  match goal with
  | |- context [for_each ?l ?f ?s ?t] =>
      destruct (extract_images_run page_num l s t) as (images & evs & -> & Hev)
  end.
  unfold ret. eexists _, (EvGetText page_num :: EvGetImages page_num :: evs).
  rewrite <- !app_assoc. cbn [app].
  repeat split; try reflexivity; try discriminate.
  constructor; [reflexivity|]. constructor; [reflexivity | exact Hev].
Qed.

(** The page loop: one entry per page, in order; every page is loaded;
    only decomposition calls are made. *)
Lemma extract_pages_run (pgs : list (outcome fitz_page)) (first : nat)
      (pages_data : list page_data) (tr : trace) :
  exists pds evs,
    for_each (enumerate_from first pgs) (extract_page doc) pages_data tr
    = (Ok (pages_data ++ pds), tr ++ evs)
    /\ Forall2 (fun entry pd => decomposed (fst entry) (snd entry) pd)
               (enumerate_from first pgs) pds
    /\ Forall decomposition_event evs
    /\ (forall k, (k < length pgs)%nat -> In (EvLoadPage (first + k)) evs).
Proof.
  revert first pages_data tr.
  induction pgs as [|loaded pgs IH]; intros first pages_data tr.
  - exists [], []. cbn. rewrite !app_nil_r.
    repeat split; try constructor. intros k Hk. inversion Hk.
  - cbn [enumerate_from for_each]. unfold bind.
    destruct (extract_page_run pages_data first loaded tr)
      as (pd & evs1 & -> & Hpd & Hev1).
    destruct (IH (S first) (pages_data ++ [pd]) (tr ++ EvLoadPage first :: evs1))
      as (pds & evs & -> & Hall & Hev & Hload).
    exists (pd :: pds), ((EvLoadPage first :: evs1) ++ evs).
    rewrite <- !app_assoc. cbn [app].
    split; [reflexivity|]. split; [constructor; assumption|].
    split.
    + constructor; [reflexivity|]. apply Forall_app. split; assumption.
    + intros k Hk. destruct k as [|k].
      * left. rewrite Nat.add_0_r. reflexivity.
      * right. apply in_or_app. right.
        replace (first + S k)%nat with (S first + k)%nat by lia.
        apply Hload. cbn [length] in Hk. lia.
Qed.
End Decomposition.

Lemma enumerate_from_length {A} (l : list A) (i : nat) :
  length (enumerate_from i l) = length l.
Proof.
  revert i. induction l as [|x l IH]; intros i; simpl; [|rewrite IH]; reflexivity.
Qed.

Lemma enumerate_from_nth {A} (l : list A) (i k : nat) (x : A) :
  nth_error l k = Some x -> nth_error (enumerate_from i l) k = Some ((i + k)%nat, x).
Proof.
  revert i k. induction l as [|y l IH]; intros i k; destruct k as [|k]; simpl;
    try discriminate.
  - intros H. injection H as ->. rewrite Nat.add_0_r. reflexivity.
  - intros H. rewrite (IH (S i) k H). f_equal. f_equal. lia.
Qed.

Lemma Forall2_nth {A B} (R : A -> B -> Prop) (l1 : list A) (l2 : list B) :
  Forall2 R l1 l2 ->
  forall k a, nth_error l1 k = Some a ->
              exists b, nth_error l2 k = Some b /\ R a b.
Proof.
  induction 1 as [|a0 b0 l1 l2 Hab _ IH]; intros k a Hk.
  - destruct k; discriminate.
  - destruct k as [|k]; simpl in *.
    + injection Hk as <-. exists b0. split; [reflexivity | exact Hab].
    + exact (IH k a Hk).
Qed.

(** Decomposition of a document the parser opens: it returns one entry
    per page; it opens the document, loads every page and closes the
    document, and calls nothing but the parser. *)
Lemma decomposition_run (E : engine) (pdf_data : bytes) (doc : Document)
      (tr : trace) :
  fitz_open E pdf_data = Ok doc ->
  exists pds evs,
    extract_text_from_pdf_comprehensive E pdf_data tr
    = (Ok pds, tr ++ EvFitzOpen :: evs ++ [EvDocClose])
    /\ length pds = length (doc_pages doc)
    /\ (forall k loaded,
           nth_error (doc_pages doc) k = Some loaded ->
           exists pd, nth_error pds k = Some pd /\ decomposed k loaded pd)
    /\ Forall decomposition_event evs
    /\ (forall k, (k < length (doc_pages doc))%nat -> In (EvLoadPage k) evs).
Proof.
  intros Hopen.
  unfold extract_text_from_pdf_comprehensive, try_except, bind at 1, call at 1.
  rewrite Hopen. unfold bind at 1, enumerate.
  destruct (extract_pages_run doc (doc_pages doc) 0 [] (tr ++ [EvFitzOpen]))
    as (pds & evs & -> & Hall & Hev & Hload).
  unfold bind, call, ret. exists pds, evs. cbn [app].
  rewrite <- !app_assoc. cbn [app].
  split; [reflexivity|]. split; [|split; [|split]].
  - apply Forall2_length in Hall. rewrite enumerate_from_length in Hall.
    symmetry. exact Hall.
  - intros k loaded Hk.
    destruct (Forall2_nth _ _ _ Hall k _ (enumerate_from_nth _ 0 _ _ Hk))
      as (pd & Hpd & Hdec).
    exists pd. split; [exact Hpd | exact Hdec].
  - exact Hev.
  - exact Hload.
Qed.

(* ================================================================== *)
(** ** The PDF pipeline *)

Section Pipeline.
Variable U : unicode_db.
Variable E : engine.
Variable now : nat -> Q.
Variable pdf_data : bytes.
Variables extract_tables extract_images preserve_layout : bool.
Variable confidence_threshold : Q.
Variable languages : list str.

Local Abbreviation run_pdf :=
  (process_pdf_comprehensive U E now pdf_data extract_tables extract_images
     confidence_threshold languages preserve_layout).

(** A document within the page limit is assembled page after page. *)
Lemma process_pdf_accepts (tr tr1 : trace) (pds : list page_data) :
  extract_text_from_pdf_comprehensive E pdf_data tr = (Ok pds, tr1) ->
  (length pds <= MAX_PAGES_PER_REQUEST)%nat ->
  exists r tr2,
    run_pdf tr = (Ok r, tr2)
    /\ res_chunks r = flat_map (page_chunks U E extract_images languages) pds
    /\ res_pages r = length pds
    /\ res_has_images r = existsb (shows_images extract_images) pds.
Proof.
  intros Hdec Hlen.
  unfold process_pdf_comprehensive, try_except, bind at 1. rewrite Hdec.
  destruct (Nat.ltb_spec MAX_PAGES_PER_REQUEST (length pds)) as [Hgt|_]; [lia|].
  unfold bind at 1.
  match goal with
  | |- context [for_each pds ?f ?s tr1] =>
      destruct (process_pages_run U E now extract_images languages
                  preserve_layout pds s tr1)
        as (st & tr2 & -> & Hch & Hseen)
  end.
  unfold ret. eexists _, _. split; [reflexivity|].
  cbn [res_chunks res_pages res_has_images].
  rewrite Hch, Hseen. repeat split.
Qed.

(** A document over the page limit is refused once decomposition has
    returned. *)
Lemma process_pdf_rejects (tr tr1 : trace) (pds : list page_data) :
  extract_text_from_pdf_comprehensive E pdf_data tr = (Ok pds, tr1) ->
  (MAX_PAGES_PER_REQUEST < length pds)%nat ->
  run_pdf tr
  = (Raise (HTTPException 413 (lit "Too many pages (max 100)")), tr1).
Proof.
  intros Hdec Hlen.
  unfold process_pdf_comprehensive, try_except, bind at 1. rewrite Hdec.
  destruct (Nat.ltb_spec MAX_PAGES_PER_REQUEST (length pds)) as [_|Hle]; [|lia].
  reflexivity.
Qed.
End Pipeline.

(** C3, as the code has it. For every PDF document within the page limit
    the chunks of the result are, page after page in decomposition order
    and with nothing for an error-marked page: one chunk per native line
    whose text is not blank (type "text", confidence 0.95, the trimmed
    text, in block and line order), followed, when image extraction is
    requested, by one chunk per embedded image whose recognised text is not
    blank (in image order, with the text, confidence and chunk type of the
    recognition result). *)
Theorem chunks_are_lines_then_images
        (U : unicode_db) (E : engine) (now : nat -> Q) (pdf_data : bytes)
        (extract_tables extract_images preserve_layout : bool)
        (confidence_threshold : Q) (languages : list str)
        (tr tr1 : trace) (pds : list page_data) :
  extract_text_from_pdf_comprehensive E pdf_data tr = (Ok pds, tr1) ->
  (length pds <= MAX_PAGES_PER_REQUEST)%nat ->
  exists r tr2,
    process_pdf_comprehensive U E now pdf_data extract_tables extract_images
      confidence_threshold languages preserve_layout tr = (Ok r, tr2)
    /\ res_chunks r = flat_map (page_chunks U E extract_images languages) pds.
Proof.
  intros Hdec Hlen.
  destruct (process_pdf_accepts U E now pdf_data extract_tables extract_images
              preserve_layout confidence_threshold languages tr tr1 pds Hdec Hlen)
    as (r & tr2 & Hrun & Hch & _).
  exists r, tr2. split; assumption.
Qed.

(** A page of two native lines and no image: two chunks of type "text"
    with confidence 0.95, and both lines under one page header. *)
Example two_lines_give_two_text_chunks :
  let E := Sample.engine_of true Sample.rows
             (Sample.document_of
                [Ok (Sample.text_page
                       [Sample.first_line;
                        {| line_spans := [ {| span_text := lit "Total: $50.00" |} ];
                           line_bbox := [72; 90; 200; 102] |}])]) in
  match fst (process_pdf_comprehensive ascii_db E Sample.clock Sample.png
               true true 0.7 [lit "eng"] true []) with
  | Ok r =>
      map (fun c => (chunk_text c, chunk_type c, chunk_confidence c)) (res_chunks r)
      = [(lit "Invoice #100", lit "text", 0.95); (lit "Total: $50.00", lit "text", 0.95)]
      /\ res_text r
         = [10%N] ++ lit "--- PAGE 1 ---" ++ [10%N] ++ lit "Invoice #100" ++ [10%N]
           ++ lit "Total: $50.00" ++ [10%N] ++ [10%N]
      /\ res_pages r = 1%nat
  | Raise _ => False
  end.
Proof. vm_compute. repeat split. Qed.

Lemma mixed_decomposition (E : engine) (tr : trace) :
  fitz_open E Sample.png = Ok Sample.mixed_document ->
  exists tr',
    extract_text_from_pdf_comprehensive E Sample.png tr
    = (Ok [Sample.mixed_entry], tr').
Proof.
  intros Hopen. unfold extract_text_from_pdf_comprehensive, try_except, bind at 1, call at 1.
  rewrite Hopen. eexists. reflexivity.
Qed.

Lemma chunks_are_lines_then_images_witness :
  exists r tr2,
    process_pdf_comprehensive ascii_db Sample.reading_engine Sample.clock
      Sample.png true true 0.7 [lit "eng"] true [] = (Ok r, tr2)
    /\ res_chunks r
       = flat_map (page_chunks ascii_db Sample.reading_engine true [lit "eng"])
                  [Sample.mixed_entry].
Proof.
  destruct (mixed_decomposition Sample.reading_engine [] eq_refl) as (tr1 & Hdec).
  apply (chunks_are_lines_then_images ascii_db Sample.reading_engine Sample.clock
           Sample.png true true true 0.7 [lit "eng"] [] tr1 [Sample.mixed_entry] Hdec).
  cbv. lia.
Defined.

(** C3, as the specification words it, fails: a page with a line of text, a blank
    line and an image in which nothing is read yields one chunk, not one
    per line and image. *)
Lemma blank_line_and_silent_image_leave_no_chunk :
  exists r tr tr2,
    extract_text_from_pdf_comprehensive Sample.silent_engine Sample.png []
    = (Ok [Sample.mixed_entry], tr)
    /\ process_pdf_comprehensive ascii_db Sample.silent_engine Sample.clock
         Sample.png true true 0.7 [lit "eng"] true [] = (Ok r, tr2)
    /\ length (res_chunks r) = 1%nat
    /\ length (chunk_per_line_and_image ascii_db Sample.silent_engine
                 [lit "eng"] Sample.mixed_entry) = 3%nat
    /\ res_chunks r
       <> chunk_per_line_and_image ascii_db Sample.silent_engine
            [lit "eng"] Sample.mixed_entry.
Proof.
  eexists _, _, _.
  split; [vm_compute; reflexivity|].
  split; [vm_compute; reflexivity|].
  split; [reflexivity|]. split; [reflexivity|].
  intros H. apply (f_equal (@length TextChunk)) in H. vm_compute in H. discriminate.
Qed.

(* ================================================================== *)
(** ** The bounding box of a recognition chunk *)

Lemma recognize_cases (U : unicode_db) (E : engine) (image_bytes : bytes)
      (page_num : Z) (languages : list str) :
  (TESSERACT_AVAILABLE E = false
   /\ recognize U E image_bytes page_num languages = unavailable_result page_num)
  \/ (exists e, recognize U E image_bytes page_num languages = error_result page_num e)
  \/ (exists image,
         image_open E image_bytes = Ok image
         /\ ocr_chunk_type (recognize U E image_bytes page_num languages)
            = lit "ocr_text"
         /\ ocr_bbox (recognize U E image_bytes page_num languages)
            = [0; 0; im_width image; im_height image]%Z).
Proof.
  unfold recognize. destruct (TESSERACT_AVAILABLE E); cbn [negb].
  - destruct (image_open E image_bytes) as [image|e].
    + right; right. exists image. repeat split.
    + right; left. exists e. reflexivity.
  - left. split; reflexivity.
Qed.

(** C10, as the code has it. Every turn of the image loop emits at most
    one chunk. A chunk of type "ocr_text" has the bounding box
    [0, 0, width, height] of the image as the image library opened it; a
    placeholder chunk ("ocr_unavailable", "ocr_error") has the fixed box
    [0, 0, 100, 100]. The turn reads nothing but the bytes of the image
    entry: the box recorded for the image during decomposition is never
    used. *)
Theorem ocr_chunk_bbox_is_image_or_placeholder_box
        (U : unicode_db) (E : engine) (now : nat -> Q) (page_num : Z)
        (languages : list str) (preserve_layout : bool)
        (st : str * list TextChunk * list str) (img : image_data) (tr : trace) :
  exists st' tr',
    add_image U E now page_num languages preserve_layout st img tr = (Ok st', tr')
    /\ (snd (fst st') = snd (fst st)
        \/ exists ck,
            snd (fst st') = snd (fst st) ++ [ck]
            /\ ((chunk_type ck = lit "ocr_text"
                 /\ exists image,
                     image_open E (img_data img) = Ok image
                     /\ chunk_bbox ck
                        = [0; 0; inject_Z (im_width image); inject_Z (im_height image)])
                \/ ((chunk_type ck = lit "ocr_unavailable"
                     \/ chunk_type ck = lit "ocr_error")
                    /\ chunk_bbox ck = [0; 0; 100; 100])))
    /\ (forall other,
           img_data other = img_data img ->
           add_image U E now page_num languages preserve_layout st other tr
           = add_image U E now page_num languages preserve_layout st img tr).
Proof.
  destruct (add_image_run U E now languages preserve_layout page_num st img tr)
    as (tr' & Hrun).
  eexists _, tr'. split; [exact Hrun|]. split.
  - rewrite record_ocr_chunks.
    destruct (nonblank U _); [|left; rewrite app_nil_r; reflexivity].
    right. eexists. split; [reflexivity|]. cbn [ocr_chunk chunk_type chunk_bbox].
    destruct (recognize_cases U E (img_data img) page_num languages)
      as [[_ ->] | [[e ->] | (image & Hopen & Hty & Hbox)]].
    + right. split; [left|]; reflexivity.
    + right. split; [right|]; reflexivity.
    + left. split; [exact Hty|]. exists image. split; [exact Hopen|].
      rewrite Hbox. reflexivity.
  - intros other Hsame. unfold add_image. rewrite Hsame. reflexivity.
Qed.

(** C10, as the specification words it, fails: without the recognition capability
    the chunk of a 640 x 480 image has the box [0, 0, 100, 100]. *)
Lemma placeholder_chunk_has_fixed_bbox :
  exists page_text ck tr',
    add_image ascii_db Sample.bare_engine Sample.clock 1 [lit "eng"] true
              ([], [], []) Sample.embedded []
    = (Ok (page_text, [ck], [lit "unknown"]), tr')
    /\ chunk_bbox ck = [0; 0; 100; 100]
    /\ chunk_bbox ck <> bbox_of_image Sample.embedded.
Proof.
  eexists _, _, _. split; [vm_compute; reflexivity|].
  split; [reflexivity|]. cbv. discriminate.
Qed.

(* ================================================================== *)
(** ** Without the recognition capability *)







Lemma sample_rows_bounded : confidences_bounded Sample.reading_engine.
Proof.
  intros img config lang data Hd t Ht. cbn in Hd. unfold Sample.rows in Hd.
  repeat match type of Hd with
         | (if ?b then _ else _) = _ => destruct b
         end;
    try discriminate; injection Hd as <-;
    cbn in Ht; intuition (subst; cbn; lia).
Qed.

Lemma ocr_confidence_in_unit_interval_witness :
  confidences_bounded Sample.reading_engine
  /\ exists r tr',
      extract_text_with_tesseract ascii_db Sample.reading_engine Sample.clock
        Sample.png 1 [lit "eng"] [] = (Ok r, tr')
      /\ 0 <= ocr_confidence r <= 1
      /\ (ocr_confidence r = 0
          \/ ocr_confidence r = 0.1
          \/ ocr_confidence r = 0.5
          \/ exists img config t,
               In config configs
               /\ attempt ascii_db Sample.reading_engine img
                    (lang_config_of [lit "eng"]) config
                  = Some (t, ocr_confidence r)).
Proof.
  split; [exact sample_rows_bounded|].
  exact (ocr_confidence_in_unit_interval ascii_db Sample.reading_engine
           Sample.clock sample_rows_bounded Sample.png 1 [lit "eng"] []).
Defined.

(* ================================================================== *)
(** ** Page count and page limit *)


Lemma no_recognition_of_decomposition (evs : list event) :
  Forall decomposition_event evs -> Forall no_recognition evs.
Proof.
  apply Forall_impl. intros ev. unfold decomposition_event, no_recognition.
  destruct ev; cbn; congruence.
Qed.

(** C8, as the code has it. Every PDF document of more than 100 pages is
    refused with status 413, after every one of its pages has been
    decomposed and before any recognition call: the trace of the refused
    request holds the load of each page and no call of the image library
    or the recognition engine. *)
Theorem page_limit_is_checked_after_decomposition
        (U : unicode_db) (E : engine) (now : nat -> Q) (pdf_data : bytes)
        (doc : Document)
        (extract_tables extract_images preserve_layout : bool)
        (confidence_threshold : Q) (languages : list str) (tr : trace)
        (Hopen : fitz_open E pdf_data = Ok doc)
        (Hlong : (MAX_PAGES_PER_REQUEST < length (doc_pages doc))%nat) :
  exists evs,
    process_pdf_comprehensive U E now pdf_data extract_tables extract_images
      confidence_threshold languages preserve_layout tr
    = (Raise (HTTPException 413 (lit "Too many pages (max 100)")), tr ++ evs)
    /\ (forall k, (k < length (doc_pages doc))%nat -> In (EvLoadPage k) evs)
    /\ Forall no_recognition evs.
Proof.
  destruct (decomposition_run E pdf_data doc tr Hopen)
    as (pds & evs & Hdec & Hlen & _ & Hev & Hload).
  exists (EvFitzOpen :: evs ++ [EvDocClose]). split; [|split].
  - apply (process_pdf_rejects U E now pdf_data extract_tables extract_images
             preserve_layout confidence_threshold languages tr _ pds Hdec).
    rewrite Hlen. exact Hlong.
  - intros k Hk. right. apply in_or_app. left. exact (Hload k Hk).
  - constructor; [reflexivity|]. apply Forall_app. split.
    + apply no_recognition_of_decomposition. exact Hev.
    + constructor; [reflexivity | constructor].
Qed.


Lemma page_limit_is_checked_after_decomposition_witness :
  (MAX_PAGES_PER_REQUEST < length (doc_pages Sample.long_document))%nat
  /\ exists evs,
      process_pdf_comprehensive ascii_db Sample.long_engine Sample.clock
        Sample.png true true 0.7 [lit "eng"] true []
      = (Raise (HTTPException 413 (lit "Too many pages (max 100)")), [] ++ evs)
      /\ (forall k, (k < length (doc_pages Sample.long_document))%nat ->
                    In (EvLoadPage k) evs)
      /\ Forall no_recognition evs.
Proof.
  assert (Hlong : (MAX_PAGES_PER_REQUEST < length (doc_pages Sample.long_document))%nat)
    by (vm_compute; lia).
  split; [exact Hlong|].
  exact (page_limit_is_checked_after_decomposition ascii_db Sample.long_engine
           Sample.clock Sample.png Sample.long_document true true true 0.7
           [lit "eng"] [] eq_refl Hlong).
Defined.

(** C8, as the specification words it, fails: a document of 101 pages is refused
    after 303 calls of the parser on its pages. *)
Lemma refused_document_was_decomposed :
  exists evs,
    process_pdf_comprehensive ascii_db Sample.long_engine Sample.clock
      Sample.png true true 0.7 [lit "eng"] true []
    = (Raise (HTTPException 413 (lit "Too many pages (max 100)")), evs)
    /\ length (filter is_decomposition evs) = 303%nat
    /\ In (EvGetText 0) evs.
Proof.
  eexists. split; [vm_compute; reflexivity|].
  split; [vm_compute; reflexivity|].
  right. right. left. reflexivity.
Qed.

(* ================================================================== *)
(** ** Reproducibility *)

Section Alike.
Context {A B : Type}.






End Alike.





Section TwoClocks.
Variable U : unicode_db.
Variable E : engine.
Variables now1 now2 : nat -> Q.




End TwoClocks.



(* ================================================================== *)
(** ** Further properties of recognition *)

(** Decides goals and hypotheses that compare two string literals. *)
Ltac lit_neq :=
  match goal with
  | H : lit _ = lit _ |- _ => vm_compute in H; discriminate H
  | H : lit _ ++ _ = [] |- _ =>
      apply app_eq_nil in H; destruct H as [H _]; vm_compute in H; discriminate H
  | H : lit _ = [] |- _ => vm_compute in H; discriminate H
  end.

(** X1. Recognition of an image never raises, whatever the image library
    or the engine do: it returns a result for the page it was called
    with, of type "ocr_unavailable" exactly when the capability flag is
    off, "ocr_error" exactly when the flag is on and the image cannot be
    opened, and "ocr_text" exactly when the flag is on and the image
    opens. *)
Theorem recognition_never_raises
        (U : unicode_db) (E : engine) (now : nat -> Q) (image_bytes : bytes)
        (page_num : Z) (languages : list str) (tr : trace) :
  exists r tr',
    extract_text_with_tesseract U E now image_bytes page_num languages tr
    = (Ok r, tr')
    /\ ocr_page r = page_num
    /\ (ocr_chunk_type r = lit "ocr_unavailable"
        <-> TESSERACT_AVAILABLE E = false)
    /\ (ocr_chunk_type r = lit "ocr_error"
        <-> TESSERACT_AVAILABLE E = true
            /\ exists e, image_open E image_bytes = Raise e)
    /\ (ocr_chunk_type r = lit "ocr_text"
        <-> TESSERACT_AVAILABLE E = true
            /\ exists image, image_open E image_bytes = Ok image).
Proof.
  destruct (recognition_run U E now image_bytes page_num languages tr)
    as (t & tr' & ->).
  eexists _, _. split; [reflexivity|].
  unfold recognize. cbn [with_time ocr_page ocr_chunk_type].
  destruct (TESSERACT_AVAILABLE E); cbn [negb];
    [destruct (image_open E image_bytes) as [image|e]|]; cbn;
    repeat match goal with
           | |- _ /\ _ => split
           | |- _ <-> _ => split
           | |- _ -> _ => intro
           | H : _ /\ _ |- _ => destruct H
           | H : exists _, _ |- _ => destruct H
           end;
    try reflexivity; try discriminate; try (eexists; reflexivity).
Qed.

Lemma search_without_attempt (U : unicode_db) (E : engine)
      (processed_image : image) (lang_config : str) (cs : list str)
      (best : best_so_far) :
  (forall c, In c cs -> attempt U E processed_image lang_config c = None) ->
  fold_left (choose U E processed_image lang_config) cs best = best.
Proof.
  revert best. induction cs as [|c cs IH]; intros best Hnone; [reflexivity|].
  cbn [fold_left]. unfold choose at 2. rewrite (Hnone c (or_introl eq_refl)).
  apply IH. intros c' Hc'. apply Hnone. right. exact Hc'.
Qed.

(** X2. When the image opens and no configuration yields a token of
    confidence above 30 (the engine fails or reads nothing under each),
    recognition makes one plain-text call under "--psm 6": its trimmed
    text gets confidence 0.5, and when that call fails too the text is
    "[OCR processing failed for image on page N]" with confidence 0.1. In
    both cases the type is "ocr_text" and the box is the image's. *)
Theorem search_without_attempt_falls_back
        (U : unicode_db) (E : engine) (now : nat -> Q) (image_bytes : bytes)
        (page_num : Z) (languages : list str) (tr : trace) (image : image) :
  TESSERACT_AVAILABLE E = true ->
  image_open E image_bytes = Ok image ->
  (forall c, In c configs ->
             attempt U E (preprocess E image) (lang_config_of languages) c = None) ->
  exists t,
    extract_text_with_tesseract U E now image_bytes page_num languages tr
    = (Ok {| ocr_text :=
               match image_to_string E (preprocess E image) (lit "--psm 6")
                                     (lang_config_of languages) with
               | Ok s => strip U s
               | Raise _ => lit "[OCR processing failed for image on page "
                              ++ str_of_Z page_num ++ lit "]"
               end;
             ocr_confidence :=
               match image_to_string E (preprocess E image) (lit "--psm 6")
                                     (lang_config_of languages) with
               | Ok _ => 0.5
               | Raise _ => 0.1
               end;
             ocr_page := page_num;
             ocr_bbox := [0; 0; im_width image; im_height image]%Z;
             ocr_chunk_type := lit "ocr_text";
             ocr_language := lang_config_of languages;
             ocr_processing_time := t |},
       tr ++ [EvImageOpen; EvPreprocess; EvClock]
          ++ map EvImageToData configs
          ++ [EvImageToString (lit "--psm 6"); EvClock]).
Proof.
  intros Hon Hopen Hnone. unfold extract_text_with_tesseract.
  rewrite Hon. cbn [negb]. unfold try_except, bind at 1, call at 1.
  rewrite Hopen.
  unfold bind at 1, call at 1. unfold bind at 1, time at 1. unfold bind at 1.
  rewrite search_loop_run, (search_without_attempt _ _ _ _ _ _ Hnone).
  unfold bind at 1, basic_extraction, try_except, bind at 1, call at 1.
  destruct (image_to_string E _ _ _) as [s|e];
    unfold bind, ret, time; eexists; rewrite <- !app_assoc; reflexivity.
Qed.

Lemma search_without_attempt_falls_back_witness :
  exists t,
    extract_text_with_tesseract ascii_db Sample.silent_engine Sample.clock
      Sample.png 2 [lit "eng"; lit "hin"] []
    = (Ok {| ocr_text := [];
             ocr_confidence := 0.5;
             ocr_page := 2;
             ocr_bbox := [0; 0; 640; 480]%Z;
             ocr_chunk_type := lit "ocr_text";
             ocr_language := lit "eng+hin";
             ocr_processing_time := t |},
       [EvImageOpen; EvPreprocess; EvClock]
         ++ map EvImageToData configs
         ++ [EvImageToString (lit "--psm 6"); EvClock]).
Proof.
  exact (search_without_attempt_falls_back ascii_db Sample.silent_engine
           Sample.clock Sample.png 2 [lit "eng"; lit "hin"] [] Sample.picture
           eq_refl eq_refl (fun c _ => eq_refl)).
Defined.

Lemma recognize_empty_text (U : unicode_db) (E : engine) (image_bytes : bytes)
      (page_num : Z) (languages : list str) :
  ocr_text (recognize U E image_bytes page_num languages) = [] ->
  ocr_confidence (recognize U E image_bytes page_num languages) = 0.5
  /\ ocr_chunk_type (recognize U E image_bytes page_num languages)
     = lit "ocr_text".
Proof.
  unfold recognize. destruct (TESSERACT_AVAILABLE E); cbn [negb].
  2:{ intros H. vm_compute in H. discriminate H. }
  destruct (image_open E image_bytes) as [image|e].
  2:{ intros H. cbn [error_result ocr_text] in H. lit_neq. }
  cbn [ocr_text ocr_confidence ocr_chunk_type]. unfold after_fallback.
  destruct (search_result U E _ _) as [[bt bq] bc]. cbn [fst snd].
  destruct bt as [|c0 bt]; [|discriminate].
  destruct (image_to_string E _ _ _) as [s|e]; cbn [fst snd].
  - intros _. split; reflexivity.
  - intros H. lit_neq.
Qed.

(** X3. A recognition result whose text is empty always is the
    plain-text fallback: its confidence is 0.5 and its type "ocr_text".
    (A winning attempt whose trimmed text is empty is discarded for the
    fallback, whatever its score.) *)
Theorem empty_recognition_text_has_fallback_confidence
        (U : unicode_db) (E : engine) (now : nat -> Q) (image_bytes : bytes)
        (page_num : Z) (languages : list str) (tr tr' : trace) (r : ocr_result) :
  extract_text_with_tesseract U E now image_bytes page_num languages tr
  = (Ok r, tr') ->
  ocr_text r = [] ->
  ocr_confidence r = 0.5 /\ ocr_chunk_type r = lit "ocr_text".
Proof.
  destruct (recognition_run U E now image_bytes page_num languages tr)
    as (t & tr1 & ->).
  intros H. injection H as <- _. cbn [with_time ocr_text ocr_confidence ocr_chunk_type].
  apply recognize_empty_text.
Qed.

Lemma empty_recognition_text_has_fallback_confidence_witness :
  exists r tr',
    extract_text_with_tesseract ascii_db Sample.silent_engine Sample.clock
      Sample.png 1 [lit "eng"] [] = (Ok r, tr')
    /\ ocr_text r = []
    /\ ocr_confidence r = 0.5 /\ ocr_chunk_type r = lit "ocr_text".
Proof.
  eexists _, _.
  assert (Hrun : extract_text_with_tesseract ascii_db Sample.silent_engine
                   Sample.clock Sample.png 1 [lit "eng"] []
                 = (Ok {| ocr_text := []; ocr_confidence := 0.5; ocr_page := 1;
                          ocr_bbox := [0; 0; 640; 480]%Z;
                          ocr_chunk_type := lit "ocr_text";
                          ocr_language := lit "eng";
                          ocr_processing_time := Sample.clock 1 - Sample.clock 0 |},
                    [EvImageOpen; EvPreprocess; EvClock]
                      ++ map EvImageToData configs
                      ++ [EvImageToString (lit "--psm 6"); EvClock]))
    by reflexivity.
  split; [exact Hrun|]. split; [reflexivity|].
  exact (empty_recognition_text_has_fallback_confidence ascii_db
           Sample.silent_engine Sample.clock Sample.png 1 [lit "eng"] [] _ _
           Hrun eq_refl).
Defined.

(* ================================================================== *)
(** ** Further properties of the pipelines *)

(** X4. An image upload never raises and always yields exactly one chunk,
    on page 1, also when the recognised text is blank (the PDF pipeline
    drops such chunks): the chunk carries the text, confidence, box, type
    and language of the recognition result; the result reports one page,
    [has_images] true, [has_tables] false and the recognised text as its
    full text. *)
Theorem image_upload_gives_one_chunk
        (U : unicode_db) (E : engine) (now : nat -> Q) (image_bytes : bytes)
        (extract_tables extract_images : bool) (confidence_threshold : Q)
        (languages : list str) (tr : trace) :
  exists r tr',
    process_image_comprehensive U E now image_bytes extract_tables
      extract_images confidence_threshold languages tr = (Ok r, tr')
    /\ res_chunks r = [ocr_chunk 1 (recognize U E image_bytes 1 languages)]
    /\ res_text r = ocr_text (recognize U E image_bytes 1 languages)
    /\ res_pages r = 1%nat
    /\ res_has_images r = true
    /\ res_has_tables r = false
    /\ res_character_count r = length (res_text r).
Proof.
  unfold process_image_comprehensive, try_except, bind.
  destruct (recognition_run U E now image_bytes 1 languages tr)
    as (t & tr' & ->).
  unfold ret. eexists _, _. split; [reflexivity|]. repeat split.
Qed.

Lemma decomposition_fails (E : engine) (pdf_data : bytes) (e : exn) (tr : trace) :
  fitz_open E pdf_data = Raise e ->
  extract_text_from_pdf_comprehensive E pdf_data tr = (Raise e, tr ++ [EvFitzOpen]).
Proof.
  intros Hopen.
  unfold extract_text_from_pdf_comprehensive, try_except, bind, call.
  rewrite Hopen. reflexivity.
Qed.

Lemma decomposed_ordinals (E : engine) (pdf_data : bytes) (doc : Document)
      (tr : trace) :
  fitz_open E pdf_data = Ok doc ->
  exists pds tr1,
    extract_text_from_pdf_comprehensive E pdf_data tr = (Ok pds, tr1)
    /\ length pds = length (doc_pages doc)
    /\ forall k pd, nth_error pds k = Some pd ->
                    pd_page_num pd = (Z.of_nat k + 1)%Z.
Proof.
  intros Hopen.
  destruct (decomposition_run E pdf_data doc tr Hopen)
    as (pds & evs & Hdec & Hlen & Hentries & _ & _).
  exists pds. eexists. split; [exact Hdec|]. split; [exact Hlen|].
  intros k pd Hk.
  assert (Hlt : (k < length (doc_pages doc))%nat).
  { rewrite <- Hlen. apply nth_error_Some. congruence. }
  destruct (nth_error (doc_pages doc) k) as [loaded|] eqn:Hl.
  2:{ apply nth_error_None in Hl. lia. }
  destruct (Hentries k loaded Hl) as (pd' & Hpd' & Hnum & _).
  rewrite Hk in Hpd'. injection Hpd' as <-. exact Hnum.
Qed.

Section PipelineCases.
Variable U : unicode_db.
Variable E : engine.
Variable now : nat -> Q.
Variable pdf_data : bytes.
Variables extract_tables extract_images preserve_layout : bool.
Variable confidence_threshold : Q.
Variable languages : list str.

Local Abbreviation run_pdf :=
  (process_pdf_comprehensive U E now pdf_data extract_tables extract_images
     confidence_threshold languages preserve_layout).

(** The three ways the PDF pipeline ends. *)
Lemma process_pdf_cases (tr : trace) :
  (exists e, fitz_open E pdf_data = Raise e
             /\ run_pdf tr = (Raise e, tr ++ [EvFitzOpen]))
  \/ (exists doc tr',
         fitz_open E pdf_data = Ok doc
         /\ (MAX_PAGES_PER_REQUEST < length (doc_pages doc))%nat
         /\ run_pdf tr = (Raise too_many_pages, tr'))
  \/ (exists doc pds r tr',
         fitz_open E pdf_data = Ok doc
         /\ (length (doc_pages doc) <= MAX_PAGES_PER_REQUEST)%nat
         /\ run_pdf tr = (Ok r, tr')
         /\ length pds = length (doc_pages doc)
         /\ (forall k pd, nth_error pds k = Some pd ->
                          pd_page_num pd = (Z.of_nat k + 1)%Z)
         /\ res_chunks r = flat_map (page_chunks U E extract_images languages) pds
         /\ res_pages r = length pds
         /\ res_has_images r = existsb (shows_images extract_images) pds).
Proof.
  destruct (fitz_open E pdf_data) as [doc|e] eqn:Hopen.
  - destruct (decomposed_ordinals E pdf_data doc tr Hopen)
      as (pds & tr1 & Hdec & Hlen & Hnum).
    destruct (Nat.le_gt_cases (length pds) MAX_PAGES_PER_REQUEST) as [Hle|Hgt].
    + right; right.
      destruct (process_pdf_accepts U E now pdf_data extract_tables extract_images
                  preserve_layout confidence_threshold languages tr tr1 pds
                  Hdec Hle) as (r & tr2 & Hrun & Hch & Hpages & Himg).
      exists doc, pds, r, tr2. rewrite <- Hlen. repeat split; assumption.
    + right; left. exists doc, tr1. split; [reflexivity|].
      split; [rewrite <- Hlen; exact Hgt|].
      exact (process_pdf_rejects U E now pdf_data extract_tables extract_images
               preserve_layout confidence_threshold languages tr tr1 pds Hdec Hgt).
  - left. exists e. split; [reflexivity|].
    unfold process_pdf_comprehensive, try_except, bind at 1.
    rewrite (decomposition_fails E pdf_data e tr Hopen). reflexivity.
Qed.
End PipelineCases.

Lemma process_image_returns (U : unicode_db) (E : engine) (now : nat -> Q)
      (image_bytes : bytes) (extract_tables extract_images : bool)
      (confidence_threshold : Q) (languages : list str) (tr : trace) :
  exists r tr',
    process_image_comprehensive U E now image_bytes extract_tables
      extract_images confidence_threshold languages tr = (Ok r, tr')
    /\ res_chunks r = [ocr_chunk 1 (recognize U E image_bytes 1 languages)].
Proof.
  unfold process_image_comprehensive, try_except, bind.
  destruct (recognition_run U E now image_bytes 1 languages tr)
    as (t & tr' & ->).
  unfold ret. eexists _, _. split; reflexivity.
Qed.

(** The availability check never raises: it answers with the verdict and
    a message. *)
Lemma check_installation_run (E : engine) (tr : trace) :
  exists available message tr',
    check_tesseract_installation E tr = (Ok (available, message), tr')
    /\ (if available then [] else [lit "Tesseract OCR not available: " ++ message])
       = warnings_of E.
Proof.
  unfold check_tesseract_installation, warnings_of, try_except, bind, call, ret.
  destruct (TESSERACT_AVAILABLE E); cbn [negb].
  2:{ eexists _, _, _. split; reflexivity. }
  destruct (TESSERACT_CONFIGURED E); cbn [negb].
  2:{ eexists _, _, _. split; reflexivity. }
  destruct (get_tesseract_version E) as [v|e]; eexists _, _, _; split; reflexivity.
Qed.

(** X5. The endpoint lets no plain exception escape. With a parser that
    raises no HTTP error of its own, a request ends in a response or in
    one of four refusals: 400 "Empty file" exactly for an empty upload;
    413 "File too large (max 50MB)" for more than 50 MiB; 400 "Unsupported
    file type" when the media type names neither "pdf" nor "image"; 413
    "Too many pages (max 100)" for a document of more than 100 pages. *)
Theorem endpoint_refusals
        (U : unicode_db) (E : engine) (now : nat -> Q)
        (file_data : bytes) (content_type : option str)
        (extract_tables extract_images : bool) (confidence_threshold : Q)
        (languages : str) (preserve_layout : bool)
        (Hparser : parser_raises_plainly E file_data) :
  match fst (extract_text U E now file_data content_type extract_tables
               extract_images confidence_threshold languages preserve_layout [])
  with
  | Ok _ => file_data <> [] /\ (Z.of_nat (length file_data) <= MAX_FILE_SIZE)%Z
  | Raise e =>
      (file_data = [] /\ e = empty_file)
      \/ (file_data <> [] /\ (MAX_FILE_SIZE < Z.of_nat (length file_data))%Z
          /\ e = file_too_large)
      \/ (file_data <> [] /\ (Z.of_nat (length file_data) <= MAX_FILE_SIZE)%Z
          /\ ((neither_pdf_nor_image U content_type /\ e = unsupported_type)
              \/ (names_pdf U content_type /\ e = too_many_pages
                  /\ exists doc,
                      fitz_open E file_data = Ok doc
                      /\ (MAX_PAGES_PER_REQUEST < length (doc_pages doc))%nat)))
  end.
Proof.
  unfold extract_text, bind at 1, time at 1.
  destruct file_data as [|b0 rest] eqn:Hfile; [left; split; reflexivity|].
  rewrite <- Hfile in *.
  assert (Hne : file_data <> []) by (rewrite Hfile; discriminate).
  destruct (Z.ltb_spec MAX_FILE_SIZE (Z.of_nat (length file_data))) as [Hbig|Hfit].
  { right; left. repeat split; assumption. }
  unfold bind at 1.
  match goal with
  | |- context [check_tesseract_installation E ?t] =>
      destruct (check_installation_run E t) as (available & message & t1 & -> & _)
  end.
  unfold try_except, bind at 1.
  destruct content_type as [file_type|].
  2:{ cbn. split; assumption. }
  destruct (contains (lower U file_type) (lit "pdf")) eqn:Hpdf.
  - destruct (process_pdf_cases U E now file_data extract_tables extract_images
                preserve_layout confidence_threshold (parse_languages U languages) t1)
      as [(e & Hopen & ->) | [(doc & t2 & Hopen & Hlong & ->)
                              | (doc & pds & r & t2 & _ & _ & -> & _)]].
    + destruct (Hparser e Hopen) as (msg & ->). cbn. split; assumption.
    + cbn. right; right. split; [exact Hne|]. split; [exact Hfit|].
      right. split; [exists file_type; split; [reflexivity | exact Hpdf]|].
      split; [reflexivity|]. exists doc. split; assumption.
    + cbn. split; assumption.
  - destruct (contains (lower U file_type) (lit "image")) eqn:Himage.
    + destruct (process_image_returns U E now file_data extract_tables
                  extract_images confidence_threshold
                  (parse_languages U languages) t1) as (r & t2 & -> & _).
      cbn. split; assumption.
    + cbn. right; right. split; [exact Hne|]. split; [exact Hfit|].
      left. split; [|reflexivity]. exists file_type. repeat split; assumption.
Qed.

Lemma endpoint_refusals_witness :
  parser_raises_plainly Sample.reading_engine Sample.png
  /\ match fst (extract_text ascii_db Sample.reading_engine Sample.clock
                  Sample.png (Some (lit "text/plain")) true true 0.7
                  (lit "eng") true [])
     with
     | Ok _ => False
     | Raise e => e = unsupported_type
     end.
Proof.
  assert (Hparser : parser_raises_plainly Sample.reading_engine Sample.png)
    by (intros e He; discriminate He).
  split; [exact Hparser|].
  pose proof (endpoint_refusals ascii_db Sample.reading_engine Sample.clock
                Sample.png (Some (lit "text/plain")) true true 0.7
                (lit "eng") true Hparser) as H.
  destruct (fst (extract_text ascii_db Sample.reading_engine Sample.clock
                   Sample.png (Some (lit "text/plain")) true true 0.7
                   (lit "eng") true [])) as [resp|e] eqn:Hrun.
  - vm_compute in Hrun. discriminate Hrun.
  - vm_compute in Hrun. injection Hrun as <-. reflexivity.
Defined.

(** X6. When the parser cannot open an upload sent as PDF and raises a
    plain exception, the endpoint does not raise: it returns a response
    with [success] false, the exception's message as [error], no text, no
    chunk, 0 pages, an empty [file_hash], language "unknown", and the
    warnings of the availability check. *)
Theorem unreadable_pdf_gives_failure_response
        (U : unicode_db) (E : engine) (now : nat -> Q)
        (file_data : bytes) (content_type : option str)
        (extract_tables extract_images : bool) (confidence_threshold : Q)
        (languages : str) (preserve_layout : bool) (msg : str) :
  file_data <> [] ->
  (Z.of_nat (length file_data) <= MAX_FILE_SIZE)%Z ->
  names_pdf U content_type ->
  fitz_open E file_data = Raise (Exception msg) ->
  exists resp tr',
    extract_text U E now file_data content_type extract_tables extract_images
      confidence_threshold languages preserve_layout [] = (Ok resp, tr')
    /\ forget_time resp
       = failure_response (Exception msg) 0 (warnings_of E)
    /\ success resp = false
    /\ error resp = Some msg.
Proof.
  intros Hne Hfit (file_type & -> & Hpdf) Hopen.
  unfold extract_text, bind at 1, time at 1.
  destruct file_data as [|b0 rest] eqn:Hfile; [congruence|].
  rewrite <- Hfile in *.
  destruct (Z.ltb_spec MAX_FILE_SIZE (Z.of_nat (length file_data))) as [Hbig|_];
    [lia|].
  unfold bind at 1.
  match goal with
  | |- context [check_tesseract_installation E ?t] =>
      destruct (check_installation_run E t) as (available & message & t1 & -> & Hw)
  end.
  unfold try_except, bind at 1. rewrite Hpdf.
  destruct (process_pdf_cases U E now file_data extract_tables extract_images
              preserve_layout confidence_threshold (parse_languages U languages) t1)
    as [(e & Hopen' & ->) | [(doc & t2 & Hopen' & _) | (doc & pds & r & t2 & Hopen' & _)]];
    try congruence.
  rewrite Hopen in Hopen'. injection Hopen' as <-.
  unfold bind, time, ret. eexists _, _. split; [reflexivity|].
  unfold forget_time, failure_response. cbn.
  destruct available; cbn [negb] in *; rewrite <- Hw; repeat split.
Qed.

Lemma unreadable_pdf_gives_failure_response_witness :
  exists resp tr',
    extract_text ascii_db SampleMore.corrupt_engine Sample.clock Sample.png
      (Some (lit "application/pdf")) true true 0.7 (lit "eng") true []
    = (Ok resp, tr')
    /\ forget_time resp
       = failure_response (Exception (lit "cannot open broken document")) 0
           (warnings_of SampleMore.corrupt_engine)
    /\ success resp = false
    /\ error resp = Some (lit "cannot open broken document").
Proof.
  apply (unreadable_pdf_gives_failure_response ascii_db SampleMore.corrupt_engine
           Sample.clock Sample.png (Some (lit "application/pdf")) true true 0.7
           (lit "eng") true (lit "cannot open broken document")).
  - discriminate.
  - cbv. discriminate.
  - exists (lit "application/pdf"). split; reflexivity.
  - reflexivity.
Defined.

Lemma elapsed_nonnegative (now : nat -> Q) (k : nat) :
  monotone now -> 0 <= now k - now 0%nat.
Proof.
  intros Hmono. unfold Qminus. rewrite <- Qle_minus_iff.
  apply Hmono. lia.
Qed.

(** X7. With a clock that never runs backwards, every response of the
    endpoint, successful or not, reports a processing time that is not
    negative. *)
Theorem processing_time_is_not_negative
        (U : unicode_db) (E : engine) (now : nat -> Q)
        (file_data : bytes) (content_type : option str)
        (extract_tables extract_images : bool) (confidence_threshold : Q)
        (languages : str) (preserve_layout : bool)
        (resp : OCRResponse) (tr' : trace) :
  monotone now ->
  extract_text U E now file_data content_type extract_tables extract_images
    confidence_threshold languages preserve_layout [] = (Ok resp, tr') ->
  0 <= processing_time resp.
Proof.
  intros Hmono. unfold extract_text, bind at 1, time at 1.
  destruct file_data as [|b0 rest]; [discriminate|].
  destruct (_ <? _)%Z; [discriminate|].
  unfold bind at 1.
  destruct (check_tesseract_installation E _) as [[[available message]|e] t1];
    [|discriminate].
  unfold try_except, bind at 1.
  match goal with
  | |- context [match ?m t1 with _ => _ end] =>
      destruct (m t1) as [[result|e] t2]
  end.
  - unfold bind, time, ret. intros H. injection H as <- _.
    cbn [processing_time]. apply elapsed_nonnegative. exact Hmono.
  - destruct e as [code detail|m0]; [discriminate|].
    unfold bind, time, ret. intros H. injection H as <- _.
    cbn [processing_time failure_response]. apply elapsed_nonnegative. exact Hmono.
Qed.

Lemma sample_clock_monotone : monotone Sample.clock.
Proof.
  intros i j Hij. unfold Sample.clock, Qnat, Qle. cbn. lia.
Qed.

Lemma processing_time_is_not_negative_witness :
  monotone Sample.clock
  /\ exists resp tr',
      extract_text ascii_db Sample.reading_engine Sample.clock Sample.png
        (Some (lit "application/pdf")) true true 0.7 (lit "eng") true []
      = (Ok resp, tr')
      /\ 0 <= processing_time resp.
Proof.
  split; [exact sample_clock_monotone|].
  eexists _, _.
  assert (Hrun : extract_text ascii_db Sample.reading_engine Sample.clock
                   Sample.png (Some (lit "application/pdf")) true true 0.7
                   (lit "eng") true []
                 = (fun p => (fst p, snd p))
                     (extract_text ascii_db Sample.reading_engine Sample.clock
                        Sample.png (Some (lit "application/pdf")) true true 0.7
                        (lit "eng") true []))
    by (destruct (extract_text _ _ _ _ _ _ _ _ _ _ _); reflexivity).
  vm_compute in Hrun.
  split; [exact Hrun|].
  exact (processing_time_is_not_negative ascii_db Sample.reading_engine
           Sample.clock Sample.png (Some (lit "application/pdf")) true true 0.7
           (lit "eng") true _ _ sample_clock_monotone Hrun).
Defined.

Lemma join_nonempty (sep l : str) (ls : list str) :
  l <> [] -> join sep (l :: ls) <> [].
Proof.
  intros Hl. destruct ls as [|l' ls]; cbn [join]; [exact Hl|].
  intros H. apply app_eq_nil in H. destruct H as [H _]. exact (Hl H).
Qed.

(** X8. Whatever the [languages] field of a request holds, the list of
    language codes parsed from it is never empty and holds no empty code
    (it is ["eng"] when the field has no code), and the language string
    handed to the engine, the codes joined by "+", is never empty. *)
Theorem parsed_languages_are_never_empty (U : unicode_db) (languages : str) :
  parse_languages U languages <> []
  /\ Forall (fun code => code <> []) (parse_languages U languages)
  /\ lang_config_of (parse_languages U languages) <> []
  /\ ((forall piece, In piece (split_on 44 [] languages) -> strip U piece = []) ->
      parse_languages U languages = [lit "eng"]).
Proof.
  unfold parse_languages.
  match goal with
  | |- context [filter ?f (map (strip U) ?l)] =>
      remember (filter f (map (strip U) l)) as kept eqn:Hf
  end.
  assert (Hin_kept : forall code, In code kept ->
                       code <> [] /\ exists piece,
                         In piece (split_on 44 [] languages) /\ strip U piece = code).
  { intros code Hin. rewrite Hf in Hin. apply filter_In in Hin.
    destruct Hin as [Hin Hk]. split.
    - destruct code; [discriminate Hk | discriminate].
    - apply in_map_iff in Hin. destruct Hin as (piece & Heq & Hpiece).
      exists piece. split; assumption. }
  clear Hf. destruct kept as [|code codes].
  - split; [discriminate|]. split.
    { constructor; [vm_compute; discriminate | constructor]. }
    split; [vm_compute; discriminate | reflexivity].
  - split; [discriminate|]. split.
    { apply Forall_forall. intros c Hc. exact (proj1 (Hin_kept c Hc)). }
    split.
    + unfold lang_config_of. apply join_nonempty.
      exact (proj1 (Hin_kept code (or_introl eq_refl))).
    + intros Hblank. exfalso.
      destruct (Hin_kept code (or_introl eq_refl)) as (Hne & piece & Hpiece & Heq).
      rewrite (Hblank piece Hpiece) in Heq. exact (Hne (eq_sym Heq)).
Qed.

Lemma parsed_languages_are_never_empty_witness :
  parse_languages ascii_db (lit " , ,") = [lit "eng"]
  /\ parse_languages ascii_db (lit "eng, hin ,") = [lit "eng"; lit "hin"].
Proof.
  split; [|reflexivity].
  apply (parsed_languages_are_never_empty ascii_db (lit " , ,")).
  intros piece Hin. vm_compute in Hin.
  repeat (destruct Hin as [<-|Hin]; [reflexivity|]). destruct Hin.
Defined.

(** X9. The language detector reports "en" exactly when the English
    function words occur more than 15 times in the lower-cased text, "hi"
    exactly when the Hindi ones occur more than 5 times, "es" exactly when
    the Spanish ones occur more than 10 times, and "unknown" exactly when
    none of the three does; no tag is reported twice. *)
Theorem detected_languages_follow_thresholds (U : unicode_db) (text : str) :
  let tags := detect_languages_comprehensive U text in
  (In (lit "en") tags <-> (15 < count_all (lower U text) english_words)%nat)
  /\ (In (lit "hi") tags <-> (5 < count_all (lower U text) hindi_words)%nat)
  /\ (In (lit "es") tags <-> (10 < count_all (lower U text) spanish_words)%nat)
  /\ (In (lit "unknown") tags
      <-> (count_all (lower U text) english_words <= 15)%nat
          /\ (count_all (lower U text) hindi_words <= 5)%nat
          /\ (count_all (lower U text) spanish_words <= 10)%nat)
  /\ NoDup tags.
Proof.
  cbv zeta. unfold detect_languages_comprehensive.
  destruct (Nat.ltb_spec 15 (count_all (lower U text) english_words));
    destruct (Nat.ltb_spec 5 (count_all (lower U text) hindi_words));
    destruct (Nat.ltb_spec 10 (count_all (lower U text) spanish_words));
    cbn [app];
    repeat match goal with
           | |- _ /\ _ => split
           | |- _ <-> _ => split
           | |- _ -> _ => intro
           | H : _ /\ _ |- _ => destruct H
           | H : In _ _ |- _ =>
               cbn [In] in H; repeat destruct H as [H|H];
               try (vm_compute in H; discriminate H); try contradiction
           end;
    try lia; try (cbn [In]; auto; fail);
    try (repeat constructor; cbn [In]; intros Hin;
         repeat destruct Hin as [Hin|Hin];
         try (vm_compute in Hin; discriminate Hin); contradiction).
Qed.

(** X10. The availability check never raises. It answers "available"
    exactly when both startup flags are set and the version probe
    succeeds, and it probes the engine binary exactly when both flags are
    set; otherwise its message names the first thing that is missing. *)
Theorem installation_check_never_raises (E : engine) (tr : trace) :
  exists available message evs,
    check_tesseract_installation E tr = (Ok (available, message), tr ++ evs)
    /\ (available = true
        <-> TESSERACT_AVAILABLE E = true
            /\ TESSERACT_CONFIGURED E = true
            /\ exists v, get_tesseract_version E = Ok v)
    /\ (evs = [EvVersion]
        <-> TESSERACT_AVAILABLE E = true /\ TESSERACT_CONFIGURED E = true)
    /\ (evs = [] \/ evs = [EvVersion])
    /\ (TESSERACT_AVAILABLE E = false ->
        message = lit "pytesseract not installed")
    /\ (TESSERACT_AVAILABLE E = true -> TESSERACT_CONFIGURED E = false ->
        message = lit "Tesseract not configured - run install_tesseract_project.py")
    /\ (forall e, TESSERACT_AVAILABLE E = true -> TESSERACT_CONFIGURED E = true ->
                  get_tesseract_version E = Raise e -> message = exn_str e).
Proof.
  unfold check_tesseract_installation, try_except, bind, call, ret.
  destruct (TESSERACT_AVAILABLE E); cbn [negb];
    [destruct (TESSERACT_CONFIGURED E); cbn [negb];
     [destruct (get_tesseract_version E) as [v|e];
      eexists _, _, [EvVersion]
     | eexists _, _, []; rewrite app_nil_r]
    | eexists _, _, []; rewrite app_nil_r].
  all: (split; [reflexivity|]);
    repeat match goal with
           | |- _ /\ _ => split
           | |- _ <-> _ => split
           | |- _ -> _ => intro
           | |- forall _, _ => intro
           | H : _ /\ _ |- _ => destruct H
           | H : exists _, _ |- _ => destruct H
           end;
    try reflexivity; try discriminate; try congruence;
    try (eexists; reflexivity); auto.
Qed.

(* ================================================================== *)
(** ** Further properties of page decomposition *)

Section DecompositionAsMap.
Variable doc : Document.

Lemma extract_image_kept (page_num : nat) (images : list image_data)
      (entry : nat * image_entry) (tr : trace) :
  exists tr',
    extract_image doc page_num images entry tr
    = (Ok (images ++ kept_image doc entry), tr').
Proof.
  destruct entry as [img_index img].
  unfold extract_image, kept_image, try_except, bind, call, ret. cbn [fst snd].
  destruct (doc_pixmap doc (img_xref img)) as [pix|e].
  - destruct (pix_n pix - pix_alpha pix <? 4)%Z.
    + destruct (pix_tobytes pix) as [png|e]; eexists;
        rewrite ?app_nil_r; reflexivity.
    + eexists. rewrite app_nil_r. reflexivity.
  - eexists. rewrite app_nil_r. reflexivity.
Qed.

Lemma extract_images_kept (page_num : nat) (entries : list (nat * image_entry))
      (images : list image_data) (tr : trace) :
  exists tr',
    for_each entries (extract_image doc page_num) images tr
    = (Ok (images ++ flat_map (kept_image doc) entries), tr').
Proof.
  revert images tr. induction entries as [|entry entries IH]; intros images tr.
  - exists tr. cbn. rewrite app_nil_r. reflexivity.
  - cbn [for_each flat_map]. unfold bind.
    destruct (extract_image_kept page_num images entry tr) as (tr1 & ->).
    destruct (IH (images ++ kept_image doc entry) tr1) as (tr' & ->).
    exists tr'. rewrite <- app_assoc. reflexivity.
Qed.

Lemma extract_page_entry (pages_data : list page_data)
      (entry : nat * outcome fitz_page) (tr : trace) :
  exists tr',
    extract_page doc pages_data entry tr
    = (Ok (pages_data ++ [page_entry doc entry]), tr').
Proof.
  destruct entry as [page_num loaded].
  unfold extract_page, page_entry, try_except, bind at 1, call at 1.
  cbn [fst snd].
  destruct loaded as [page|e]; [|eexists; reflexivity].
  unfold bind at 1, call at 1.
  destruct (get_text page) as [td|e]; [|eexists; reflexivity].
  unfold bind at 1, call at 1.
  destruct (get_images page) as [image_list|e]; [|eexists; reflexivity].
  unfold bind at 1.
  match goal with
  | |- context [for_each ?l ?f ?s ?t] =>
      destruct (extract_images_kept page_num l s t) as (tr1 & ->)
  end.
  eexists. reflexivity.
Qed.

Lemma extract_pages_entries (entries : list (nat * outcome fitz_page))
      (pages_data : list page_data) (tr : trace) :
  exists tr',
    for_each entries (extract_page doc) pages_data tr
    = (Ok (pages_data ++ map (page_entry doc) entries), tr').
Proof.
  revert pages_data tr. induction entries as [|entry entries IH];
    intros pages_data tr.
  - exists tr. cbn. rewrite app_nil_r. reflexivity.
  - cbn [for_each map]. unfold bind.
    destruct (extract_page_entry pages_data entry tr) as (tr1 & ->).
    destruct (IH (pages_data ++ [page_entry doc entry]) tr1) as (tr' & ->).
    exists tr'. rewrite <- app_assoc. reflexivity.
Qed.
End DecompositionAsMap.

Lemma decomposition_entries (E : engine) (pdf_data : bytes) (doc : Document)
      (tr : trace) :
  fitz_open E pdf_data = Ok doc ->
  exists tr',
    extract_text_from_pdf_comprehensive E pdf_data tr
    = (Ok (map (page_entry doc) (enumerate (doc_pages doc))), tr').
Proof.
  intros Hopen.
  unfold extract_text_from_pdf_comprehensive, try_except, bind at 1, call at 1.
  rewrite Hopen. unfold bind at 1.
  destruct (extract_pages_entries doc (enumerate (doc_pages doc)) []
              (tr ++ [EvFitzOpen])) as (tr1 & ->).
  unfold bind, call, ret. eexists. reflexivity.
Qed.

(** X11. Decomposition of a document the parser opens never raises and
    treats every page on its own: the entry of page [n] is made from what
    the parser answers for that page alone. A page whose load, text or
    image list fails gets the empty error-marked entry; any other page
    keeps its text dictionary and size and, in the order of the page's
    image list, exactly the images whose pixmap can be made, has fewer
    than 4 colour channels and encodes to PNG, each with its position in
    the image list as index; the other images are skipped. *)
Theorem decomposition_is_pagewise
        (E : engine) (pdf_data : bytes) (doc : Document) (tr : trace) :
  fitz_open E pdf_data = Ok doc ->
  exists tr',
    extract_text_from_pdf_comprehensive E pdf_data tr
    = (Ok (map (page_entry doc) (enumerate (doc_pages doc))), tr').
Proof.
  apply decomposition_entries.
Qed.

Lemma decomposition_is_pagewise_witness :
  exists tr',
    extract_text_from_pdf_comprehensive Sample.reading_engine Sample.png []
    = (Ok [Sample.mixed_entry], tr').
Proof.
  exact (decomposition_is_pagewise Sample.reading_engine Sample.png
           Sample.mixed_document [] eq_refl).
Defined.

(* ================================================================== *)
(** ** Invariants of the chunks *)

Lemma page_chunks_page (U : unicode_db) (E : engine) (extract_images : bool)
      (languages : list str) (pd : page_data) (c : TextChunk) :
  In c (page_chunks U E extract_images languages pd) ->
  chunk_page c = pd_page_num pd.
Proof.
  unfold page_chunks, text_chunks, image_chunks.
  destruct (pd_error pd); [intros []|].
  intros Hin. apply in_app_or in Hin. destruct Hin as [Hin|Hin].
  - apply in_map_iff in Hin. destruct Hin as (ln & <- & _). reflexivity.
  - destruct extract_images; [|destruct Hin].
    apply in_map_iff in Hin. destruct Hin as (r & <- & _). reflexivity.
Qed.

Lemma sorted_app_bound (l1 l2 : list Z) (p : Z) :
  Forall (fun x => x = p) l1 ->
  Forall (fun x => (p < x)%Z) l2 ->
  StronglySorted Z.le l2 ->
  StronglySorted Z.le (l1 ++ l2).
Proof.
  intros H1 H2 Hs. induction H1 as [|x l1 Hx H1 IH]; [exact Hs|].
  cbn [app]. constructor; [exact IH|].
  apply Forall_app. split.
  - eapply Forall_impl; [|exact H1]. intros y Hy. cbn beta in *. lia.
  - eapply Forall_impl; [|exact H2]. intros y Hy. cbn beta in *. lia.
Qed.

Lemma chunk_pages_sorted (U : unicode_db) (E : engine) (extract_images : bool)
      (languages : list str) (pds : list page_data) (first : Z) :
  (forall k pd, nth_error pds k = Some pd ->
                pd_page_num pd = (first + Z.of_nat k + 1)%Z) ->
  StronglySorted Z.le
    (map chunk_page (flat_map (page_chunks U E extract_images languages) pds))
  /\ Forall (fun c => (first + 1 <= chunk_page c <= first + Z.of_nat (length pds))%Z)
            (flat_map (page_chunks U E extract_images languages) pds).
Proof.
  revert first. induction pds as [|pd pds IH]; intros first Hnum.
  - cbn. split; constructor.
  - assert (Hpd : pd_page_num pd = (first + 1)%Z).
    { rewrite (Hnum 0%nat pd eq_refl). cbn. lia. }
    destruct (IH (first + 1)%Z) as [Hsorted Hrange].
    { intros k pd' Hk. rewrite (Hnum (S k) pd' Hk). lia. }
    assert (Hhere : Forall (fun c => chunk_page c = (first + 1)%Z)
                           (page_chunks U E extract_images languages pd)).
    { apply Forall_forall. intros c Hc. rewrite <- Hpd.
      exact (page_chunks_page _ _ _ _ _ _ Hc). }
    cbn [flat_map length]. split.
    + rewrite map_app. apply sorted_app_bound with (p := (first + 1)%Z).
      * apply Forall_map. exact Hhere.
      * apply Forall_map. eapply Forall_impl; [|exact Hrange].
        intros c Hc. cbn beta in Hc. lia.
      * exact Hsorted.
    + apply Forall_app. split.
      * eapply Forall_impl; [|exact Hhere]. intros c Hc. cbn beta in *. lia.
      * eapply Forall_impl; [|exact Hrange]. intros c Hc. cbn beta in *. lia.
Qed.

Section PdfResults.
Variable U : unicode_db.
Variable E : engine.
Variable now : nat -> Q.
Variable pdf_data : bytes.
Variables extract_tables extract_images preserve_layout : bool.
Variable confidence_threshold : Q.
Variable languages : list str.

(** Every result of the PDF pipeline is assembled from the entries of a
    decomposition whose page ordinals count from 1. *)
Lemma pdf_result_chunks (tr tr' : trace) (r : doc_result) :
  process_pdf_comprehensive U E now pdf_data extract_tables extract_images
    confidence_threshold languages preserve_layout tr = (Ok r, tr') ->
  exists pds,
    res_chunks r = flat_map (page_chunks U E extract_images languages) pds
    /\ res_pages r = length pds
    /\ (length pds <= MAX_PAGES_PER_REQUEST)%nat
    /\ res_has_images r = existsb (shows_images extract_images) pds
    /\ forall k pd, nth_error pds k = Some pd ->
                    pd_page_num pd = (Z.of_nat k + 1)%Z.
Proof.
  intros Hrun.
  destruct (process_pdf_cases U E now pdf_data extract_tables extract_images
              preserve_layout confidence_threshold languages tr)
    as [(e & _ & H) | [(doc & t2 & _ & _ & H)
                      | (doc & pds & r' & t2 & _ & Hle & H & Hlen & Hnum & Hch & Hpages & Himg)]];
    rewrite H in Hrun; try discriminate Hrun.
  injection Hrun as <- _. exists pds.
  repeat split; try assumption. rewrite Hlen. exact Hle.
Qed.
End PdfResults.

(** X12. In every result of the PDF pipeline the chunks are in page
    order: their page numbers never decrease along the chunk list, and
    each lies between 1 and the reported page count. *)
Theorem chunks_are_in_page_order
        (U : unicode_db) (E : engine) (now : nat -> Q) (pdf_data : bytes)
        (extract_tables extract_images preserve_layout : bool)
        (confidence_threshold : Q) (languages : list str)
        (tr tr' : trace) (r : doc_result) :
  process_pdf_comprehensive U E now pdf_data extract_tables extract_images
    confidence_threshold languages preserve_layout tr = (Ok r, tr') ->
  StronglySorted Z.le (map chunk_page (res_chunks r))
  /\ Forall (fun c => (1 <= chunk_page c <= Z.of_nat (res_pages r))%Z)
            (res_chunks r).
Proof.
  intros Hrun.
  destruct (pdf_result_chunks U E now pdf_data extract_tables extract_images
              preserve_layout confidence_threshold languages tr tr' r Hrun)
    as (pds & -> & -> & _ & _ & Hnum).
  destruct (chunk_pages_sorted U E extract_images languages pds 0) as [Hs Hr].
  { intros k pd Hk. rewrite (Hnum k pd Hk). lia. }
  split; [exact Hs|].
  eapply Forall_impl; [|exact Hr]. intros c Hc. cbn beta in *. lia.
Qed.

Lemma sample_pdf_run :
  process_pdf_comprehensive ascii_db Sample.reading_engine Sample.clock
    Sample.png true true 0.7 [lit "eng"] true []
  = (fun p => (fst p, snd p))
      (process_pdf_comprehensive ascii_db Sample.reading_engine Sample.clock
         Sample.png true true 0.7 [lit "eng"] true []).
Proof.
  destruct (process_pdf_comprehensive _ _ _ _ _ _ _ _ _ _); reflexivity.
Qed.

Lemma chunks_are_in_page_order_witness :
  exists r tr',
    process_pdf_comprehensive ascii_db Sample.reading_engine Sample.clock
      Sample.png true true 0.7 [lit "eng"] true [] = (Ok r, tr')
    /\ StronglySorted Z.le (map chunk_page (res_chunks r))
    /\ Forall (fun c => (1 <= chunk_page c <= Z.of_nat (res_pages r))%Z)
              (res_chunks r).
Proof.
  pose proof sample_pdf_run as Hrun. vm_compute in Hrun.
  eexists _, _. split; [exact Hrun|].
  exact (chunks_are_in_page_order ascii_db Sample.reading_engine Sample.clock
           Sample.png true true true 0.7 [lit "eng"] [] _ _ Hrun).
Defined.

Lemma strip_nil (U : unicode_db) : strip U [] = [].
Proof. reflexivity. Qed.

Lemma page_chunks_text (U : unicode_db) (E : engine) (extract_images : bool)
      (languages : list str) (pd : page_data) (c : TextChunk) :
  In c (page_chunks U E extract_images languages pd) ->
  chunk_text c <> [].
Proof.
  unfold page_chunks, text_chunks, image_chunks.
  destruct (pd_error pd); [intros []|].
  intros Hin. apply in_app_or in Hin. destruct Hin as [Hin|Hin].
  - apply in_map_iff in Hin. destruct Hin as (ln & <- & Hln).
    apply filter_In in Hln. destruct Hln as [_ Hnb].
    unfold nonblank in Hnb. cbn [text_chunk chunk_text].
    destruct (strip U (line_text_of ln)); [discriminate Hnb | discriminate].
  - destruct extract_images; [|destruct Hin].
    apply in_map_iff in Hin. destruct Hin as (r & <- & Hr).
    apply filter_In in Hr. destruct Hr as [_ Hnb].
    unfold nonblank in Hnb. cbn [ocr_chunk chunk_text].
    intros Hnil. rewrite Hnil, strip_nil in Hnb. discriminate Hnb.
Qed.

(** X13. No chunk of a result of the PDF pipeline has an empty text: blank
    lines and blank recognition results leave no chunk. *)
Theorem pdf_chunks_have_text
        (U : unicode_db) (E : engine) (now : nat -> Q) (pdf_data : bytes)
        (extract_tables extract_images preserve_layout : bool)
        (confidence_threshold : Q) (languages : list str)
        (tr tr' : trace) (r : doc_result) :
  process_pdf_comprehensive U E now pdf_data extract_tables extract_images
    confidence_threshold languages preserve_layout tr = (Ok r, tr') ->
  Forall (fun c => chunk_text c <> []) (res_chunks r).
Proof.
  intros Hrun.
  destruct (pdf_result_chunks U E now pdf_data extract_tables extract_images
              preserve_layout confidence_threshold languages tr tr' r Hrun)
    as (pds & -> & _).
  apply Forall_forall. intros c Hc. apply in_flat_map in Hc.
  destruct Hc as (pd & _ & Hc). exact (page_chunks_text _ _ _ _ _ _ Hc).
Qed.

Lemma pdf_chunks_have_text_witness :
  exists r tr',
    process_pdf_comprehensive ascii_db Sample.reading_engine Sample.clock
      Sample.png true true 0.7 [lit "eng"] true [] = (Ok r, tr')
    /\ Forall (fun c => chunk_text c <> []) (res_chunks r).
Proof.
  pose proof sample_pdf_run as Hrun. vm_compute in Hrun.
  eexists _, _. split; [exact Hrun|].
  exact (pdf_chunks_have_text ascii_db Sample.reading_engine Sample.clock
           Sample.png true true true 0.7 [lit "eng"] [] _ _ Hrun).
Defined.

Lemma recognize_confidence_bounds (U : unicode_db) (E : engine)
      (image_bytes : bytes) (page_num : Z) (languages : list str) :
  confidences_bounded E ->
  0 <= ocr_confidence (recognize U E image_bytes page_num languages) <= 1.
Proof.
  intros Hb. unfold recognize.
  destruct (TESSERACT_AVAILABLE E); cbn [negb]; [|split; discriminate].
  destruct (image_open E image_bytes) as [image|e]; [|split; discriminate].
  cbn [ocr_confidence]. unfold after_fallback, search_result.
  pose proof (winner_fold U E (preprocess E image) (lang_config_of languages) configs)
    as Hwin.
  destruct (fold_left _ configs _) as [[bt bq] bc]. cbn [fst snd].
  destruct bt as [|c0 bt].
  - destruct (image_to_string E _ _ _); cbn [snd]; split; discriminate.
  - cbn [snd]. destruct Hwin as [[Heq _] | (i & t & q & c & Heq & _ & Hc & _)];
      [discriminate Heq|].
    injection Heq as <- <- <-.
    exact (attempt_in_unit_interval _ _ _ _ _ _ _ Hb Hc).
Qed.

Lemma page_chunks_confidence (U : unicode_db) (E : engine)
      (extract_images : bool) (languages : list str) (pd : page_data)
      (c : TextChunk) :
  confidences_bounded E ->
  In c (page_chunks U E extract_images languages pd) ->
  0 <= chunk_confidence c <= 1.
Proof.
  intros Hb. unfold page_chunks, text_chunks, image_chunks.
  destruct (pd_error pd); [intros []|].
  intros Hin. apply in_app_or in Hin. destruct Hin as [Hin|Hin].
  - apply in_map_iff in Hin. destruct Hin as (ln & <- & _).
    split; discriminate.
  - destruct extract_images; [|destruct Hin].
    apply in_map_iff in Hin. destruct Hin as (r & <- & Hr).
    apply filter_In in Hr. destruct Hr as [Hr _].
    apply in_map_iff in Hr. destruct Hr as (img & <- & _).
    apply recognize_confidence_bounds. exact Hb.
Qed.

(** X14. With an engine whose token confidences are at most 100, every
    chunk of every response of the endpoint, for a PDF or an image upload,
    has a confidence in [0,1]. *)
Theorem response_chunk_confidences_in_unit_interval
        (U : unicode_db) (E : engine) (now : nat -> Q)
        (file_data : bytes) (content_type : option str)
        (extract_tables extract_images : bool) (confidence_threshold : Q)
        (languages : str) (preserve_layout : bool)
        (resp : OCRResponse) (tr' : trace) :
  confidences_bounded E ->
  extract_text U E now file_data content_type extract_tables extract_images
    confidence_threshold languages preserve_layout [] = (Ok resp, tr') ->
  Forall (fun c => 0 <= chunk_confidence c <= 1) (chunks resp).
Proof.
  intros Hb. unfold extract_text, bind at 1, time at 1.
  destruct file_data as [|b0 rest] eqn:Hfile; [discriminate|].
  rewrite <- Hfile. clear Hfile.
  destruct (_ <? _)%Z; [discriminate|].
  unfold bind at 1.
  destruct (check_tesseract_installation E _) as [[[available message]|e] t1];
    [|discriminate].
  unfold try_except, bind at 1.
  match goal with
  | |- context [match ?m t1 with _ => _ end] =>
      destruct (m t1) as [[result|e] t2] eqn:Hinner
  end.
  - unfold bind, time, ret. intros H. injection H as <- _. cbn [chunks].
    destruct content_type as [file_type|]; [|discriminate Hinner].
    destruct (contains (lower U file_type) (lit "pdf")).
    + destruct (pdf_result_chunks U E now file_data extract_tables extract_images
                  preserve_layout confidence_threshold
                  (parse_languages U languages) t1 t2 result Hinner)
        as (pds & -> & _).
      apply Forall_forall. intros c Hc. apply in_flat_map in Hc.
      destruct Hc as (pd & _ & Hc).
      exact (page_chunks_confidence _ _ _ _ _ _ Hb Hc).
    + destruct (contains (lower U file_type) (lit "image"));
        [|discriminate Hinner].
      destruct (process_image_returns U E now file_data extract_tables
                  extract_images confidence_threshold
                  (parse_languages U languages) t1) as (r & t3 & Hrun & Hch).
      rewrite Hrun in Hinner. injection Hinner as <- _.
      rewrite Hch. constructor; [|constructor].
      apply recognize_confidence_bounds. exact Hb.
  - destruct e as [code detail|msg]; [discriminate|].
    unfold bind, time, ret. intros H. injection H as <- _. constructor.
Qed.

Lemma sample_endpoint_run :
  extract_text ascii_db Sample.reading_engine Sample.clock Sample.png
    (Some (lit "application/pdf")) true true 0.7 (lit "eng") true []
  = (fun p => (fst p, snd p))
      (extract_text ascii_db Sample.reading_engine Sample.clock Sample.png
         (Some (lit "application/pdf")) true true 0.7 (lit "eng") true []).
Proof.
  destruct (extract_text _ _ _ _ _ _ _ _ _ _ _); reflexivity.
Qed.

Lemma response_chunk_confidences_in_unit_interval_witness :
  confidences_bounded Sample.reading_engine
  /\ exists resp tr',
      extract_text ascii_db Sample.reading_engine Sample.clock Sample.png
        (Some (lit "application/pdf")) true true 0.7 (lit "eng") true []
      = (Ok resp, tr')
      /\ Forall (fun c => 0 <= chunk_confidence c <= 1) (chunks resp).
Proof.
  split; [exact sample_rows_bounded|].
  pose proof sample_endpoint_run as Hrun. vm_compute in Hrun.
  eexists _, _. split; [exact Hrun|].
  exact (response_chunk_confidences_in_unit_interval ascii_db
           Sample.reading_engine Sample.clock Sample.png
           (Some (lit "application/pdf")) true true 0.7 (lit "eng") true _ _
           sample_rows_bounded Hrun).
Defined.

(* ================================================================== *)
(** ** What a request calls *)

Lemma emits_ret {A} (P : event -> Prop) (a : A) : emits P (ret a).
Proof. intros tr. exists []. rewrite app_nil_r. split; constructor. Qed.

Lemma emits_raise {A} (P : event -> Prop) (e : exn) : emits P (@raise A e).
Proof. intros tr. exists []. rewrite app_nil_r. split; constructor. Qed.

Lemma emits_call {A} (P : event -> Prop) (ev : event) (r : outcome A) :
  P ev -> emits P (call ev r).
Proof.
  intros Hev tr. exists [ev].
  split; [reflexivity | repeat constructor; exact Hev].
Qed.

Lemma emits_time (P : event -> Prop) (now : nat -> Q) :
  P EvClock -> emits P (time now).
Proof.
  intros Hev tr. exists [EvClock].
  split; [reflexivity | repeat constructor; exact Hev].
Qed.

Lemma emits_bind {A B} (P : event -> Prop) (m : M A) (f : A -> M B) :
  emits P m -> (forall a, emits P (f a)) -> emits P (bind m f).
Proof.
  intros Hm Hf tr. unfold bind. destruct (Hm tr) as (evs & Htr & Hevs).
  destruct (m tr) as [[a|e] t1]; cbn [snd] in Htr; subst t1.
  - destruct (Hf a (tr ++ evs)) as (evs' & Htr' & Hevs').
    exists (evs ++ evs'). rewrite Htr', app_assoc.
    split; [reflexivity | apply Forall_app; split; assumption].
  - exists evs. split; [reflexivity | exact Hevs].
Qed.

Lemma emits_try {A} (P : event -> Prop) (m : M A) (h : exn -> M A) :
  emits P m -> (forall e, emits P (h e)) -> emits P (try_except m h).
Proof.
  intros Hm Hh tr. unfold try_except. destruct (Hm tr) as (evs & Htr & Hevs).
  destruct (m tr) as [[a|e] t1]; cbn [snd] in Htr; subst t1.
  - exists evs. split; [reflexivity | exact Hevs].
  - destruct (Hh e (tr ++ evs)) as (evs' & Htr' & Hevs').
    exists (evs ++ evs'). rewrite Htr', app_assoc.
    split; [reflexivity | apply Forall_app; split; assumption].
Qed.

Lemma emits_for_each {A S} (P : event -> Prop) (l : list A)
      (body : S -> A -> M S) (s : S) :
  (forall x a, emits P (body a x)) -> emits P (for_each l body s).
Proof.
  intros Hbody. revert s. induction l as [|x l IH]; intros s.
  - apply emits_ret.
  - cbn [for_each]. apply emits_bind; [apply Hbody | exact IH].
Qed.

(** Breaks a goal [emits P m] down along the structure of [m]; [side]
    settles [P ev] for the calls met. *)
Ltac emits_with side :=
  repeat first
    [ apply emits_ret
    | apply emits_raise
    | apply emits_call; side
    | apply emits_time; side
    | apply emits_try; [ | intros ? ]
    | apply emits_for_each; intros ? ?
    | apply emits_bind; [ | intros ? ]
    | match goal with
      | |- emits _ (match ?x with _ => _ end) => destruct x
      | |- emits _ (if ?x then _ else _) => destruct x
      end ].

Lemma decomposition_emits (P : event -> Prop) (E : engine) (pdf_data : bytes) :
  (forall ev, is_recognition ev = false -> ev <> EvVersion -> ev <> EvClock -> P ev) ->
  emits P (extract_text_from_pdf_comprehensive E pdf_data).
Proof.
  intros HP.
  unfold extract_text_from_pdf_comprehensive, extract_page, extract_image.
  emits_with ltac:(apply HP; [reflexivity | discriminate | discriminate]).
Qed.

Section Quiet.
Variable U : unicode_db.
Variable E : engine.
Variable now : nat -> Q.

(** Without image extraction the PDF pipeline calls the parser only. *)
Lemma process_pdf_without_images_emits (pdf_data : bytes)
      (extract_tables preserve_layout : bool) (confidence_threshold : Q)
      (languages : list str) :
  emits no_recognition
        (process_pdf_comprehensive U E now pdf_data extract_tables false
           confidence_threshold languages preserve_layout).
Proof.
  unfold process_pdf_comprehensive.
  apply emits_try; [|intros e; apply emits_raise].
  apply emits_bind.
  { apply decomposition_emits. intros ev H _ _. exact H. }
  intros pds. destruct (Nat.ltb _ _); [apply emits_raise|].
  apply emits_bind; [|intros st; apply emits_ret].
  apply emits_for_each. intros pd st. unfold process_page.
  destruct (pd_error pd); [apply emits_ret|].
  destruct (fold_left _ _ _) as [page_text chunks].
  apply emits_bind; [apply emits_ret|].
  intros [[[pt ch] langs] seen]. apply emits_ret.
Qed.

(** With the capability flag off, recognition calls nothing. *)
Lemma unavailable_recognition_emits (P : event -> Prop)
      (image_bytes : bytes) (page_num : Z) (languages : list str) :
  TESSERACT_AVAILABLE E = false ->
  emits P (extract_text_with_tesseract U E now image_bytes page_num languages).
Proof.
  intros Hoff. unfold extract_text_with_tesseract. rewrite Hoff.
  apply emits_ret.
Qed.

Lemma unavailable_endpoint_emits (file_data : bytes) (content_type : option str)
      (extract_tables extract_images : bool) (confidence_threshold : Q)
      (languages : str) (preserve_layout : bool) :
  TESSERACT_AVAILABLE E = false ->
  emits engine_untouched
        (extract_text U E now file_data content_type extract_tables
           extract_images confidence_threshold languages preserve_layout).
Proof.
  intros Hoff.
  assert (Hclock : engine_untouched EvClock) by (split; [reflexivity | discriminate]).
  unfold extract_text.
  apply emits_bind; [apply emits_time; exact Hclock|]. intros start_time.
  destruct file_data as [|b0 rest]; [apply emits_raise|].
  destruct (_ <? _)%Z; [apply emits_raise|].
  apply emits_bind.
  { unfold check_tesseract_installation. rewrite Hoff. cbn [negb].
    apply emits_try; [apply emits_ret | intros e; apply emits_ret]. }
  intros [available message].
  apply emits_try.
  2:{ intros e. destruct e; [apply emits_raise|].
      apply emits_bind; [apply emits_time; exact Hclock | intros t; apply emits_ret]. }
  apply emits_bind.
  2:{ intros result.
      apply emits_bind; [apply emits_time; exact Hclock | intros t; apply emits_ret]. }
  destruct content_type as [file_type|]; [|apply emits_raise].
  destruct (contains _ _).
  - unfold process_pdf_comprehensive.
    apply emits_try; [|intros e; apply emits_raise].
    apply emits_bind.
    { apply decomposition_emits. intros ev H1 H2 _. split; assumption. }
    intros pds. destruct (Nat.ltb _ _); [apply emits_raise|].
    apply emits_bind; [|intros st; apply emits_ret].
    apply emits_for_each. intros pd st. unfold process_page.
    destruct (pd_error pd); [apply emits_ret|].
    destruct (fold_left _ _ _) as [page_text chunks].
    apply emits_bind; [|intros [[[pt ch] langs] seen]; apply emits_ret].
    destruct extract_images; [|apply emits_ret].
    destruct (pd_images pd) as [|img imgs]; [apply emits_ret|].
    apply emits_bind; [|intros [[pt ch] langs]; apply emits_ret].
    apply emits_for_each. intros img' st'. unfold add_image.
    apply emits_try; [|intros e; apply emits_ret].
    apply emits_bind; [|intros r; apply emits_ret].
    apply unavailable_recognition_emits. exact Hoff.
  - destruct (contains _ _); [|apply emits_raise].
    unfold process_image_comprehensive.
    apply emits_try; [|intros e; apply emits_raise].
    apply emits_bind; [|intros r; apply emits_ret].
    apply unavailable_recognition_emits. exact Hoff.
Qed.
End Quiet.

Lemma text_only_page_chunks (U : unicode_db) (E : engine)
      (languages : list str) (pd : page_data) (c : TextChunk) :
  In c (page_chunks U E false languages pd) ->
  chunk_type c = lit "text" /\ chunk_confidence c = 0.95
  /\ chunk_language c = None.
Proof.
  unfold page_chunks, text_chunks. destruct (pd_error pd); [intros []|].
  rewrite app_nil_r. intros Hin. apply in_map_iff in Hin.
  destruct Hin as (ln & <- & _). repeat split.
Qed.

Lemma shows_no_images (pds : list page_data) :
  existsb (shows_images false) pds = false.
Proof.
  induction pds as [|pd pds IH]; [reflexivity|]. cbn [existsb]. rewrite IH.
  unfold shows_images. destruct (pd_error pd), (pd_images pd); reflexivity.
Qed.

(** X15. When image extraction is not requested, the PDF pipeline makes
    no call of the image library or the recognition engine, whatever the
    document holds; every chunk of its result is a native line (type
    "text", confidence 0.95, no language) and [has_images] is false even
    for pages with embedded images. *)
Theorem no_recognition_without_image_extraction
        (U : unicode_db) (E : engine) (now : nat -> Q) (pdf_data : bytes)
        (extract_tables preserve_layout : bool) (confidence_threshold : Q)
        (languages : list str) (tr : trace) :
  exists evs,
    snd (process_pdf_comprehensive U E now pdf_data extract_tables false
           confidence_threshold languages preserve_layout tr) = tr ++ evs
    /\ Forall no_recognition evs
    /\ forall r,
        fst (process_pdf_comprehensive U E now pdf_data extract_tables false
               confidence_threshold languages preserve_layout tr) = Ok r ->
        Forall (fun c => chunk_type c = lit "text"
                         /\ chunk_confidence c = 0.95
                         /\ chunk_language c = None) (res_chunks r)
        /\ res_has_images r = false.
Proof.
  destruct (process_pdf_without_images_emits U E now pdf_data extract_tables
              preserve_layout confidence_threshold languages tr)
    as (evs & Htr & Hevs).
  exists evs. split; [exact Htr|]. split; [exact Hevs|].
  intros r Hr.
  destruct (process_pdf_comprehensive U E now pdf_data extract_tables false
              confidence_threshold languages preserve_layout tr)
    as [o t2] eqn:Hrun.
  cbn [fst] in Hr. subst o.
  destruct (pdf_result_chunks U E now pdf_data extract_tables false
              preserve_layout confidence_threshold languages tr t2 r Hrun)
    as (pds & -> & _ & _ & -> & _).
  split; [|apply shows_no_images].
  apply Forall_forall. intros c Hc. apply in_flat_map in Hc.
  destruct Hc as (pd & _ & Hc). exact (text_only_page_chunks _ _ _ _ _ Hc).
Qed.

(** X16. With the capability flag off, a request never touches the image
    library or the engine: from the first clock reading to the response
    or refusal it makes no recognition call and no version probe, for a
    PDF as for an image upload. *)
Theorem unavailable_engine_is_never_called
        (U : unicode_db) (E : engine) (now : nat -> Q)
        (file_data : bytes) (content_type : option str)
        (extract_tables extract_images : bool) (confidence_threshold : Q)
        (languages : str) (preserve_layout : bool) :
  TESSERACT_AVAILABLE E = false ->
  Forall engine_untouched
         (snd (extract_text U E now file_data content_type extract_tables
                 extract_images confidence_threshold languages preserve_layout [])).
Proof.
  intros Hoff.
  destruct (unavailable_endpoint_emits U E now file_data content_type
              extract_tables extract_images confidence_threshold languages
              preserve_layout Hoff []) as (evs & -> & Hevs).
  exact Hevs.
Qed.

Lemma unavailable_engine_is_never_called_witness :
  Forall engine_untouched
         (snd (extract_text ascii_db Sample.scan_engine Sample.clock Sample.png
                 (Some (lit "application/pdf")) true true 0.7 (lit "eng") true [])).
Proof.
  exact (unavailable_engine_is_never_called ascii_db Sample.scan_engine
           Sample.clock Sample.png (Some (lit "application/pdf")) true true 0.7
           (lit "eng") true eq_refl).
Defined.

(* ================================================================== *)
(** ** The full text and the language set *)

Section TextAssembly.
Variable U : unicode_db.
Variable E : engine.
Variable now : nat -> Q.
Variable extract_images : bool.
Variable languages : list str.
Variable preserve_layout : bool.

Lemma add_lines_text (page_num : Z) (lines : list line)
      (st : str * list TextChunk) :
  fst (fold_left (add_line U page_num preserve_layout) lines st)
  = fst st ++ concat (map (line_piece preserve_layout)
                          (filter (fun ln => nonblank U (line_text_of ln)) lines)).
Proof.
  revert st. induction lines as [|ln lines IH]; intros st; cbn [fold_left filter].
  - cbn. rewrite app_nil_r. reflexivity.
  - rewrite IH. unfold add_line. destruct st as [pt ch].
    unfold nonblank at 2.
    destruct (strip U (line_text_of ln)); cbn [fst map concat].
    + reflexivity.
    + unfold line_piece at 2. rewrite <- !app_assoc. reflexivity.
Qed.

Lemma add_blocks_text (page_num : Z) (bs : list block)
      (st : str * list TextChunk) :
  fst (fold_left (add_block U page_num preserve_layout) bs st)
  = fst st
    ++ concat (map (line_piece preserve_layout)
                   (filter (fun ln => nonblank U (line_text_of ln))
                           (flat_map (fun b => match block_lines b with
                                               | Some ls => ls
                                               | None => []
                                               end) bs))).
Proof.
  revert st. induction bs as [|b bs IH]; intros st; cbn [fold_left flat_map].
  - cbn. rewrite app_nil_r. reflexivity.
  - rewrite IH. unfold add_block.
    destruct (block_lines b) as [ls|]; cbn [app].
    + rewrite add_lines_text, filter_app, map_app, concat_app, app_assoc.
      reflexivity.
    + reflexivity.
Qed.

(** The image loop, as a fold over the recognition results. *)
Lemma add_images_state (page_num : Z) (imgs : list image_data)
      (st : str * list TextChunk * list str) (tr : trace) :
  exists tr',
    for_each imgs (add_image U E now page_num languages preserve_layout) st tr
    = (Ok (fold_left (fun s img =>
                        record_ocr U page_num preserve_layout s
                                   (recognize U E (img_data img) page_num languages))
                     imgs st),
       tr').
Proof.
  revert st tr. induction imgs as [|img imgs IH]; intros st tr.
  - exists tr. reflexivity.
  - cbn [for_each fold_left]. unfold bind.
    destruct (add_image_run U E now languages preserve_layout page_num st img tr)
      as (tr1 & ->).
    apply IH.
Qed.

Lemma recorded_text_and_languages (page_num : Z) (imgs : list image_data)
      (st : str * list TextChunk * list str) :
  let rs := filter (fun r => nonblank U (ocr_text r))
                   (map (fun img => recognize U E (img_data img) page_num languages)
                        imgs) in
  let st' := fold_left (fun s img =>
                          record_ocr U page_num preserve_layout s
                                     (recognize U E (img_data img) page_num languages))
                       imgs st in
  fst (fst st') = fst (fst st) ++ concat (map (ocr_piece preserve_layout) rs)
  /\ snd st' = fold_left (fun s r => match ocr_language r with
                                     | [] => s
                                     | l => set_add l s
                                     end) rs (snd st).
Proof.
  cbv zeta. revert st. induction imgs as [|img imgs IH]; intros st.
  - cbn. rewrite app_nil_r. split; reflexivity.
  - cbn [fold_left map filter]. destruct (IH (record_ocr U page_num preserve_layout st
                    (recognize U E (img_data img) page_num languages))) as [Ht Hl].
    rewrite Ht, Hl. clear Ht Hl IH.
    unfold record_ocr, nonblank. destruct st as [[pt ch] langs].
    destruct (strip U (ocr_text (recognize U E (img_data img) page_num languages)));
      cbn [fst snd map concat fold_left].
    + split; reflexivity.
    + unfold ocr_piece at 2. destruct preserve_layout;
        rewrite <- ?app_assoc; split; reflexivity.
Qed.

(** One turn of the page loop, on the full text and the language set. *)
Lemma process_page_text (st : assembly) (pd : page_data) (tr : trace) :
  exists st' tr',
    process_page U E now extract_images languages preserve_layout st pd tr
    = (Ok st', tr')
    /\ all_text st'
       = all_text st
         ++ page_section U E extract_images languages preserve_layout pd
    /\ extracted st'
       = page_languages U E extract_images languages (extracted st) pd.
Proof.
  unfold process_page, page_section, page_languages, page_text_of, recognized.
  destruct (pd_error pd) as [msg|].
  { exists st, tr. rewrite app_nil_r. repeat split. }
  pose proof (add_blocks_text (pd_page_num pd) (blocks (pd_text_blocks pd))
                ([], all_chunks st)) as Htext.
  destruct (fold_left _ (blocks (pd_text_blocks pd)) _) as [page_text chunks].
  cbn [fst app] in Htext. fold (page_lines pd) in Htext.
  destruct extract_images.
  - destruct (pd_images pd) as [|img imgs] eqn:Himgs.
    + unfold bind, ret. eexists _, _. cbn [all_text extracted].
      split; [reflexivity|]. cbn [map filter concat fold_left].
      rewrite Htext, app_nil_r, <- ?app_assoc. split; reflexivity.
    + unfold bind at 1. unfold bind at 1.
      destruct (add_images_state (pd_page_num pd) (img :: imgs)
                  (page_text, chunks, extracted st) tr) as (tr' & ->).
      destruct (recorded_text_and_languages (pd_page_num pd) (img :: imgs)
                  (page_text, chunks, extracted st)) as [Ht Hl].
      destruct (fold_left _ (img :: imgs) _) as [[pt ch] langs].
      cbn [fst snd] in Ht, Hl.
      unfold ret. eexists _, _. cbn [all_text extracted].
      split; [reflexivity|]. rewrite Ht, Hl, Htext, <- ?app_assoc.
      split; reflexivity.
  - unfold bind, ret.
    destruct (pd_images pd); eexists _, _; cbn [all_text extracted];
      (split; [reflexivity|]); rewrite Htext, app_nil_r, <- ?app_assoc;
      split; reflexivity.
Qed.

Lemma process_pages_text (pds : list page_data) (st : assembly) (tr : trace) :
  exists st' tr',
    for_each pds (process_page U E now extract_images languages preserve_layout)
             st tr
    = (Ok st', tr')
    /\ all_text st'
       = all_text st
         ++ full_text U E extract_images languages preserve_layout pds
    /\ extracted st'
       = fold_left (page_languages U E extract_images languages) pds
                   (extracted st).
Proof.
  revert st tr. induction pds as [|pd pds IH]; intros st tr.
  - exists st, tr. cbn. rewrite app_nil_r. repeat split.
  - cbn [for_each]. unfold bind.
    destruct (process_page_text st pd tr) as (st1 & tr1 & -> & Ht1 & Hl1).
    destruct (IH st1 tr1) as (st' & tr' & Hrun & Ht & Hl).
    exists st', tr'. split; [exact Hrun|].
    unfold full_text in *. cbn [map concat fold_left].
    rewrite Ht, Ht1, Hl, Hl1, <- app_assoc. split; reflexivity.
Qed.
End TextAssembly.

(** The text part of a result of the PDF pipeline. *)
Lemma pdf_result_text (U : unicode_db) (E : engine) (now : nat -> Q)
      (pdf_data : bytes) (extract_tables extract_images preserve_layout : bool)
      (confidence_threshold : Q) (languages : list str)
      (tr tr' : trace) (r : doc_result) :
  process_pdf_comprehensive U E now pdf_data extract_tables extract_images
    confidence_threshold languages preserve_layout tr = (Ok r, tr') ->
  exists pds tr1,
    extract_text_from_pdf_comprehensive E pdf_data tr = (Ok pds, tr1)
    /\ res_text r = full_text U E extract_images languages preserve_layout pds
    /\ res_word_count r = count_words (isspace U) false (res_text r)
    /\ res_character_count r = length (res_text r)
    /\ res_quality_score r = calculate_quality_score_comprehensive U (res_text r)
    /\ res_language r = first_language (detect_languages_comprehensive U (res_text r))
    /\ res_extracted_languages r
       = set_order E (fold_left (page_languages U E extract_images languages)
                                pds []).
Proof.
  unfold process_pdf_comprehensive, try_except, bind at 1.
  destruct (extract_text_from_pdf_comprehensive E pdf_data tr)
    as [[pds|e] tr1]; [|discriminate].
  destruct (Nat.ltb _ _); [discriminate|].
  unfold bind at 1.
  match goal with
  | |- context [for_each pds ?f ?s tr1] =>
      destruct (process_pages_text U E now extract_images languages
                  preserve_layout pds s tr1) as (st & tr2 & -> & Ht & Hl)
  end.
  unfold ret. intros H. injection H as <- _.
  exists pds, tr1. cbn [all_text extracted app] in Ht, Hl.
  cbn [res_text res_word_count res_character_count res_quality_score
       res_language res_extracted_languages].
  rewrite Hl, Ht. repeat split.
Qed.

(** X17. The full text of a result of the PDF pipeline is made of one
    section per page entry that is not error-marked, in page order: a
    newline, the header "--- PAGE N ---", a newline, the page text and a
    newline. The page text holds the non-blank native lines, untrimmed,
    each followed by a newline (a space when the layout is not
    preserved), then, when image extraction is requested, the non-blank
    recognised texts. Error-marked pages, though counted in [pages], add
    nothing. Word count, character count, quality score and language are
    those of this text, headers included. *)
Theorem full_text_is_page_sections
        (U : unicode_db) (E : engine) (now : nat -> Q) (pdf_data : bytes)
        (extract_tables extract_images preserve_layout : bool)
        (confidence_threshold : Q) (languages : list str)
        (tr tr' : trace) (r : doc_result) :
  process_pdf_comprehensive U E now pdf_data extract_tables extract_images
    confidence_threshold languages preserve_layout tr = (Ok r, tr') ->
  exists pds tr1,
    extract_text_from_pdf_comprehensive E pdf_data tr = (Ok pds, tr1)
    /\ res_text r = full_text U E extract_images languages preserve_layout pds
    /\ res_word_count r = count_words (isspace U) false (res_text r)
    /\ res_character_count r = length (res_text r)
    /\ res_quality_score r = calculate_quality_score_comprehensive U (res_text r)
    /\ res_language r
       = first_language (detect_languages_comprehensive U (res_text r)).
Proof.
  intros Hrun.
  destruct (pdf_result_text U E now pdf_data extract_tables extract_images
              preserve_layout confidence_threshold languages tr tr' r Hrun)
    as (pds & tr1 & Hdec & Ht & Hw & Hc & Hq & Hl & _).
  exists pds, tr1. repeat split; assumption.
Qed.

Lemma full_text_is_page_sections_witness :
  exists r tr',
    process_pdf_comprehensive ascii_db Sample.reading_engine Sample.clock
      Sample.png true true 0.7 [lit "eng"] true [] = (Ok r, tr')
    /\ res_text r
       = [10%N] ++ lit "--- PAGE 1 ---" ++ [10%N] ++ lit "Invoice #100" ++ [10%N]
         ++ [10%N] ++ lit "Hello world" ++ [10%N] ++ [10%N].
Proof.
  pose proof sample_pdf_run as Hrun. vm_compute in Hrun.
  eexists _, _. split; [exact Hrun|].
  destruct (full_text_is_page_sections ascii_db Sample.reading_engine
              Sample.clock Sample.png true true true 0.7 [lit "eng"] [] _ _ Hrun)
    as (pds & tr1 & Hdec & Ht & _).
  reflexivity.
Defined.

Lemma str_eqb_eq (a b : str) : str_eqb a b = true <-> a = b.
Proof.
  unfold str_eqb. destruct (list_eq_dec N.eq_dec a b); split;
    congruence.
Qed.








(* ================================================================== *)
(** ** Engine configuration at startup *)

Module StartupFacts.
Import Startup.

Lemma find_among_spec (H : host) (paths : list str) (w : world) :
  tesseract_cmd (snd (find_among H paths w)) = tesseract_cmd w
  /\ saved (snd (find_among H paths w)) = saved w
  /\ match fst (find_among H paths w) with
     | Ok (Some path) =>
         exists before after,
           paths = before ++ path :: after
           /\ works H path
           /\ Forall (passed_over H) before
           /\ probed (snd (find_among H paths w)) = probed w ++ before ++ [path]
     | Ok None =>
         Forall (passed_over H) paths
         /\ probed (snd (find_among H paths w)) = probed w ++ paths
     | Raise e =>
         exists before path after,
           paths = before ++ path :: after
           /\ run_version H path = Aborted (OtherError e)
           /\ Forall (passed_over H) before
           /\ probed (snd (find_among H paths w)) = probed w ++ before ++ [path]
     end.
Proof.
  revert w. induction paths as [|path rest IH]; intros w.
  - cbn. rewrite app_nil_r. repeat split. constructor.
  - cbn [find_among].
    set (w' := {| tesseract_cmd := tesseract_cmd w;
                  probed := probed w ++ [path]; saved := saved w |}).
    assert (Hnext : passed_over H path ->
              tesseract_cmd (snd (find_among H rest w')) = tesseract_cmd w
              /\ saved (snd (find_among H rest w')) = saved w
              /\ match fst (find_among H rest w') with
                 | Ok (Some p) =>
                     exists before after,
                       path :: rest = before ++ p :: after
                       /\ works H p
                       /\ Forall (passed_over H) before
                       /\ probed (snd (find_among H rest w'))
                          = probed w ++ before ++ [p]
                 | Ok None =>
                     Forall (passed_over H) (path :: rest)
                     /\ probed (snd (find_among H rest w'))
                        = probed w ++ path :: rest
                 | Raise e =>
                     exists before p after,
                       path :: rest = before ++ p :: after
                       /\ run_version H p = Aborted (OtherError e)
                       /\ Forall (passed_over H) before
                       /\ probed (snd (find_among H rest w'))
                          = probed w ++ before ++ [p]
                 end).
    { intros Hover. destruct (IH w') as (Hcmd & Hsaved & Hrest).
      split; [exact Hcmd|]. split; [exact Hsaved|].
      destruct (fst (find_among H rest w')) as [[p|]|e].
      - destruct Hrest as (before & after & -> & Hw & Hb & Hp).
        exists (path :: before), after. split; [reflexivity|].
        split; [exact Hw|]. split; [constructor; assumption|].
        rewrite Hp. subst w'. cbn [probed]. rewrite <- !app_assoc. reflexivity.
      - destruct Hrest as (Hb & Hp). split; [constructor; assumption|].
        rewrite Hp. subst w'. cbn [probed]. rewrite <- app_assoc. reflexivity.
      - destruct Hrest as (before & p & after & -> & Hr & Hb & Hp).
        exists (path :: before), p, after. split; [reflexivity|].
        split; [exact Hr|]. split; [constructor; assumption|].
        rewrite Hp. subst w'. cbn [probed]. rewrite <- !app_assoc. reflexivity. }
    unfold passed_over at 1 in Hnext.
    destruct (run_version H path) as [returncode|err] eqn:Hrun.
    + destruct (Z.eqb_spec returncode 0) as [->|Hnz].
      * cbn. repeat split. exists [], rest. repeat split; [exact Hrun | constructor].
      * apply Hnext. exact Hnz.
    + destruct err as [| | |e]; try (apply Hnext; exact I).
      cbn. repeat split. exists [], path, rest.
      repeat split; [exact Hrun | constructor].
Qed.

End StartupFacts.

(** X19. The search for the engine binary probes the candidate paths in
    their fixed order and stops at the first one that answers
    [--version] with return code 0, which it returns; candidates that
    return another code, time out, are missing or fail with an [OSError]
    are passed over; when no candidate works it returns nothing, having
    probed all eight; any other exception of a probe ends the search and
    escapes. The search never changes the command pytesseract runs. *)
Theorem binary_search_returns_first_working_path
        (H : Startup.host) (w : Startup.world) :
  Startup.tesseract_cmd (snd (Startup.find_tesseract_binary H w))
  = Startup.tesseract_cmd w
  /\ match fst (Startup.find_tesseract_binary H w) with
     | Ok (Some path) =>
         exists before after,
           Startup.possible_paths H = before ++ path :: after
           /\ works H path
           /\ Forall (passed_over H) before
           /\ Startup.probed (snd (Startup.find_tesseract_binary H w))
              = Startup.probed w ++ before ++ [path]
     | Ok None =>
         Forall (passed_over H) (Startup.possible_paths H)
         /\ Startup.probed (snd (Startup.find_tesseract_binary H w))
            = Startup.probed w ++ Startup.possible_paths H
     | Raise e =>
         exists before path after,
           Startup.possible_paths H = before ++ path :: after
           /\ Startup.run_version H path = Startup.Aborted (Startup.OtherError e)
           /\ Forall (passed_over H) before
           /\ Startup.probed (snd (Startup.find_tesseract_binary H w))
              = Startup.probed w ++ before ++ [path]
     end.
Proof.
  unfold Startup.find_tesseract_binary.
  destruct (StartupFacts.find_among_spec H (Startup.possible_paths H) w)
    as (Hcmd & _ & Hcases).
  split; assumption.
Qed.

Example linux_binary_is_found :
  Startup.find_tesseract_binary SampleMore.linux_host Startup.initial_world
  = (Ok (Some (lit "/usr/bin/tesseract")),
     {| Startup.tesseract_cmd := lit "tesseract";
        Startup.probed :=
          [ lit "tesseract"; Startup.windows_binary;
            lit "C:\Program Files (x86)\Tesseract-OCR\tesseract.exe";
            lit "/srv/ocr/tesseract/tesseract-ocr/tesseract.exe";
            lit "/usr/bin/tesseract" ];
        Startup.saved := [] |}).
Proof. vm_compute. reflexivity. Qed.

Lemma str_eqb_refl (k : str) : str_eqb k k = true.
Proof. apply str_eqb_eq. reflexivity. Qed.

Lemma dict_get_set_same (d : Startup.dict) (k v : str) :
  Startup.dict_get (Startup.dict_set d k v) k = Some v.
Proof.
  induction d as [|[k0 v0] d IH]; cbn.
  - rewrite str_eqb_refl. reflexivity.
  - destruct (str_eqb k0 k) eqn:Hk; cbn; rewrite Hk; [reflexivity | exact IH].
Qed.

Lemma dict_get_set_other (d : Startup.dict) (k k' v : str) :
  k <> k' ->
  Startup.dict_get (Startup.dict_set d k v) k' = Startup.dict_get d k'.
Proof.
  intros Hne. induction d as [|[k0 v0] d IH]; cbn.
  - destruct (str_eqb k k') eqn:Hk; [apply str_eqb_eq in Hk; contradiction|].
    reflexivity.
  - destruct (str_eqb k0 k) eqn:Hk; cbn.
    + apply str_eqb_eq in Hk. subst k0.
      destruct (str_eqb k k') eqn:Hk'; [apply str_eqb_eq in Hk'; contradiction|].
      reflexivity.
    + destruct (str_eqb k0 k'); [reflexivity | exact IH].
Qed.

Lemma saved_configuration (H : Startup.host) (d : Startup.dict) (path : str) :
  let config :=
    Startup.dict_set (Startup.dict_set d (lit "tesseract_path") path)
                     (lit "tessdata_dir") (Startup.tessdata_dir H) in
  Startup.dict_get config (lit "tesseract_path") = Some path
  /\ Startup.dict_get config (lit "tessdata_dir") = Some (Startup.tessdata_dir H).
Proof.
  cbv zeta. split.
  - rewrite dict_get_set_other by (vm_compute; discriminate).
    apply dict_get_set_same.
  - apply dict_get_set_same.
Qed.

(** X20. When pytesseract imports and the configuration file names a
    non-empty path, the configuration uses that path without probing any
    binary: it becomes the command pytesseract runs, and the
    configuration is saved again with it and the data directory. The
    answer is that of the version probe under this path alone: a stale
    path gives [False] and the candidate binaries are never tried. *)
Theorem configured_path_is_used_unprobed
        (H : Startup.host) (w : Startup.world) (path : str) :
  Startup.importable H Startup.pytesseract = true ->
  Startup.dict_get (Startup.load_config H) (lit "tesseract_path") = Some path ->
  path <> [] ->
  exists config,
    Startup.configure_pytesseract H w
    = (Ok (match Startup.version_under H path with
           | Ok _ => true
           | Raise _ => false
           end),
       {| Startup.tesseract_cmd := path;
          Startup.probed := Startup.probed w;
          Startup.saved := Startup.saved w ++ [config] |})
    /\ Startup.dict_get config (lit "tesseract_path") = Some path
    /\ Startup.dict_get config (lit "tessdata_dir") = Some (Startup.tessdata_dir H).
Proof.
  intros Himp Hget Hne. unfold Startup.configure_pytesseract.
  rewrite Himp, Hget. cbn [negb]. destruct path as [|c path]; [congruence|].
  cbn [Startup.falsy].
  eexists. split.
  - destruct (Startup.version_under H (c :: path)); reflexivity.
  - apply saved_configuration.
Qed.

Lemma configured_path_is_used_unprobed_witness :
  exists config,
    Startup.configure_pytesseract SampleMore.stale_host Startup.initial_world
    = (Ok false,
       {| Startup.tesseract_cmd := lit "/opt/old/tesseract";
          Startup.probed := [];
          Startup.saved := [config] |})
    /\ Startup.dict_get config (lit "tesseract_path") = Some (lit "/opt/old/tesseract")
    /\ Startup.dict_get config (lit "tessdata_dir")
       = Some (lit "/srv/ocr/tesseract/tessdata").
Proof.
  exact (configured_path_is_used_unprobed SampleMore.stale_host
           Startup.initial_world (lit "/opt/old/tesseract") eq_refl eq_refl
           ltac:(discriminate)).
Defined.



(** X22. Startup of the service. The capability flag is set exactly when
    fitz, PIL, numpy, cv2 and pytesseract all import. When it is set and
    the configuration module imports, the service flags itself configured
    and makes pytesseract run the fixed Windows path
    "C:\Program Files\Tesseract-OCR\tesseract.exe", whatever the
    configuration found or answered. So the service can be available and
    not configured only when the configuration module does not import,
    in which case nothing was probed, saved or changed. *)
Theorem startup_forces_the_windows_binary
        (H : Startup.host) (w w' : Startup.world) (fl : Startup.flags) :
  Startup.service_startup H w = (Ok fl, w') ->
  (Startup.AVAILABLE fl = true
   <-> forall m, m <> Startup.tesseract_config -> Startup.importable H m = true)
  /\ (Startup.AVAILABLE fl = true ->
      Startup.importable H Startup.tesseract_config = true ->
      Startup.CONFIGURED fl = true
      /\ Startup.tesseract_cmd w' = Startup.windows_binary)
  /\ (Startup.AVAILABLE fl = true -> Startup.CONFIGURED fl = false ->
      Startup.importable H Startup.tesseract_config = false /\ w' = w).
Proof.
  unfold Startup.service_startup.
  assert (Hall : forallb (Startup.importable H)
                         [Startup.fitz; Startup.PIL; Startup.numpy; Startup.cv2;
                          Startup.pytesseract] = true
                 <-> forall m, m <> Startup.tesseract_config ->
                               Startup.importable H m = true).
  { rewrite forallb_forall. split.
    - intros Hin m Hm. apply Hin. destruct m; cbn; try tauto; congruence.
    - intros Hm m Hin. apply Hm. intros ->. cbn in Hin.
      repeat (destruct Hin as [Hin|Hin]; [discriminate Hin|]). exact Hin. }
  destruct (Startup.importable H Startup.tesseract_config); cbn [negb].
  - destruct (Startup.configure_pytesseract H w) as [[configured|e] w1];
      [|discriminate].
    destruct (forallb _ _) eqn:Hav; intros Heq; injection Heq as <- <-;
      cbn [Startup.AVAILABLE Startup.CONFIGURED Startup.tesseract_cmd].
    + split; [rewrite <- Hall; tauto|]. split; [tauto | discriminate].
    + split; [rewrite <- Hall; split; congruence|].
      split; discriminate.
  - intros Heq. injection Heq as <- <-. cbn [Startup.AVAILABLE Startup.CONFIGURED].
    split; [exact Hall|]. split; [discriminate | tauto].
Qed.

Lemma startup_forces_the_windows_binary_witness :
  exists fl w',
    Startup.service_startup SampleMore.linux_host Startup.initial_world
    = (Ok fl, w')
    /\ Startup.AVAILABLE fl = true
    /\ Startup.CONFIGURED fl = true
    /\ Startup.tesseract_cmd w' = Startup.windows_binary.
Proof.
  assert (Hrun : Startup.service_startup SampleMore.linux_host
                   Startup.initial_world
                 = (fun p => (fst p, snd p))
                     (Startup.service_startup SampleMore.linux_host
                        Startup.initial_world))
    by (destruct (Startup.service_startup _ _); reflexivity).
  vm_compute in Hrun.
  eexists _, _. split; [exact Hrun|]. split; [reflexivity|].
  exact (proj1 (proj2 (startup_forces_the_windows_binary SampleMore.linux_host
                         Startup.initial_world _ _ Hrun)) eq_refl eq_refl).
Defined.

(* ================================================================== *)
(** ** Responses *)

(** X23. Every response of the endpoint carries the warnings of the
    availability check and nothing else: none when the engine is
    available, else one warning with the reason. A successful response
    has the digest of the upload as [file_hash] and no error; a failed
    one has an error message, no text, no chunk, 0 pages and an empty
    [file_hash]. *)
Theorem responses_carry_the_availability_warning
        (U : unicode_db) (E : engine) (now : nat -> Q)
        (file_data : bytes) (content_type : option str)
        (extract_tables extract_images : bool) (confidence_threshold : Q)
        (languages : str) (preserve_layout : bool)
        (resp : OCRResponse) (tr' : trace) :
  extract_text U E now file_data content_type extract_tables extract_images
    confidence_threshold languages preserve_layout [] = (Ok resp, tr') ->
  warnings resp = warnings_of E
  /\ method resp = lit "comprehensive-tesseract-ocr"
  /\ (success resp = true ->
      file_hash resp = sha256_hexdigest E file_data /\ error resp = None)
  /\ (success resp = false ->
      (exists msg, error resp = Some msg)
      /\ text resp = [] /\ chunks resp = [] /\ pages resp = 0%nat
      /\ file_hash resp = []).
Proof.
  unfold extract_text, bind at 1, time at 1.
  destruct file_data as [|b0 rest] eqn:Hfile; [discriminate|].
  rewrite <- Hfile. clear Hfile.
  destruct (_ <? _)%Z; [discriminate|].
  unfold bind at 1.
  match goal with
  | |- context [check_tesseract_installation E ?t] =>
      destruct (check_installation_run E t) as (available & message & t1 & -> & Hw)
  end.
  unfold try_except, bind at 1.
  match goal with
  | |- context [match ?m t1 with _ => _ end] =>
      destruct (m t1) as [[result|e] t2]
  end.
  - unfold bind, time, ret. intros H. injection H as <- _.
    cbn [warnings method success file_hash error].
    split; [destruct available; exact Hw|]. split; [reflexivity|].
    split; [intros _; split; reflexivity | discriminate].
  - destruct e as [code detail|msg]; [discriminate|].
    unfold bind, time, ret. intros H. injection H as <- _.
    cbn [failure_response warnings method success file_hash error text chunks pages].
    split; [destruct available; exact Hw|]. split; [reflexivity|].
    split; [discriminate|]. intros _.
    split; [eexists; reflexivity|]. repeat split.
Qed.

Lemma responses_carry_the_availability_warning_witness :
  exists resp tr',
    extract_text ascii_db Sample.scan_engine Sample.clock Sample.png
      (Some (lit "application/pdf")) true true 0.7 (lit "eng") true []
    = (Ok resp, tr')
    /\ warnings resp
       = [lit "Tesseract OCR not available: pytesseract not installed"].
Proof.
  assert (Hrun : extract_text ascii_db Sample.scan_engine Sample.clock Sample.png
                   (Some (lit "application/pdf")) true true 0.7 (lit "eng") true []
                 = (fun p => (fst p, snd p))
                     (extract_text ascii_db Sample.scan_engine Sample.clock
                        Sample.png (Some (lit "application/pdf")) true true 0.7
                        (lit "eng") true []))
    by (destruct (extract_text _ _ _ _ _ _ _ _ _ _ _); reflexivity).
  vm_compute in Hrun.
  eexists _, _. split; [exact Hrun|].
  exact (proj1 (responses_carry_the_availability_warning ascii_db
                  Sample.scan_engine Sample.clock Sample.png
                  (Some (lit "application/pdf")) true true 0.7 (lit "eng") true
                  _ _ Hrun)).
Defined.

Lemma existsb_shows_images (extract_images : bool) (pds : list page_data) :
  existsb (shows_images extract_images) pds = true
  <-> extract_images = true
      /\ exists pd, In pd pds /\ pd_error pd = None /\ pd_images pd <> [].
Proof.
  rewrite existsb_exists. unfold shows_images. split.
  - intros (pd & Hin & Hs).
    destruct (pd_error pd) eqn:He; [discriminate|].
    destruct (pd_images pd) eqn:Hi; [discriminate|].
    split; [exact Hs|]. exists pd. rewrite He, Hi.
    split; [exact Hin|]. split; [reflexivity | discriminate].
  - intros (-> & pd & Hin & He & Hi). exists pd. split; [exact Hin|].
    rewrite He. destruct (pd_images pd); [congruence | reflexivity].
Qed.

(** X24. [has_images] of a result of the PDF pipeline is true exactly
    when image extraction is requested and some page entry without error
    marker holds an image; it does not depend on whether recognition left
    a chunk for any image. *)
Theorem has_images_means_an_image_was_kept
        (U : unicode_db) (E : engine) (now : nat -> Q) (pdf_data : bytes)
        (extract_tables extract_images preserve_layout : bool)
        (confidence_threshold : Q) (languages : list str)
        (tr tr' : trace) (r : doc_result) :
  process_pdf_comprehensive U E now pdf_data extract_tables extract_images
    confidence_threshold languages preserve_layout tr = (Ok r, tr') ->
  exists pds tr1,
    extract_text_from_pdf_comprehensive E pdf_data tr = (Ok pds, tr1)
    /\ (res_has_images r = true
        <-> extract_images = true
            /\ exists pd, In pd pds /\ pd_error pd = None /\ pd_images pd <> [])
    /\ res_has_tables r = false.
Proof.
  unfold process_pdf_comprehensive, try_except, bind at 1.
  destruct (extract_text_from_pdf_comprehensive E pdf_data tr)
    as [[pds|e] tr1]; [|discriminate].
  destruct (Nat.ltb _ _); [discriminate|].
  unfold bind at 1.
  match goal with
  | |- context [for_each pds ?f ?s tr1] =>
      destruct (process_pages_run U E now extract_images languages
                  preserve_layout pds s tr1) as (st & tr2 & -> & _ & Hseen)
  end.
  unfold ret. intros H. injection H as <- _.
  exists pds, tr1. split; [reflexivity|].
  cbn [res_has_images res_has_tables seen_images orb] in *.
  rewrite Hseen. split; [apply existsb_shows_images | reflexivity].
Qed.

Lemma has_images_means_an_image_was_kept_witness :
  exists r tr',
    process_pdf_comprehensive ascii_db Sample.silent_engine Sample.clock
      Sample.png true true 0.7 [lit "eng"] true [] = (Ok r, tr')
    /\ res_has_images r = true
    /\ length (res_chunks r) = 1%nat.
Proof.
  assert (Hrun : process_pdf_comprehensive ascii_db Sample.silent_engine
                   Sample.clock Sample.png true true 0.7 [lit "eng"] true []
                 = (fun p => (fst p, snd p))
                     (process_pdf_comprehensive ascii_db Sample.silent_engine
                        Sample.clock Sample.png true true 0.7 [lit "eng"] true []))
    by (destruct (process_pdf_comprehensive _ _ _ _ _ _ _ _ _ _); reflexivity).
  vm_compute in Hrun.
  eexists _, _. split; [exact Hrun|].
  destruct (has_images_means_an_image_was_kept ascii_db Sample.silent_engine
              Sample.clock Sample.png true true true 0.7 [lit "eng"] [] _ _ Hrun)
    as (pds & tr1 & _ & _ & _).
  split; reflexivity.
Defined.

(** X25. The calls of one recognition. With the capability flag off it
    calls nothing. Otherwise it opens the image and, when that fails,
    stops there. When the image opens it preprocesses it, reads the
    clock, calls the engine once under each of the five configurations,
    in order, also after a configuration has failed; it then makes the
    plain-text call exactly when the search left an empty text, and
    reads the clock again: five or six engine calls per image. *)
Theorem recognition_call_sequence
        (U : unicode_db) (E : engine) (now : nat -> Q) (image_bytes : bytes)
        (page_num : Z) (languages : list str) (tr : trace) :
  snd (extract_text_with_tesseract U E now image_bytes page_num languages tr)
  = tr ++
    (if negb (TESSERACT_AVAILABLE E) then []
     else
       match image_open E image_bytes with
       | Raise _ => [EvImageOpen]
       | Ok image =>
           [EvImageOpen; EvPreprocess; EvClock]
           ++ map EvImageToData configs
           ++ match fst (fst (search_result U E (preprocess E image)
                                            (lang_config_of languages))) with
              | [] => [EvImageToString (lit "--psm 6")]
              | _ => []
              end
           ++ [EvClock]
       end).
Proof.
  unfold extract_text_with_tesseract.
  destruct (TESSERACT_AVAILABLE E); cbn [negb];
    [|cbn; rewrite app_nil_r; reflexivity].
  unfold try_except, bind at 1, call at 1.
  destruct (image_open E image_bytes) as [image|e]; [|reflexivity].
  unfold bind at 1, call at 1. unfold bind at 1, time at 1. unfold bind at 1.
  rewrite search_loop_run. unfold search_result.
  destruct (fold_left _ configs _) as [[bt bq] bc]. cbn [fst].
  unfold bind at 1, basic_extraction.
  destruct bt as [|c0 bt].
  - unfold try_except, bind at 1, call at 1.
    destruct (image_to_string E _ _ _) as [s|e];
      unfold bind, ret, time; cbn [snd]; rewrite <- !app_assoc; reflexivity.
  - unfold bind, ret, time. cbn [snd]. rewrite <- !app_assoc. reflexivity.
Qed.


(* ================================================================== *)
(** ** Partial failure and the two phases of the PDF pipeline *)

Lemma failing_entries (doc : Document) (pgs : list (outcome fitz_page))
      (first : nat) :
  Forall (fun loaded => page_failure loaded <> None) pgs ->
  Forall (fun pd => pd_error pd <> None /\ pd_images pd = [])
         (map (page_entry doc) (enumerate_from first pgs)).
Proof.
  intros Hall. revert first.
  induction Hall as [|loaded pgs Hfail _ IH]; intros first; [constructor|].
  cbn [enumerate_from map]. constructor; [|apply IH].
  unfold page_entry. cbn [fst snd]. unfold page_failure in Hfail.
  destruct loaded as [page|e]; [|split; [discriminate | reflexivity]].
  destruct (get_text page) as [td|e]; [|split; [discriminate | reflexivity]].
  destruct (get_images page) as [il|e]; [congruence|].
  split; [discriminate | reflexivity].
Qed.

Lemma marked_pages_add_nothing (U : unicode_db) (E : engine)
      (extract_images preserve_layout : bool) (languages : list str)
      (pds : list page_data) :
  Forall (fun pd => pd_error pd <> None /\ pd_images pd = []) pds ->
  flat_map (page_chunks U E extract_images languages) pds = []
  /\ full_text U E extract_images languages preserve_layout pds = []
  /\ existsb (shows_images extract_images) pds = false.
Proof.
  induction 1 as [|pd pds [Herr _] _ (IHc & IHt & IHs)]; [repeat split|].
  unfold full_text in *. cbn [flat_map map concat existsb].
  rewrite IHc, IHt, IHs.
  unfold page_chunks, page_section, shows_images.
  destruct (pd_error pd); [repeat split | congruence].
Qed.

(** X27. A document the parser opens but none of whose pages decomposes
    is not a failure: within the page limit the PDF pipeline returns a
    result with no chunk, an empty full text, word and character counts
    0, quality score 0, [has_images] false, and the page count of the
    document. *)
Theorem undecomposable_pages_give_an_empty_result
        (U : unicode_db) (E : engine) (now : nat -> Q) (pdf_data : bytes)
        (doc : Document)
        (extract_tables extract_images preserve_layout : bool)
        (confidence_threshold : Q) (languages : list str) (tr : trace) :
  fitz_open E pdf_data = Ok doc ->
  (length (doc_pages doc) <= MAX_PAGES_PER_REQUEST)%nat ->
  all_pages_fail doc ->
  exists r tr',
    process_pdf_comprehensive U E now pdf_data extract_tables extract_images
      confidence_threshold languages preserve_layout tr = (Ok r, tr')
    /\ res_chunks r = []
    /\ res_text r = []
    /\ res_pages r = length (doc_pages doc)
    /\ res_word_count r = 0%nat
    /\ res_character_count r = 0%nat
    /\ res_quality_score r = 0
    /\ res_has_images r = false.
Proof.
  intros Hopen Hlen Hfail.
  destruct (decomposition_entries E pdf_data doc tr Hopen) as (tr1 & Hdec).
  set (pds := map (page_entry doc) (enumerate (doc_pages doc))) in *.
  assert (Hpds : length pds = length (doc_pages doc)).
  { subst pds. rewrite length_map. apply enumerate_from_length. }
  destruct (marked_pages_add_nothing U E extract_images preserve_layout languages
              pds (failing_entries doc (doc_pages doc) 0 Hfail))
    as (Hc & Ht & Hs).
  destruct (process_pdf_accepts U E now pdf_data extract_tables extract_images
              preserve_layout confidence_threshold languages tr tr1 pds Hdec
              ltac:(rewrite Hpds; exact Hlen))
    as (r & tr2 & Hrun & Hch & Hpages & Himg).
  destruct (pdf_result_text U E now pdf_data extract_tables extract_images
              preserve_layout confidence_threshold languages tr tr2 r Hrun)
    as (pds' & tr1' & Hdec' & Htext & Hw & Hcc & Hq & _).
  rewrite Hdec in Hdec'. injection Hdec' as <- _.
  exists r, tr2. split; [exact Hrun|].
  rewrite Ht in Htext.
  rewrite Hw, Hcc, Hq, Htext, Hch, Hc, Hpages, Hpds, Himg, Hs.
  repeat split.
Qed.

Lemma undecomposable_pages_give_an_empty_result_witness :
  exists r tr',
    process_pdf_comprehensive ascii_db SampleMore.broken_engine Sample.clock
      Sample.png true true 0.7 [lit "eng"] true [] = (Ok r, tr')
    /\ res_chunks r = []
    /\ res_text r = []
    /\ res_pages r = 2%nat
    /\ res_word_count r = 0%nat
    /\ res_character_count r = 0%nat
    /\ res_quality_score r = 0
    /\ res_has_images r = false.
Proof.
  apply (undecomposable_pages_give_an_empty_result ascii_db
           SampleMore.broken_engine Sample.clock Sample.png
           SampleMore.broken_document true true true 0.7 [lit "eng"] []).
  - reflexivity.
  - cbv. lia.
  - repeat constructor; discriminate.
Defined.

Lemma recognition_emits (P : event -> Prop) (U : unicode_db) (E : engine)
      (now : nat -> Q) (image_bytes : bytes) (page_num : Z)
      (languages : list str) :
  (forall ev, assembly_event ev -> P ev) ->
  emits P (extract_text_with_tesseract U E now image_bytes page_num languages).
Proof.
  intros HP.
  unfold extract_text_with_tesseract, try_config, basic_extraction.
  emits_with ltac:(apply HP; first [left; reflexivity | right; reflexivity]).
Qed.

Lemma assembly_emits (U : unicode_db) (E : engine) (now : nat -> Q)
      (extract_images : bool) (languages : list str) (preserve_layout : bool)
      (pds : list page_data) (st : assembly) :
  emits assembly_event
        (for_each pds
                  (process_page U E now extract_images languages preserve_layout)
                  st).
Proof.
  apply emits_for_each. intros pd st'. unfold process_page.
  destruct (pd_error pd); [apply emits_ret|].
  destruct (fold_left _ _ _) as [page_text chunks].
  apply emits_bind; [|intros [[[pt ch] langs] seen]; apply emits_ret].
  destruct extract_images; [|apply emits_ret].
  destruct (pd_images pd) as [|img imgs]; [apply emits_ret|].
  apply emits_bind; [|intros [[pt ch] langs]; apply emits_ret].
  apply emits_for_each. intros img' st''. unfold add_image.
  apply emits_try; [|intros e; apply emits_ret].
  apply emits_bind; [|intros r; apply emits_ret].
  apply recognition_emits. intros ev Hev. exact Hev.
Qed.

(** X28. The PDF pipeline works in two phases. For a document the parser
    opens, it first decomposes every page and closes the document; only
    then does it turn to the images: every call of the image library or
    the recognition engine, and every clock reading, comes after the
    document was closed, and the parser is not called again. *)
Theorem decomposition_precedes_recognition
        (U : unicode_db) (E : engine) (now : nat -> Q) (pdf_data : bytes)
        (doc : Document)
        (extract_tables extract_images preserve_layout : bool)
        (confidence_threshold : Q) (languages : list str) (tr : trace) :
  fitz_open E pdf_data = Ok doc ->
  exists parsing assembling,
    snd (process_pdf_comprehensive U E now pdf_data extract_tables
           extract_images confidence_threshold languages preserve_layout tr)
    = tr ++ [EvFitzOpen] ++ parsing ++ [EvDocClose] ++ assembling
    /\ Forall decomposition_event parsing
    /\ Forall assembly_event assembling.
Proof.
  intros Hopen.
  destruct (decomposition_run E pdf_data doc tr Hopen)
    as (pds & parsing & Hdec & _ & _ & Hparsing & _).
  exists parsing.
  unfold process_pdf_comprehensive, try_except, bind at 1. rewrite Hdec.
  destruct (Nat.ltb _ _).
  - exists []. cbn [raise snd]. rewrite app_nil_r.
    split; [reflexivity|]. split; [exact Hparsing | constructor].
  - unfold bind at 1.
    match goal with
    | |- context [for_each pds ?f ?s ?t] =>
        destruct (assembly_emits U E now extract_images languages
                    preserve_layout pds s t) as (assembling & Htr & Hass);
        destruct (for_each pds f s t) as [[st|e] t2]
    end; cbn [snd] in Htr; subst t2; exists assembling; cbn [snd ret];
      (split; [cbn [app]; rewrite <- ?app_assoc; cbn [app];
               rewrite <- ?app_assoc; reflexivity|]);
      split; assumption.
Qed.

Lemma decomposition_precedes_recognition_witness :
  exists parsing assembling,
    snd (process_pdf_comprehensive ascii_db Sample.reading_engine Sample.clock
           Sample.png true true 0.7 [lit "eng"] true [])
    = [] ++ [EvFitzOpen] ++ parsing ++ [EvDocClose] ++ assembling
    /\ Forall decomposition_event parsing
    /\ Forall assembly_event assembling.
Proof.
  exact (decomposition_precedes_recognition ascii_db Sample.reading_engine
           Sample.clock Sample.png Sample.mixed_document true true true 0.7
           [lit "eng"] [] eq_refl).
Defined.
